(** * build_wayback_site: URL rewriting, path mapping and overlay stripping

    A shallow embedding of [build_wayback_site.py] and proofs about it.

    Modelling conventions.
    - A Python [str] is a [string]; each [ascii] stands for the code point
      of the same number (U+0000 to U+00FF).  Text with code points above
      U+00FF is outside the model.
    - A raised exception is a [Raise] in the [result] monad.
    - Python sets of strings are [gset string].
    - Library functions the program calls ([str] methods, [re],
      [urllib.parse], [posixpath], [hashlib.sha1]) are modelled in the
      modules [Str], [Re], [Urllib], [Posixpath] and [Hashlib]; the
      program itself follows, in source order. *)

From stdpp Require Import base option list gmap strings.
From Stdlib Require Import Bool Arith ZArith Lia Ascii String.

Local Open Scope string_scope.

(** ** Exceptions *)

Inductive exn :=
| ValueError      (* raised by [urlsplit] and [os.path.relpath] *)
| Unrepresentable (* the value has a code point above U+00FF *).

Inductive result (A : Type) :=
| Ok (a : A)
| Raise (e : exn).
Arguments Ok {A} a.
Arguments Raise {A} e.

Definition rbind {A B} (f : A -> result B) (m : result A) : result B :=
  match m with
  | Ok a => f a
  | Raise e => Raise e
  end.

#[global] Instance result_ret : MRet result := fun _ a => Ok a.
#[global] Instance result_bind : MBind result := fun _ _ f m => rbind f m.

(** [try: ... except Exception: handler] *)
Definition try_except {A} (m : result A) (handler : A) : A :=
  match m with
  | Ok a => a
  | Raise _ => handler
  end.

(** ** Characters that string literals cannot hold *)

Definition dquote : ascii := Eval cbv in ascii_of_nat 34.
Definition squote : ascii := Eval cbv in ascii_of_nat 39.
Definition newline : ascii := Eval cbv in ascii_of_nat 10.
Definition tab : ascii := Eval cbv in ascii_of_nat 9.
Definition cr : ascii := Eval cbv in ascii_of_nat 13.
Definition DQ : string := String dquote "".
Definition SQ : string := String squote "".
Definition NL : string := String newline "".

(** ** Python [str] methods *)

Module Str.

Definition ord (c : ascii) : nat := nat_of_ascii c.
Definition chr (n : nat) : ascii := ascii_of_nat n.

Definition between (lo hi n : nat) : bool := Nat.leb lo n && Nat.leb n hi.

(** [str.isspace] on one character: the Unicode white space below
    U+0100 is TAB..CR, FS..US, SPACE, NEL and NBSP. *)
Definition isspace (c : ascii) : bool :=
  let n := ord c in
  between 9 13 n || between 28 32 n || Nat.eqb n 133 || Nat.eqb n 160.

Definition isupper (c : ascii) : bool :=
  let n := ord c in
  between 65 90 n || between 192 214 n || between 216 222 n.

Definition lower_char (c : ascii) : ascii :=
  if isupper c then chr (ord c + 32) else c.

Definition is_ascii_alpha (c : ascii) : bool :=
  let n := ord c in between 65 90 n || between 97 122 n.

Definition isdigit09 (c : ascii) : bool := between 48 57 (ord c).

(** [\w] of [re] on [str] patterns: alphanumeric or underscore.  Below
    U+0100 the alphanumerics are the ASCII ones, the ordinal indicators,
    the superscript digits, micro, the vulgar fractions and the
    accented letters. *)
Definition isword (c : ascii) : bool :=
  let n := ord c in
  is_ascii_alpha c || isdigit09 c || Nat.eqb n 95
  || Nat.eqb n 170 || between 178 179 n || Nat.eqb n 181 || between 185 186 n
  || between 188 190 n || between 192 214 n || between 216 246 n
  || between 248 255 n.

Fixpoint lower (s : string) : string :=
  match s with
  | "" => ""
  | String c s' => String (lower_char c) (lower s')
  end.

Fixpoint lstrip_by (p : ascii -> bool) (s : string) : string :=
  match s with
  | "" => ""
  | String c s' => if p c then lstrip_by p s' else s
  end.

Fixpoint rstrip_by (p : ascii -> bool) (s : string) : string :=
  match s with
  | "" => ""
  | String c s' =>
      match rstrip_by p s' with
      | "" => if p c then "" else String c ""
      | r => String c r
      end
  end.

(** [s.strip()], [s.lstrip(ch)], [s.rstrip(ch)] *)
Definition strip (s : string) : string := rstrip_by isspace (lstrip_by isspace s).
Definition lstrip_char (ch : ascii) : string -> string := lstrip_by (Ascii.eqb ch).
Definition rstrip_char (ch : ascii) : string -> string := rstrip_by (Ascii.eqb ch).

Fixpoint startswith (s p : string) {struct p} : bool :=
  match p with
  | "" => true
  | String a p' =>
      match s with
      | "" => false
      | String b s' => Ascii.eqb a b && startswith s' p'
      end
  end.

Fixpoint rev (s : string) : string :=
  match s with
  | "" => ""
  | String c s' => rev s' +:+ String c ""
  end.

Definition endswith (s p : string) : bool := startswith (rev s) (rev p).

(** [sub in s] *)
Fixpoint contains (s sub : string) : bool :=
  startswith s sub
  || match s with
     | "" => false
     | String _ s' => contains s' sub
     end.

Fixpoint has_char (c : ascii) (s : string) : bool :=
  match s with
  | "" => false
  | String b s' => Ascii.eqb c b || has_char c s'
  end.

Fixpoint take (n : nat) (s : string) : string :=
  match n, s with
  | S n', String c s' => String c (take n' s')
  | _, _ => ""
  end.

Fixpoint drop (n : nat) (s : string) : string :=
  match n, s with
  | S n', String _ s' => drop n' s'
  | _, _ => s
  end.

(** [s.split(sep)] for a one-character separator: never empty. *)
Fixpoint split (sep : ascii) (s : string) : list string :=
  match s with
  | "" => [""]
  | String c s' =>
      if Ascii.eqb c sep then "" :: split sep s'
      else match split sep s' with
           | x :: xs => String c x :: xs
           | [] => [String c ""]
           end
  end.

(** [s.split(sep, 1)] *)
Fixpoint split1 (sep : ascii) (s : string) : list string :=
  match s with
  | "" => [""]
  | String c s' =>
      if Ascii.eqb c sep then [""; s']
      else match split1 sep s' with
           | x :: xs => String c x :: xs
           | [] => [String c ""]
           end
  end.

(** [s.split()]: the maximal runs of characters that are not white space *)
Fixpoint split_ws (s : string) : list string :=
  match s with
  | "" => []
  | String c s' =>
      if isspace c then split_ws s'
      else match s' with
           | "" => [String c ""]
           | String d _ =>
               if isspace d then String c "" :: split_ws s'
               else match split_ws s' with
                    | w :: ws => String c w :: ws
                    | [] => [String c ""]
                    end
           end
  end.

(** [sep.join(l)] *)
Fixpoint join (sep : string) (l : list string) : string :=
  match l with
  | [] => ""
  | [x] => x
  | x :: xs => x +:+ sep +:+ join sep xs
  end.

(** [s.replace(ch, empty)] *)
Fixpoint remove_char (ch : ascii) (s : string) : string :=
  match s with
  | "" => ""
  | String c s' =>
      if Ascii.eqb c ch then remove_char ch s' else String c (remove_char ch s')
  end.

(** [x or default] on strings *)
Definition or_else (s default : string) : string :=
  match s with
  | "" => default
  | _ => s
  end.

Definition is_empty (s : string) : bool :=
  match s with
  | "" => true
  | _ => false
  end.

End Str.

(** ** Python [re]: a backtracking matcher

    [m r p] lists the positions where a match of [r] that starts at [p]
    can end, in the order in which the backtracking matcher of [re] tries
    them; the first one is the match [re] reports. *)

Module Re.

Inductive citem :=
| One (c : ascii)
| Range (lo hi : ascii)
| Space   (* \s *)
| Digit   (* \d *).

Inductive regex :=
| Eps
| Lit (c : ascii)
| Dot
| Cls (neg : bool) (items : list citem)
| Seq (r1 r2 : regex)
| Alt (r1 r2 : regex)
| Rep (r : regex) (lo : nat) (hi : option nat) (greedy : bool)
| Grp (n : nat) (r : regex)
| Bref (n : nat)
| Bol     (* ^ *)
| Eol     (* $ *)
| WordB   (* \b *).

Record flags := { IGNORECASE : bool; DOTALL : bool }.

(** A position in the subject: the character before it (none at the
    start), the text after it, and the groups captured so far. *)
Record pos := Pos { before : option ascii; rest : string; groups : list (nat * string) }.

Definition start (s : string) : pos := Pos None s [].

Definition chr_eq (fl : flags) (c t : ascii) : bool :=
  if IGNORECASE fl then Ascii.eqb (Str.lower_char c) (Str.lower_char t)
  else Ascii.eqb c t.

(** With IGNORECASE a range holds [t] when the lower case of [t] is the
    lower case of a character of the range. *)
Definition in_range (fl : flags) (lo hi t : ascii) : bool :=
  if IGNORECASE fl then
    existsb (fun n => Ascii.eqb (Str.lower_char (Str.chr n)) (Str.lower_char t))
            (seq (Str.ord lo) (S (Str.ord hi) - Str.ord lo))
  else Str.between (Str.ord lo) (Str.ord hi) (Str.ord t).

Definition in_item (fl : flags) (t : ascii) (i : citem) : bool :=
  match i with
  | One c => chr_eq fl c t
  | Range lo hi => in_range fl lo hi t
  | Space => Str.isspace t
  | Digit => Str.isdigit09 t
  end.

Definition cls_ok (fl : flags) (neg : bool) (items : list citem) (t : ascii) : bool :=
  xorb neg (existsb (in_item fl t) items).

Definition dot_ok (fl : flags) (t : ascii) : bool :=
  DOTALL fl || negb (Ascii.eqb t newline).

(** consume one character that satisfies [ok] *)
Definition step (ok : ascii -> bool) (p : pos) : list pos :=
  match rest p with
  | "" => []
  | String t s' => if ok t then [Pos (Some t) s' (groups p)] else []
  end.

Definition below (hi : option nat) (k : nat) : bool :=
  match hi with
  | None => true
  | Some h => Nat.ltb k h
  end.

Definition shorter (q p : pos) : bool :=
  Nat.ltb (String.length (rest q)) (String.length (rest p)).

(** [body{lo,hi}] after [k] iterations.  An iteration that consumes
    nothing is not repeated. *)
Fixpoint rep (body : pos -> list pos) (lo : nat) (hi : option nat) (greedy : bool)
    (fuel k : nat) (p : pos) : list pos :=
  let stop := if Nat.leb lo k then [p] else [] in
  match fuel with
  | 0 => stop
  | S fuel' =>
      let again :=
        if below hi k then
          flat_map (fun q => if shorter q p
                             then rep body lo hi greedy fuel' (S k) q else [])
                   (body p)
        else [] in
      if greedy then again ++ stop else stop ++ again
  end.

Definition matched (p q : pos) : string :=
  Str.take (String.length (rest p) - String.length (rest q)) (rest p).

Fixpoint lookup_group (n : nat) (gs : list (nat * string)) : option string :=
  match gs with
  | [] => None
  | (k, g) :: gs' => if Nat.eqb k n then Some g else lookup_group n gs'
  end.

(** the text after [p] starts with [g] *)
Fixpoint consume (fl : flags) (g : string) (p : pos) : list pos :=
  match g with
  | "" => [p]
  | String c g' => flat_map (consume fl g') (step (chr_eq fl c) p)
  end.

Definition at_word (o : option ascii) : bool :=
  match o with
  | Some c => Str.isword c
  | None => false
  end.

Definition next (p : pos) : option ascii :=
  match rest p with
  | "" => None
  | String t _ => Some t
  end.

Fixpoint m (fl : flags) (r : regex) (p : pos) {struct r} : list pos :=
  match r with
  | Eps => [p]
  | Lit c => step (chr_eq fl c) p
  | Dot => step (dot_ok fl) p
  | Cls neg items => step (cls_ok fl neg items) p
  | Seq r1 r2 => flat_map (m fl r2) (m fl r1 p)
  | Alt r1 r2 => m fl r1 p ++ m fl r2 p
  | Rep r' lo hi greedy =>
      rep (m fl r') lo hi greedy (S (String.length (rest p))) 0 p
  | Grp n r' =>
      map (fun q => Pos (before q) (rest q) ((n, matched p q) :: groups q)) (m fl r' p)
  | Bref n =>
      match lookup_group n (groups p) with
      | Some g => consume fl g p
      | None => []
      end
  | Bol => match before p with None => [p] | Some _ => [] end
  | Eol => if String.eqb (rest p) "" || String.eqb (rest p) NL then [p] else []
  | WordB => if xorb (at_word (before p)) (at_word (next p)) then [p] else []
  end.

(** Pattern constructors *)
Definition cat (rs : list regex) : regex := foldr Seq Eps rs.
Definition alts (rs : list regex) : regex :=
  match rs with
  | [] => Cls false []
  | r :: rs' => foldl Alt r rs'
  end.
Fixpoint str (s : string) : regex :=
  match s with
  | "" => Eps
  | String c s' => Seq (Lit c) (str s')
  end.
Definition star (r : regex) : regex := Rep r 0 None true.
Definition plus (r : regex) : regex := Rep r 1 None true.
Definition opt (r : regex) : regex := Rep r 0 (Some 1) true.
Definition lazy_star (r : regex) : regex := Rep r 0 None false.
Definition ws : regex := Cls false [Space].

(** A compiled pattern *)
Record pattern := Pattern { flags_of : flags; regex_of : regex }.

Definition no_flags : flags := {| IGNORECASE := false; DOTALL := false |}.
Definition flags_I : flags := {| IGNORECASE := true; DOTALL := false |}.
Definition flags_IS : flags := {| IGNORECASE := true; DOTALL := true |}.

Definition run (pt : pattern) (p : pos) : option pos :=
  head (m (flags_of pt) (regex_of pt) p).

(** [m.group(n)]; a group that did not take part reads as the empty
    string. *)
Definition group (n : nat) (q : pos) : string :=
  default "" (lookup_group n (groups q)).

(** [pattern.match(s)] *)
Definition match_ (pt : pattern) (s : string) : option pos := run pt (start s).

(** [pattern.search(s)], scanning from the position [(b, s)] *)
Fixpoint search_at (pt : pattern) (b : option ascii) (s : string) : option pos :=
  match run pt (Pos b s []) with
  | Some q => Some q
  | None =>
      match s with
      | "" => None
      | String c s' => search_at pt (Some c) s'
      end
  end.

Definition search (pt : pattern) (s : string) : option pos := search_at pt None s.

(** [pattern.sub(repl, s)]: [repl p q] is the replacement of the match
    from [p] to [q].  After a match that consumed nothing the next
    character is copied. *)
Fixpoint sub_loop (pt : pattern) (repl : pos -> pos -> string) (fuel : nat)
    (b : option ascii) (s : string) : string :=
  match fuel with
  | 0 => s
  | S fuel' =>
      let copy :=
        match s with
        | "" => ""
        | String c s' => String c (sub_loop pt repl fuel' (Some c) s')
        end in
      match run pt (Pos b s []) with
      | Some q =>
          if shorter q (Pos b s [])
          then repl (Pos b s []) q +:+ sub_loop pt repl fuel' (before q) (rest q)
          else repl (Pos b s []) q +:+ copy
      | None => copy
      end
  end.

Definition sub (pt : pattern) (repl : pos -> pos -> string) (s : string) : string :=
  sub_loop pt repl (S (String.length s)) None s.

(** [pattern.sub(text, s)] for a replacement text without escapes *)
Definition sub_text (pt : pattern) (text : string) (s : string) : string :=
  sub pt (fun _ _ => text) s.

End Re.

(** ** [urllib.parse]: [urlsplit] and [unquote] *)

Module Urllib.

Record SplitResult := Split {
  scheme : string;
  netloc : string;
  path : string;
  query : string;
  fragment : string
}.

(** [_WHATWG_C0_CONTROL_OR_SPACE] *)
Definition c0_or_space (c : ascii) : bool := Nat.leb (Str.ord c) 32.

(** [scheme_chars]: ASCII letters, digits and [+-.] *)
Definition scheme_char (c : ascii) : bool :=
  Str.is_ascii_alpha c || Str.isdigit09 c
  || Ascii.eqb c "+" || Ascii.eqb c "-" || Ascii.eqb c ".".

Fixpoint all_chars (p : ascii -> bool) (s : string) : bool :=
  match s with
  | "" => true
  | String c s' => p c && all_chars p s'
  end.

Definition first_is (p : ascii -> bool) (s : string) : bool :=
  match s with
  | "" => false
  | String c _ => p c
  end.

(** The scheme step: [i = url.find(':')], and when [i > 0], the first
    character is an ASCII letter and [url[:i]] has scheme characters
    only, the scheme is split off. *)
Definition split_scheme (url : string) : string * string :=
  match Str.split1 ":" url with
  | [s; u] =>
      if negb (Str.is_empty s) && first_is Str.is_ascii_alpha s
         && all_chars scheme_char s
      then (Str.lower s, u) else ("", url)
  | _ => ("", url)
  end.

Definition netloc_delim (c : ascii) : bool :=
  Ascii.eqb c "/" || Ascii.eqb c "?" || Ascii.eqb c "#".

(** [_splitnetloc(url, 2)] on the text after the two slashes *)
Fixpoint splitnetloc (s : string) : string * string :=
  match s with
  | "" => ("", "")
  | String c s' =>
      if netloc_delim c then ("", s)
      else let '(n, r) := splitnetloc s' in (String c n, r)
  end.

(** [a, b = s.split(ch, 1)] when [ch in s] *)
Definition cut (ch : ascii) (s : string) : string * string :=
  match Str.split1 ch s with
  | [a; b] => (a, b)
  | _ => (s, "")
  end.

Section Urlsplit.

(** The check of a netloc that holds both [[] and []], which
    [urlsplit] leaves to the [ipaddress] module. *)
Variable bracketed_netloc_ok : string -> bool.

(** [_checknetloc] raises only when NFKC normalisation of the netloc
    brings up one of [/?#@:]; no character below U+0100 does. *)
Definition urlsplit (url : string) : result SplitResult :=
  let url := Str.lstrip_by c0_or_space url in
  let url := Str.remove_char newline (Str.remove_char cr (Str.remove_char tab url)) in
  let '(scheme, url) := split_scheme url in
  '(netloc, url) ←
    (if Str.startswith url "//" then
       let '(netloc, url) := splitnetloc (Str.drop 2 url) in
       let lb := Str.has_char "[" netloc in
       let rb := Str.has_char "]" netloc in
       if (lb && negb rb) || (rb && negb lb) then Raise ValueError
       else if lb && rb && negb (bracketed_netloc_ok netloc) then Raise ValueError
       else Ok (netloc, url)
     else Ok ("", url));
  let '(url, fragment) := cut "#" url in
  let '(url, query) := cut "?" url in
  Ok (Split scheme netloc url query fragment).

End Urlsplit.

Definition hexval (c : ascii) : option nat :=
  let n := Str.ord c in
  if Str.between 48 57 n then Some (n - 48)
  else if Str.between 65 70 n then Some (n - 55)
  else if Str.between 97 102 n then Some (n - 87)
  else None.

(** The bytes [unquote] decodes: a character of the text, or a byte
    of 0x80 and above that came from a [%XX] escape. *)
Inductive token :=
| Raw (c : ascii)
| Esc (b : nat).

Definition escaped (h1 h2 : ascii) : option token :=
  match hexval h1, hexval h2 with
  | Some a, Some b =>
      let n := 16 * a + b in
      Some (if Nat.ltb n 128 then Raw (Str.chr n) else Esc n)
  | _, _ => None
  end.

(** [%XX] with two hexadecimal digits is a byte; any other [%] stays. *)
Fixpoint unquote_tokens (s : string) : list token :=
  match s with
  | "" => []
  | String c s1 =>
      match s1 with
      | String h1 (String h2 s3) =>
          match (if Ascii.eqb c "%" then escaped h1 h2 else None) with
          | Some t => t :: unquote_tokens s3
          | None => Raw c :: unquote_tokens s1
          end
      | _ => Raw c :: unquote_tokens s1
      end
  end.

(** UTF-8 decoding with [errors='replace'].  The escaped bytes that
    decode to a code point below U+0100 are the pairs of a lead byte
    0xC2 or 0xC3 and one continuation byte; every other escaped byte
    gives U+FFFD or a code point above U+00FF. *)
Fixpoint decode (ts : list token) : result string :=
  match ts with
  | [] => Ok ""
  | Raw c :: ts' => s ← decode ts'; Ok (String c s)
  | Esc b :: ts1 =>
      match ts1 with
      | Esc b2 :: ts2 =>
          if Str.between 194 195 b && Str.between 128 191 b2
          then s ← decode ts2; Ok (String (Str.chr ((b - 192) * 64 + (b2 - 128))) s)
          else Raise Unrepresentable
      | _ => Raise Unrepresentable
      end
  end.

(** [unquote(string)] with the default [encoding='utf-8'] and
    [errors='replace'] *)
Definition unquote (s : string) : result string :=
  if Str.has_char "%" s then decode (unquote_tokens s) else Ok s.

End Urllib.

(** ** [posixpath] *)

Module Posixpath.

Definition isabs (p : string) : bool := Str.startswith p "/".

(** [join(a, b)] *)
Definition join (a b : string) : string :=
  if Str.startswith b "/" then b
  else if Str.is_empty a || Str.endswith a "/" then a +:+ b
  else a +:+ "/" +:+ b.

(** The loop of [normpath]; [acc] holds the components kept so far,
    the last one first. *)
Fixpoint norm_comps (initial_slashes : bool) (comps acc : list string) : list string :=
  match comps with
  | [] => reverse acc
  | comp :: comps' =>
      if String.eqb comp "" || String.eqb comp "." then
        norm_comps initial_slashes comps' acc
      else if negb (String.eqb comp "..")
              || (negb initial_slashes && bool_decide (acc = []))
              || match acc with
                 | last :: _ => String.eqb last ".."
                 | [] => false
                 end
      then norm_comps initial_slashes comps' (comp :: acc)
      else norm_comps initial_slashes comps' (tail acc)
  end.

Definition normpath (p : string) : string :=
  if Str.is_empty p then "." else
  let initial_slashes :=
    if Str.startswith p "/" then
      if Str.startswith p "//" && negb (Str.startswith p "///") then 2 else 1
    else 0 in
  let comps := norm_comps (negb (Nat.eqb initial_slashes 0)) (Str.split "/" p) [] in
  let path := Str.join "/" comps in
  let path :=
    match initial_slashes with
    | 0 => path
    | 1 => "/" +:+ path
    | _ => "//" +:+ path
    end in
  Str.or_else path ".".

(** [dirname(p)] *)
Definition dirname (p : string) : string :=
  let head := Str.rev (Str.lstrip_by (fun c => negb (Ascii.eqb c "/")) (Str.rev p)) in
  if negb (Str.is_empty head) && negb (Urllib.all_chars (Ascii.eqb "/") head)
  then Str.rstrip_char "/" head else head.

Fixpoint commonprefix (a b : list string) : list string :=
  match a, b with
  | x :: a', y :: b' => if String.eqb x y then x :: commonprefix a' b' else []
  | _, _ => []
  end.

Section Cwd.

(** [os.getcwd()] *)
Variable cwd : string.

Definition abspath (p : string) : string :=
  normpath (if isabs p then p else join cwd p).

Definition nonempty_parts (p : string) : list string :=
  filter (fun x => x ≠ "") (Str.split "/" p).

(** [relpath(path, start)] *)
Definition relpath (path start : string) : result string :=
  if Str.is_empty path then Raise ValueError else
  let start_list := nonempty_parts (abspath start) in
  let path_list := nonempty_parts (abspath path) in
  let i := List.length (commonprefix start_list path_list) in
  let rel_list := (replicate (List.length start_list - i) ".." ++ drop i path_list)%list in
  match rel_list with
  | [] => Ok "."
  | _ => Ok (Str.join "/" rel_list)
  end.

End Cwd.

End Posixpath.

(** ** [hashlib.sha1] (FIPS 180-4) on the UTF-8 encoding of a text *)

Module Hashlib.

Local Open Scope Z_scope.

Definition wrap (x : Z) : Z := x mod 2 ^ 32.
Definition add32 (a b : Z) : Z := wrap (a + b).
Definition rotl (n x : Z) : Z := Z.lor (wrap (Z.shiftl x n)) (Z.shiftr x (32 - n)).
Definition not32 (x : Z) : Z := Z.lxor x (2 ^ 32 - 1).

(** [s.encode("utf-8")] for code points below U+0100 *)
Fixpoint utf8 (s : string) : list Z :=
  match s with
  | EmptyString => []
  | String c s' =>
      let n := Z.of_nat (Str.ord c) in
      if n <? 128 then n :: utf8 s'
      else Z.lor 192 (Z.shiftr n 6) :: Z.lor 128 (Z.land n 63) :: utf8 s'
  end.

(** big-endian bytes of [x], [n] of them *)
Fixpoint be_bytes (n : nat) (x : Z) : list Z :=
  match n with
  | O => []
  | S n' => (Z.shiftr x (8 * Z.of_nat n')) mod 256 :: be_bytes n' x
  end.

Definition pad (msg : list Z) : list Z :=
  let len := Z.of_nat (List.length msg) in
  let zeros := Z.to_nat ((55 - len) mod 64) in
  (msg ++ 128 :: replicate zeros 0 ++ be_bytes 8 (8 * len))%list.

Fixpoint words (bytes : list Z) : list Z :=
  match bytes with
  | a :: b :: c :: d :: bytes' =>
      (Z.shiftl a 24 + Z.shiftl b 16 + Z.shiftl c 8 + d) :: words bytes'
  | _ => []
  end.

(** The message schedule: [recent] holds the words so far, the last
    one first. *)
Fixpoint schedule (n : nat) (recent : list Z) : list Z :=
  match n with
  | O => reverse recent
  | S n' =>
      let w i := nth i recent 0 in
      schedule n' (rotl 1 (Z.lxor (Z.lxor (w 2%nat) (w 7%nat))
                                  (Z.lxor (w 13%nat) (w 15%nat))) :: recent)
  end.

Definition state : Type := Z * Z * Z * Z * Z.

Definition round (i : nat) (st : state) (w : Z) : state :=
  let '(a, b, c, d, e) := st in
  let '(f, k) :=
    if Nat.ltb i 20 then (Z.lor (Z.land b c) (Z.land (not32 b) d), 0x5A827999)
    else if Nat.ltb i 40 then (Z.lxor (Z.lxor b c) d, 0x6ED9EBA1)
    else if Nat.ltb i 60
         then (Z.lor (Z.lor (Z.land b c) (Z.land b d)) (Z.land c d), 0x8F1BBCDC)
    else (Z.lxor (Z.lxor b c) d, 0xCA62C1D6) in
  let temp := add32 (add32 (add32 (add32 (rotl 5 a) f) e) k) w in
  (temp, a, rotl 30 b, c, d).

Fixpoint rounds (i : nat) (st : state) (ws : list Z) : state :=
  match ws with
  | [] => st
  | w :: ws' => rounds (S i) (round i st w) ws'
  end.

Definition compress (h : state) (block : list Z) : state :=
  let '(h0, h1, h2, h3, h4) := h in
  let '(a, b, c, d, e) := rounds 0 h (schedule 64 (reverse block)) in
  (add32 h0 a, add32 h1 b, add32 h2 c, add32 h3 d, add32 h4 e).

Fixpoint blocks (n : nat) (h : state) (ws : list Z) : state :=
  match n with
  | O => h
  | S n' => blocks n' (compress h (take 16 ws)) (drop 16 ws)
  end.

Definition hexdigit (x : Z) : ascii :=
  Str.chr (Z.to_nat (if x <? 10 then 48 + x else 87 + x)).

Fixpoint hex (digits : nat) (x : Z) : string :=
  match digits with
  | O => EmptyString
  | S d => String (hexdigit ((Z.shiftr x (4 * Z.of_nat d)) mod 16)) (hex d x)
  end.

Definition initial : state :=
  (0x67452301, 0xEFCDAB89, 0x98BADCFE, 0x10325476, 0xC3D2E1F0).

(** [hashlib.sha1(s.encode("utf-8")).hexdigest()] *)
Definition sha1_hexdigest (s : string) : string :=
  let ws := words (pad (utf8 s)) in
  let '(h0, h1, h2, h3, h4) := blocks (List.length ws / 16) initial ws in
  (hex 8 h0 +:+ hex 8 h1 +:+ hex 8 h2 +:+ hex 8 h3 +:+ hex 8 h4)%string.

End Hashlib.

(** * The program *)

Import Re.

(** [RE_SKIP_SCHEMES]:
    [^(?:mailto:|tel:|sms:|javascript:|data:|blob:|about:)], IGNORECASE *)
Definition skip_schemes : list string :=
  ["mailto:"; "tel:"; "sms:"; "javascript:"; "data:"; "blob:"; "about:"].

Definition RE_SKIP_SCHEMES : pattern :=
  Pattern flags_I (cat [Bol; alts (map str skip_schemes)]).

(** ** The overlay patterns *)

(** [_AG_QUOTE]: a class of the single and the double quote *)
Definition _AG_QUOTE : regex := Cls false [One squote; One dquote].

Definition not_gt : regex := Cls true [One ">"].          (* [^>] *)
(** The class of the double quote, written twice in the source, and
    its complement *)
Definition dq_class : regex := Cls false [One dquote; One dquote].
Definition not_dq : regex := Cls true [One dquote; One dquote].

(** [<template\s+id=Dtmpl-age-gateD\s*>.*?</template>\s*] with [D] for
    the double quote *)
Definition _AG_RE_TEMPLATE : pattern :=
  Pattern flags_IS
    (cat [str "<template"; plus ws; str "id="; Lit dquote; str "tmpl-age-gate";
          Lit dquote; star ws; str ">"; lazy_star Dot; str "</template>"; star ws]).

(** [<style\b[^>]*\bid=Qage-gate-[^>]*?Q[^>]*>.*?</style>\s*] with [Q]
    for [_AG_QUOTE] *)
Definition _AG_RE_STYLE_ID : pattern :=
  Pattern flags_IS
    (cat [str "<style"; WordB; star not_gt; WordB; str "id="; _AG_QUOTE;
          str "age-gate-"; lazy_star not_gt; _AG_QUOTE; star not_gt; str ">";
          lazy_star Dot; str "</style>"; star ws]).

(** [<link\b[^>]*\bid=Qage-gate-cssQ[^>]*>\s*] *)
Definition _AG_RE_LINK_ID : pattern :=
  Pattern flags_I
    (cat [str "<link"; WordB; star not_gt; WordB; str "id="; _AG_QUOTE;
          str "age-gate-css"; _AG_QUOTE; star not_gt; str ">"; star ws]).

(** [<script\b[^>]*\bid=Qage-gate-[^>]*?Q[^>]*>.*?</script>\s*] *)
Definition _AG_RE_SCRIPT_ID : pattern :=
  Pattern flags_IS
    (cat [str "<script"; WordB; star not_gt; WordB; str "id="; _AG_QUOTE;
          str "age-gate-"; lazy_star not_gt; _AG_QUOTE; star not_gt; str ">";
          lazy_star Dot; str "</script>"; star ws]).

(** [<script\b[^>]*\bsrc=D[^D]*wp-content/plugins/age-gate/[^D]*D[^>]*>.*?</script>\s*]
    with [D] for the double quote *)
Definition _AG_RE_ANY_SCRIPT_ASSET : pattern :=
  Pattern flags_IS
    (cat [str "<script"; WordB; star not_gt; WordB; str "src="; dq_class;
          star not_dq; str "wp-content/plugins/age-gate/"; star not_dq; dq_class;
          star not_gt; str ">"; lazy_star Dot; str "</script>"; star ws]).

(** [<link\b[^>]*\bhref=D[^D]*wp-content/plugins/age-gate/[^D]*D[^>]*>\s*] *)
Definition _AG_RE_ANY_LINK_ASSET : pattern :=
  Pattern flags_I
    (cat [str "<link"; WordB; star not_gt; WordB; str "href="; dq_class;
          star not_dq; str "wp-content/plugins/age-gate/"; star not_dq; dq_class;
          star not_gt; str ">"; star ws]).

(** [\s*\.age-gate-submit-no\s*,\s*\.age-gate-submit-yes\s*\{.*?\}\s*] *)
Definition _AG_RE_CUSTOM_CSS_BLOCK : pattern :=
  Pattern flags_IS
    (cat [star ws; str ".age-gate-submit-no"; star ws; str ","; star ws;
          str ".age-gate-submit-yes"; star ws; str "{"; lazy_star Dot; str "}";
          star ws]).

(** [\n{4,}] *)
Definition blank_run_re : pattern :=
  Pattern no_flags (Rep (Lit newline) 4 None true).

Definition strip_age_gate_html (html : string) : string :=
  let out := html in
  let out := sub_text _AG_RE_TEMPLATE "" out in
  let out := sub_text _AG_RE_STYLE_ID "" out in
  let out := sub_text _AG_RE_LINK_ID "" out in
  let out := sub_text _AG_RE_SCRIPT_ID "" out in
  let out := sub_text _AG_RE_ANY_SCRIPT_ASSET "" out in
  let out := sub_text _AG_RE_ANY_LINK_ASSET "" out in
  let out := sub_text _AG_RE_CUSTOM_CSS_BLOCK NL out in
  let out := sub_text blank_run_re (NL +:+ NL +:+ NL) out in
  out.

Definition _norm_mime (m : string) : string :=
  Str.lower (Str.strip (default "" (head (Str.split1 ";" m)))).

Definition _sha1 (s : string) : string := Hashlib.sha1_hexdigest s.

Record CdxRecord := Cdx {
  timestamp : string;
  original : string;
  mimetype : string;
  statuscode : string
}.

(** [^/web/\d+(?:[a-z_]+)?/(https?://.+)$], IGNORECASE *)
Definition wayback_path_re : pattern :=
  Pattern flags_I
    (cat [Bol; str "/web/"; plus (Cls false [Digit]);
          opt (plus (Cls false [Range "a" "z"; One "_"])); str "/";
          Grp 1 (cat [str "http"; opt (Lit "s"); str "://"; plus Dot]); Eol]).

(** [(?i)\bsrcset\s*=\s*(Q)(.*?)(\1)], DOTALL, with [Q] for the class of
    the double and the single quote *)
Definition srcset_re : pattern :=
  Pattern flags_IS
    (cat [WordB; str "srcset"; star ws; str "="; star ws;
          Grp 1 (Cls false [One dquote; One squote]); Grp 2 (lazy_star Dot);
          Grp 3 (Bref 1)]).

Definition attrs : list string :=
  ["href"; "src"; "poster"; "action"; "data-src"; "data-href"; "data-url"; "content"].

(** [(?i)\b(href|src|...|content)\s*=\s*(Q)(.*?)(\2)], DOTALL *)
Definition attr_re : pattern :=
  Pattern flags_IS
    (cat [WordB; Grp 1 (alts (map str attrs)); star ws; str "="; star ws;
          Grp 2 (Cls false [One dquote; One squote]); Grp 3 (lazy_star Dot);
          Grp 4 (Bref 2)]).

(** [(?i)url\(\s*(?P<q>Q?)(?P<u>N+)(?P=q)\s*\)] with [N] for the class of
    all but the two quotes and the closing parenthesis; [q] is group 1
    and [u] is group 2 *)
Definition url_re : pattern :=
  Pattern flags_I
    (cat [str "url("; star ws; Grp 1 (opt (Cls false [One dquote; One squote]));
          Grp 2 (plus (Cls true [One dquote; One squote; One ")"]));
          Bref 1; star ws; str ")"]).

(** [(?i)@import\s+(?:url\()?\s*(?P<q>Q)(?P<u>.*?)(?P=q)\s*\)?\s*;],
    DOTALL *)
Definition imp_re : pattern :=
  Pattern flags_IS
    (cat [str "@import"; plus ws; opt (str "url("); star ws;
          Grp 1 (Cls false [One dquote; One squote]); Grp 2 (lazy_star Dot);
          Bref 1; star ws; opt (Lit ")"); star ws; str ";"]).

(** [/{2,}] *)
Definition slashes_re : pattern := Pattern no_flags (Rep (Lit "/") 2 None true).

(** [\.[a-z0-9]{1,8}$], IGNORECASE *)
Definition ext_re : pattern :=
  Pattern flags_I
    (cat [Lit "."; Rep (Cls false [Range "a" "z"; Range "0" "9"]) 1 (Some 8) true; Eol]).

Definition maybe_roots : list string :=
  ["wp-content/"; "wp-includes/"; "wp-json/"; "cdn-cgi/"].

Definition wayback_hosts : gset string :=
  {[ "web.archive.org"; "www.web.archive.org" ]}.

Section Program.

(** What [urlsplit] leaves to [ipaddress], and [os.getcwd()]. *)
Variable bracketed_netloc_ok : string -> bool.
Variable cwd : string.

Local Abbreviation urlsplit := (Urllib.urlsplit bracketed_netloc_ok).

Definition is_age_gate_resource (original_url : string) : bool :=
  try_except
    (u ← urlsplit original_url;
     let path := Str.lower (Urllib.path u) in
     Ok (Str.contains path "/wp-content/plugins/age-gate/"
         || Str.contains path "/wp-json/age-gate/"))
    false.

Definition _posix_relpath (from_dir to_dir : string) : result string :=
  rel ← Posixpath.relpath cwd to_dir from_dir;
  if String.eqb rel "." then Ok ""
  else Ok (Str.rstrip_char "/" rel +:+ "/").

Definition _extract_original_from_wayback (url : string) : option string :=
  match urlsplit url with
  | Raise _ => None
  | Ok u =>
      if bool_decide (Str.lower (Urllib.netloc u) ∈ wayback_hosts) then
        match match_ wayback_path_re (Urllib.path u) with
        | None => None
        | Some q => Some (group 1 q)
        end
      else None
  end.

(** The text that [_rewrite_one_url_value] rebuilds from an absolute URL
    in the domain scope *)
Definition rebuild (rel_prefix : string) (u : Urllib.SplitResult) : string :=
  let path := Str.or_else (Urllib.path u) "/" in
  let path := if Str.startswith path "/" then Str.drop 1 path else path in
  let rebuilt := rel_prefix +:+ path in
  let rebuilt :=
    if Str.is_empty (Urllib.query u) then rebuilt
    else rebuilt +:+ "?" +:+ Urllib.query u in
  let rebuilt :=
    if Str.is_empty (Urllib.fragment u) then rebuilt
    else rebuilt +:+ "#" +:+ Urllib.fragment u in
  rebuilt.

(** The branch for absolute URLs of [_rewrite_one_url_value] *)
Definition rewrite_absolute (value v : string) (domain_set : gset string)
    (rel_prefix : string) : string :=
  match urlsplit v with
  | Raise _ => value
  | Ok u =>
      let host := Str.lower (Urllib.netloc u) in
      if bool_decide (host ∈ domain_set) then rebuild rel_prefix u else value
  end.

Definition _rewrite_one_url_value (value : string) (domain_set : gset string)
    (rel_prefix : string) : string :=
  let v := Str.strip value in
  if Str.is_empty v || Str.startswith v "#" then value
  else if bool_decide (is_Some (match_ RE_SKIP_SCHEMES v)) then value
  else
    (* Wayback wrapper -> original *)
    let v :=
      match _extract_original_from_wayback v with
      | Some embedded => if Str.is_empty embedded then v else embedded
      | None => v
      end in
    (* Protocol-relative *)
    let v := if Str.startswith v "//" then "https:" +:+ v else v in
    (* Absolute URLs *)
    if Str.startswith v "http://" || Str.startswith v "https://" then
      rewrite_absolute value v domain_set rel_prefix
    (* Root-relative *)
    else if Str.startswith v "/" then rel_prefix +:+ Str.lstrip_char "/" v
    else if existsb (Str.startswith v) maybe_roots then rel_prefix +:+ v
    else value.

(** One candidate of a [srcset]: the body of the loop of [repl_srcset];
    [None] is [continue]. *)
Definition srcset_candidate (domain_set : gset string) (rel_prefix : string)
    (p : string) : option string :=
  if Str.is_empty p then None
  else match Str.split_ws p with
       | [] => None
       | url :: toks =>
           let rest := Str.join " " toks in
           let new_url := _rewrite_one_url_value url domain_set rel_prefix in
           Some (Str.strip (new_url +:+ (if Str.is_empty rest then "" else " " +:+ rest)))
       end.

Definition repl_srcset (domain_set : gset string) (rel_prefix : string)
    (quote raw : string) : string :=
  let parts := map Str.strip (Str.split "," raw) in
  let out_parts := omap (srcset_candidate domain_set rel_prefix) parts in
  "srcset=" +:+ quote +:+ Str.join ", " out_parts +:+ quote.

Definition repl_attr (domain_set : gset string) (rel_prefix : string)
    (name quote val : string) : string :=
  let new_val := _rewrite_one_url_value val domain_set rel_prefix in
  name +:+ "=" +:+ quote +:+ new_val +:+ quote.

Definition repl_url (domain_set : gset string) (rel_prefix : string)
    (u q : string) : string :=
  let new_u := _rewrite_one_url_value u domain_set rel_prefix in
  "url(" +:+ q +:+ new_u +:+ q +:+ ")".

Definition repl_imp (domain_set : gset string) (rel_prefix : string)
    (q u : string) : string :=
  let new_u := _rewrite_one_url_value u domain_set rel_prefix in
  "@import " +:+ q +:+ new_u +:+ q +:+ ";".

(** [rewrite_css_urls_in_text] after [rel_prefix] is computed *)
Definition css_pass (domain_set : gset string) (rel_prefix : string)
    (css_text : string) : string :=
  let css_text :=
    sub url_re (fun _ m => repl_url domain_set rel_prefix (group 2 m) (group 1 m))
        css_text in
  let css_text :=
    sub imp_re (fun _ m => repl_imp domain_set rel_prefix (group 1 m) (group 2 m))
        css_text in
  css_text.

Definition rewrite_css_urls_in_text (css_text page_dir site_root : string)
    (domain_set : gset string) : result string :=
  rel_prefix ← _posix_relpath page_dir site_root;
  Ok (css_pass domain_set rel_prefix css_text).

(** [rewrite_html] after [rel_prefix] is computed, up to the call of
    [rewrite_css_urls_in_text] *)
Definition html_pass (domain_set : gset string) (rel_prefix : string)
    (html : string) : string :=
  let html :=
    sub srcset_re
        (fun _ m => repl_srcset domain_set rel_prefix (group 1 m) (group 2 m)) html in
  let html :=
    sub attr_re
        (fun _ m => repl_attr domain_set rel_prefix (group 1 m) (group 2 m) (group 3 m))
        html in
  html.

Definition rewrite_html (html page_dir site_root : string)
    (domain_set : gset string) : result string :=
  rel_prefix ← _posix_relpath page_dir site_root;
  let html := html_pass domain_set rel_prefix html in
  rewrite_css_urls_in_text html page_dir site_root domain_set.

(** The extension of a path that ends in a slash, from
    [_local_path_for_original] *)
Definition index_ext (mime : string) : string :=
  if Str.startswith mime "image/" then "." +:+ nth 1 (Str.split1 "/" mime) ""
  else if String.eqb mime "text/css" then ".css"
  else if Str.endswith mime "javascript" then ".js"
  else if Str.contains mime "json" then ".json"
  else if Str.endswith mime "xml" then ".xml"
  else ".bin".

(** The path that [_local_path_for_original] works on: unquoted, with a
    leading slash, with runs of slashes collapsed *)
Definition normal_path (u : Urllib.SplitResult) : result string :=
  path ← Urllib.unquote (Str.or_else (Urllib.path u) "/");
  let path := if Str.startswith path "/" then path else "/" +:+ path in
  Ok (sub_text slashes_re "/" path).

Definition has_ext (path : string) : bool :=
  bool_decide (is_Some (search ext_re path)).

Definition _local_path_for_original (original_url mimetype : string) : result string :=
  u ← urlsplit original_url;
  path ← normal_path u;
  let mime := _norm_mime mimetype in
  if String.eqb mime "text/html" && (Str.endswith path "/" || negb (has_ext path)) then
    let path := if Str.endswith path "/" then path else path +:+ "/" in
    Ok (Str.lstrip_char "/" path +:+ "index.html")
  else if Str.endswith path "/" then
    Ok (Str.lstrip_char "/" path +:+ "index" +:+ index_ext mime)
  else Ok (Str.lstrip_char "/" path).

Definition _ext_for_mime (mimetype : string) : string :=
  let m := _norm_mime mimetype in
  if Str.is_empty m then ".bin"
  else if String.eqb m "text/plain" then ".txt"
  else if String.eqb m "text/css" then ".css"
  else if Str.endswith m "javascript"
          || bool_decide (m ∈ ({[ "application/javascript"; "text/javascript";
                                  "application/x-javascript" ]} : gset string))
  then ".js"
  else if Str.contains m "json" then ".json"
  else if Str.endswith m "xml" || Str.contains m "xml" then ".xml"
  else if Str.startswith m "image/" then "." +:+ nth 1 (Str.split1 "/" m) ""
  else if Str.startswith m "font/" then "." +:+ nth 1 (Str.split1 "/" m) ""
  else ".bin".

(** ** [main]: the Selection Set *)

Definition chosen_t : Type := list (CdxRecord * string).

(** Dedupe by local path: one step of the loop over [records], on the
    state [(chosen, seen_paths)] *)
Definition dedupe_step (st : chosen_t * gset string) (r : CdxRecord)
    : result (chosen_t * gset string) :=
  let '(chosen, seen_paths) := st in
  lp ← _local_path_for_original (original r) (mimetype r);
  if bool_decide (lp ∈ seen_paths) then Ok st
  else Ok ((chosen ++ [(r, lp)])%list, {[ lp ]} ∪ seen_paths).

Fixpoint dedupe_loop (st : chosen_t * gset string) (records : list CdxRecord)
    : result (chosen_t * gset string) :=
  match records with
  | [] => Ok st
  | r :: records' => st' ← dedupe_step st r; dedupe_loop st' records'
  end.

Definition dedupe (records : list CdxRecord) : result chosen_t :=
  st ← dedupe_loop ([], ∅) records; Ok (fst st).

(** ["/".join(parts[:j])] for [j] in [range(1, len(parts))] *)
Definition prefixes_of (lp : string) : list string :=
  let parts := Str.split "/" lp in
  map (fun j => Str.join "/" (take j parts)) (seq 1 (List.length parts - 1)).

Definition dir_prefixes_of (chosen : chosen_t) : gset string :=
  list_to_set (flat_map (fun c => prefixes_of (snd c)) chosen).

(** One step of the loop that builds [fixed], on the state
    [(fixed, taken)] *)
Definition fix_step (dir_prefixes : gset string) (st : chosen_t * gset string)
    (c : CdxRecord * string) : chosen_t * gset string :=
  let '(fixed, taken) := st in
  let '(rec, lp) := c in
  if bool_decide (lp ∈ dir_prefixes) then
    let ext := _ext_for_mime (mimetype rec) in
    let new_lp := lp +:+ ext in
    let new_lp :=
      if bool_decide (new_lp ∈ taken)
      then lp +:+ "__" +:+ Str.take 8 (_sha1 (original rec)) +:+ ext
      else new_lp in
    let taken := {[ new_lp ]} ∪ (taken ∖ {[ lp ]}) in
    ((fixed ++ [(rec, new_lp)])%list, taken)
  else ((fixed ++ [(rec, lp)])%list, taken).

(** The conflict-resolution pass *)
Definition resolve_conflicts (chosen : chosen_t) : chosen_t :=
  let dir_prefixes := dir_prefixes_of chosen in
  if bool_decide (dir_prefixes = ∅) then chosen
  else
    let taken : gset string := list_to_set (map snd chosen) in
    fst (foldl (fix_step dir_prefixes) ([], taken) chosen).

(** The records [main] downloads, with their local paths *)
Definition selection_set (max : nat) (include_age_gate_resources : bool)
    (records : list CdxRecord) : result chosen_t :=
  let records := if Nat.ltb 0 max then take max records else records in
  let records :=
    if include_age_gate_resources then records
    else filter (fun r => is_age_gate_resource (original r) = false) records in
  chosen ← dedupe records;
  Ok (resolve_conflicts chosen).

End Program.

(** * Properties *)

Import Urllib.

(** A netloc check that accepts every bracketed netloc, for the closed
    examples; none of their URLs has a bracket. *)
Definition accept_all : string -> bool := fun _ => true.

(** ** C1: path uniqueness after the conflict-resolution pass *)

Definition paths (chosen : chosen_t) : list string := map snd chosen.

(** [p] is a directory of [q]: a proper prefix of the segments of [q] *)
Definition is_directory_of (p q : string) : Prop := p ∈ prefixes_of q.

Definition conflict_free (chosen : chosen_t) : Prop :=
  NoDup (paths chosen)
  ∧ ∀ p q, p ∈ paths chosen → q ∈ paths chosen → ¬ is_directory_of p q.

Definition octet : string := "application/octet-stream".

(** ** Letter case *)

(** [g] is a prefix of [s] up to letter case *)
Fixpoint prefix_ci (g s : string) {struct g} : bool :=
  match g, s with
  | "", _ => true
  | String a g', String b s' =>
      Ascii.eqb (Str.lower_char a) (Str.lower_char b) && prefix_ci g' s'
  | String _ _, "" => false
  end.

(** ** C6: values that pass through *)

(** The value has one of the skip schemes, in any letter case. *)
Definition has_skip_scheme (value : string) : bool :=
  existsb (fun g => Str.startswith (Str.lower value) g) skip_schemes.

(** The value starts with [http://] or [https://]. *)
Definition is_absolute (v : string) : bool :=
  Str.startswith v "http://" || Str.startswith v "https://".

(** ** Runs of one character *)

(** [c] repeated [n] times *)
Fixpoint repeat_char (c : ascii) (n : nat) : string :=
  match n with
  | 0 => ""
  | S n' => String c (repeat_char c n')
  end.

(** The number of [c] at the start of [s] *)
Fixpoint run_length (c : ascii) (s : string) : nat :=
  match s with
  | "" => 0
  | String t s' => if Ascii.eqb c t then S (run_length c s') else 0
  end.

(** [s] with every run of [c] cut down to at most [n] of them; [seen]
    counts the [c] that were kept just before [s]. *)
Fixpoint cap_runs (c : ascii) (n seen : nat) (s : string) : string :=
  match s with
  | "" => ""
  | String t s' =>
      if Ascii.eqb c t then
        if Nat.ltb seen n then String t (cap_runs c n (S seen) s')
        else cap_runs c n seen s'
      else String t (cap_runs c n 0 s')
  end.

(** [c{n+1,}], the pattern of a run of more than [n] *)
Definition long_run_re (c : ascii) (n : nat) : pattern :=
  Pattern no_flags (Rep (Lit c) (S n) None true).

(** ** C8: the overlay signatures *)

Definition overlay_patterns : list pattern :=
  [_AG_RE_TEMPLATE; _AG_RE_STYLE_ID; _AG_RE_LINK_ID; _AG_RE_SCRIPT_ID;
   _AG_RE_ANY_SCRIPT_ASSET; _AG_RE_ANY_LINK_ASSET; _AG_RE_CUSTOM_CSS_BLOCK].

(** One of the overlay patterns matches somewhere in [html]. *)
Definition has_overlay_signature (html : string) : bool :=
  existsb (fun pt => bool_decide (is_Some (search pt html))) overlay_patterns.

(** Every run of newlines cut down to at most three of them, which is
    two blank lines *)
Definition collapse_blank_lines (html : string) : string := cap_runs newline 3 0 html.

(** ** C4: pretty URLs *)



(** ** C7: the candidates of a [srcset] *)


Section Render.

Variable bracketed_netloc_ok : string -> bool.


End Render.

(** ** Relative prefixes *)

(** [../] repeated [d] times: the relative prefix of a page that lies
    [d] directories below the output root *)
Fixpoint up (d : nat) : string :=
  match d with
  | 0 => ""
  | S d' => "../" +:+ up d'
  end.

(** ** C2: resolving a relative reference *)



(** * More of the program, and of what is proved about it *)

(** ** The conflict-resolution pass *)

(** What the pass makes of one chosen record *)
Definition renamed (dir_prefixes : gset string) (c c' : CdxRecord * string) : Prop :=
  fst c' = fst c
  ∧ if bool_decide (snd c ∈ dir_prefixes) then
      snd c' = snd c +:+ _ext_for_mime (mimetype (fst c))
      ∨ snd c' = snd c +:+ "__" +:+ Str.take 8 (_sha1 (original (fst c)))
                 +:+ _ext_for_mime (mimetype (fst c))
    else snd c' = snd c.


(** ** Runs of characters of one kind *)

(** The number of characters at the start of [s] that satisfy [p] *)
Fixpoint span (p : ascii -> bool) (s : string) : nat :=
  match s with
  | "" => 0
  | String t s' => if p t then S (span p s') else 0
  end.

(** The character before the position [n] of [s], when [b] is the one
    before [s] *)
Definition before_at (b : option ascii) (s : string) (n : nat) : option ascii :=
  match n with
  | 0 => b
  | S n' => String.get n' s
  end.

(** ** [main]: the archive URL of a record *)

Definition WAYBACK_BASE : string := "https://web.archive.org/web".

(** [archived_url] in the download loop *)
Definition archived_url (rec : CdxRecord) : string :=
  WAYBACK_BASE +:+ "/" +:+ timestamp rec +:+ "id_/" +:+ original rec.

(** ** Plain URLs *)

(** A character that is no white space and starts neither a query nor a
    fragment *)
Definition plain_char (c : ascii) : bool :=
  negb (Str.isspace c) && negb (Ascii.eqb c "?") && negb (Ascii.eqb c "#").

(** A character of a host: a plain character that does not end the
    netloc and is no bracket *)
Definition host_char (c : ascii) : bool :=
  plain_char c && negb (Ascii.eqb c "/") && negb (Ascii.eqb c "[")
  && negb (Ascii.eqb c "]").

(** No white space *)
Definition visible_char (c : ascii) : bool := negb (Str.isspace c).

(** A character of a query: no white space and no [#] *)
Definition query_char (c : ascii) : bool :=
  negb (Str.isspace c) && negb (Ascii.eqb c "#").

(** The part of a URL that [mark] starts, when there is one *)
Definition marked (mark : ascii) (x : string) : string :=
  if Str.is_empty x then "" else String mark x.

(** ** More of the Python library *)

Module StrMore.

(** The line boundaries of [str.splitlines] below U+0100: LF, VT, FF,
    CR, FS, GS, RS and NEL *)
Definition is_linebreak (c : ascii) : bool :=
  let n := Str.ord c in
  Str.between 10 13 n || Str.between 28 30 n || Nat.eqb n 133.

(** [s.splitlines()]: CR LF is one boundary, and a boundary at the end
    starts no line. *)
Fixpoint splitlines (s : string) : list string :=
  match s with
  | "" => []
  | String c s' =>
      if is_linebreak c then
        match s' with
        | String d s'' =>
            if Ascii.eqb c cr && Ascii.eqb d newline then "" :: splitlines s''
            else "" :: splitlines s'
        | "" => [""]
        end
      else match splitlines s' with
           | [] => [String c ""]
           | l :: ls => String c l :: ls
           end
  end.

(** [s.strip(ch)] for one character *)
Definition strip_char (ch : ascii) (s : string) : string :=
  Str.rstrip_char ch (Str.lstrip_char ch s).

End StrMore.

Module UrllibQuote.

Local Open Scope Z_scope.

(** [_ALWAYS_SAFE]: ASCII letters, digits and [_.-~] *)
Definition always_safe (b : Z) : bool :=
  ((65 <=? b) && (b <=? 90)) || ((97 <=? b) && (b <=? 122))
  || ((48 <=? b) && (b <=? 57))
  || (b =? 95) || (b =? 46) || (b =? 45) || (b =? 126).

(** One digit of [%02X] *)
Definition hex_upper (x : Z) : ascii :=
  Str.chr (Z.to_nat (if x <? 10 then 48 + x else 55 + x)).

(** A byte as [quote_plus] writes it, with nothing marked safe *)
Definition quote_byte (b : Z) : string :=
  if always_safe b then String (Str.chr (Z.to_nat b)) ""
  else if b =? 32 then "+"%string
  else String "%" (String (hex_upper (b / 16)) (String (hex_upper (b mod 16)) "")).

(** [quote_plus(s)] with the default [safe=''], on the UTF-8 encoding of
    [s] *)
Definition quote_plus (s : string) : string :=
  foldr String.append ""%string (map quote_byte (Hashlib.utf8 s)).

(** [urlencode(query)] for a list of pairs of [str] *)
Definition urlencode (query : list (string * string)) : string :=
  Str.join "&" (map (fun kv => quote_plus (fst kv) +:+ "=" +:+ quote_plus (snd kv)) query).

End UrllibQuote.

(** ** [fetch_cdx] *)

Definition CDX_ENDPOINT : string := "https://web.archive.org/cdx/search/cdx".

(** The request of [fetch_cdx] *)
Definition cdx_query_url (domain : string) : string :=
  let params :=
    [("url", domain +:+ "/*"); ("output", "txt");
     ("fl", "timestamp,original,mimetype,statuscode");
     ("filter", "statuscode:200"); ("collapse", "urlkey"); ("sort", "reverse")] in
  CDX_ENDPOINT +:+ "?" +:+ UrllibQuote.urlencode params.

(** One line of the body: the body of the loop of [fetch_cdx]; [None]
    is [continue]. *)
Definition cdx_line (line : string) : option CdxRecord :=
  let line := Str.strip line in
  if Str.is_empty line then None
  else match Str.split_ws line with
       | ts :: original :: mimetype :: status :: _ =>
           Some (Cdx ts original mimetype status)
       | _ => None
       end.

(** The records that [fetch_cdx] reads from the decoded body *)
Definition cdx_records (body : string) : list CdxRecord :=
  omap cdx_line (StrMore.splitlines body).

Section FetchCdx.

(** The request: [urlopen], [read] and [decode]; [None] when one of
    them raises. *)
Variable urlopen_read : string -> option string.

Definition fetch_cdx (domain : string) : option (list CdxRecord) :=
  body ← urlopen_read (cdx_query_url domain);
  Some (cdx_records body).

End FetchCdx.

(** A line of a CDX listing with the four fields [fetch_cdx] asks for *)
Definition cdx_line_text (r : CdxRecord) : string :=
  timestamp r +:+ " " +:+ original r +:+ " " +:+ mimetype r +:+ " " +:+ statuscode r.

(** A field of a record: not empty, and without white space *)
Definition is_field (f : string) : Prop := f ≠ "" ∧ Urllib.all_chars visible_char f = true.

Definition has_fields (r : CdxRecord) : Prop :=
  is_field (timestamp r) ∧ is_field (original r) ∧ is_field (mimetype r)
  ∧ is_field (statuscode r).

(** A character that [quote_plus] writes: a letter, a digit, one of
    [_.-~], a plus sign or a percent sign *)
Definition quoted_char (c : ascii) : bool :=
  UrllibQuote.always_safe (Z.of_nat (Str.ord c)) || Ascii.eqb c "+" || Ascii.eqb c "%".

(** A digit of [hexdigest]: [0-9a-f] *)
Definition lower_hex_char (c : ascii) : bool :=
  Str.between 48 57 (Str.ord c) || Str.between 97 102 (Str.ord c).

(** ** [_detect_charset_from_headers] *)

(** [charset=(N+)], IGNORECASE, with [N] for the class of all but the
    semicolon and white space *)
Definition charset_re : pattern :=
  Pattern flags_I (cat [str "charset="; Grp 1 (plus (Cls true [One ";"; Space]))]).

Definition _detect_charset_from_headers (content_type : string) : option string :=
  if Str.is_empty content_type then None
  else match search charset_re content_type with
       | None => None
       | Some m =>
           let charset :=
             StrMore.strip_char squote
               (StrMore.strip_char dquote (Str.strip (group 1 m))) in
           if Str.is_empty charset then None else Some charset
       end.

(** A character of a charset name: no white space and no semicolon *)
Definition charset_char (c : ascii) : bool :=
  negb (Str.isspace c) && negb (Ascii.eqb c ";").

(** ** [main]: the download of one record, with its retries *)

(** What a call of [fetch_wayback] does: it returns, or it raises
    [HTTPError] with a code, another [URLError], or something else. *)
Inductive outcome (response : Type) :=
| Returned (r : response)
| HTTPError (code : Z)
| URLError
| OtherException.
Arguments Returned {response} r.
Arguments HTTPError {response} code.
Arguments URLError {response}.
Arguments OtherException {response}.

(** What the loop does, in order *)
Inductive event :=
| Fetch
| Sleep (seconds : nat).

(** [e.code in {429, 500, 502, 503, 504}] *)
Definition retryable (code : Z) : bool :=
  existsb (Z.eqb code) [429; 500; 502; 503; 504]%Z.

Section Retry.

Variable response : Type.

(** The outcome of the call of [fetch_wayback] at each attempt *)
Variable fetch_wayback : nat -> outcome response.

(** The [while True] loop, from the state [attempt]; it gives the
    response or the exception that leaves the loop, and what it did.
    [fuel] bounds the iterations. *)
Fixpoint fetch_loop (fuel attempt : nat) : option (outcome response * list event) :=
  match fuel with
  | 0 => None
  | S fuel' =>
      let attempt := S attempt in
      match fetch_wayback attempt with
      | Returned r => Some (Returned r, [Fetch])
      | HTTPError code =>
          if Nat.ltb attempt 4 && retryable code then
            match fetch_loop fuel' attempt with
            | Some (o, t) => Some (o, Fetch :: Sleep attempt :: t)
            | None => None
            end
          else Some (HTTPError code, [Fetch])
      | URLError =>
          if Nat.ltb attempt 4 then
            match fetch_loop fuel' attempt with
            | Some (o, t) => Some (o, Fetch :: Sleep attempt :: t)
            | None => None
            end
          else Some (URLError, [Fetch])
      | OtherException => Some (OtherException, [Fetch])
      end
  end.

End Retry.

(** An exception after which the loop tries again, when tries are left *)
Definition tries_again {response : Type} (o : outcome response) : bool :=
  match o with
  | HTTPError code => retryable code
  | URLError => true
  | _ => false
  end.

(** [n] fetches from attempt [k + 1] on, with a sleep of as many seconds
    as the attempt that failed between them *)
Fixpoint attempts (k n : nat) : list event :=
  match n with
  | 0 => []
  | 1 => [Fetch]
  | S n' => Fetch :: Sleep (S k) :: attempts (S k) n'
  end.

(** ** [fetch_wayback]: the headers of a response *)

(** [{k.lower(): v for k, v in items}]: a later header takes the place
    of an earlier one with the same lower-case name. *)
Definition lower_headers (items : list (string * string)) : gmap string string :=
  foldl (fun headers kv => <[Str.lower (fst kv) := snd kv]> headers) ∅ items.

(** [headers.get(name, "")] *)
Definition get_header (headers : gmap string string) (name : string) : string :=
  default "" (headers !! name).

(** [mime] in the download loop: the content type of the response, and
    the one of the CDX record when the response has none *)
Definition response_mime (headers : gmap string string) (rec : CdxRecord) : string :=
  Str.or_else (_norm_mime (get_header headers "content-type")) (_norm_mime (mimetype rec)).

(** The value of the last header whose name is [name], up to letter
    case *)
Definition last_header (items : list (string * string)) (name : string) : option string :=
  last (omap (fun kv => if String.eqb (Str.lower (fst kv)) name then Some (snd kv) else None)
             items).

(** ** [main]: where a download is stored *)

Section Places.

(** [os.getcwd()] *)
Variable cwd : string.

(** [out_root] and [docs_root], for the value [out] of [--out] *)
Definition out_root (out : string) : string := Posixpath.abspath cwd out.
Definition docs_root (out : string) : string := Posixpath.join (out_root out) "docs".

(** [local_abs] of a record whose local path is [local_rel], and the
    [page_dir] that the rewriters get for it *)
Definition local_abs (out local_rel : string) : string :=
  Posixpath.join (docs_root out) local_rel.
Definition page_dir_of (out local_rel : string) : string :=
  Posixpath.dirname (local_abs out local_rel).

End Places.

(** A path segment that names a file or a directory: not empty, without
    a slash, and neither [.] nor [..] *)
Definition plain_name (s : string) : bool :=
  negb (Str.is_empty s) && negb (Str.has_char "/" s)
  && negb (String.eqb s ".") && negb (String.eqb s "..").

(** A list of plain names: the parts of a path that is normal *)
Definition plain_names (l : list string) : Prop := Forall (fun x => plain_name x = true) l.

(** The root of an absolute path that [normpath] returns: one slash, or
    two *)
Definition root_slashes (sl : string) : Prop := sl = "/" ∨ sl = "//".

(** * Lemmas *)

(** ** Strings *)

#[local] Arguments String.append : simpl nomatch.

Lemma app_empty_r (s : string) : s +:+ "" = s.
Proof. induction s as [|c s IH]; simpl; [done | by rewrite IH]. Qed.

Lemma app_assoc_str (a b c : string) : (a +:+ b) +:+ c = a +:+ (b +:+ c).
Proof. induction a as [|x a IH]; simpl; [done | by rewrite IH]. Qed.

Lemma startswith_app (p r : string) : Str.startswith (p +:+ r) p = true.
Proof.
  induction p as [|a p IH]; simpl; [done |].
  by rewrite Ascii.eqb_refl, IH.
Qed.

Lemma startswith_split (s p : string) :
  Str.startswith s p = true → ∃ r, s = p +:+ r.
Proof.
  revert s. induction p as [|a p IH]; intros s H; simpl in *.
  - by exists s.
  - destruct s as [|b s]; [done |].
    apply andb_true_iff in H as [Hab H].
    apply Ascii.eqb_eq in Hab as ->.
    destruct (IH _ H) as [r ->]. by exists r.
Qed.

Lemma rstrip_by_keeps_head (p : ascii → bool) (c : ascii) (s : string) :
  p c = false → ∃ r, Str.rstrip_by p (String c s) = String c r.
Proof.
  intros Hc. simpl. destruct (Str.rstrip_by p s) as [|d r].
  - rewrite Hc. by exists "".
  - by exists (String d r).
Qed.

Lemma strip_keeps_head (c : ascii) (s : string) :
  Str.isspace c = false → ∃ r, Str.strip (String c s) = String c r.
Proof.
  intros Hc. unfold Str.strip. simpl. rewrite Hc.
  by apply rstrip_by_keeps_head.
Qed.

Lemma isspace_lower_char (c : ascii) :
  Str.isspace (Str.lower_char c) = Str.isspace c.
Proof. by destruct c as [[] [] [] [] [] [] [] []]. Qed.

Lemma lower_app (a b : string) : Str.lower (a +:+ b) = Str.lower a +:+ Str.lower b.
Proof. induction a as [|x a IH]; simpl; [done | by rewrite IH]. Qed.

Lemma lower_char_idem (c : ascii) : Str.lower_char (Str.lower_char c) = Str.lower_char c.
Proof. by destruct c as [[] [] [] [] [] [] [] []]. Qed.

Lemma lower_idem (s : string) : Str.lower (Str.lower s) = Str.lower s.
Proof. induction s as [|c s IH]; simpl; [done | by rewrite lower_char_idem, IH]. Qed.

(** A text of lower-case characters is a prefix of the lower case of
    [s] exactly when it is a prefix of [s] up to letter case. *)
Lemma startswith_lower (g s : string) :
  Str.lower g = g → Str.startswith (Str.lower s) g = prefix_ci g s.
Proof.
  revert s. induction g as [|a g IH]; intros s Hg; simpl; [done |].
  simpl in Hg. injection Hg as Ha Hg.
  destruct s as [|b s]; simpl; [done |].
  by rewrite Ha, IH.
Qed.

Lemma prefix_ci_lstrip (g s : string) :
  g ≠ "" → Str.isspace (default " "%char (head (list_ascii_of_string g))) = false →
  prefix_ci g s = true → Str.lstrip_by Str.isspace s = s.
Proof.
  destruct g as [|a g]; [done |]. intros _ Ha H. simpl in *.
  destruct s as [|b s]; [done |]. simpl.
  apply andb_true_iff in H as [Hab _]. apply Ascii.eqb_eq in Hab.
  assert (Hb : Str.isspace b = false).
  { rewrite <- isspace_lower_char, <- Hab, isspace_lower_char. done. }
  by rewrite Hb.
Qed.

Lemma prefix_ci_rstrip (g s : string) :
  g ≠ "" → Urllib.all_chars (fun c => negb (Str.isspace c)) g = true →
  prefix_ci g s = true → prefix_ci g (Str.rstrip_by Str.isspace s) = true.
Proof.
  revert s. induction g as [|a g IH]; [done |]. intros s _ Hsp H.
  simpl in Hsp. apply andb_true_iff in Hsp as [Ha Hsp].
  destruct s as [|b s]; [done |]. simpl in H.
  apply andb_true_iff in H as [Hab H].
  assert (Hb : Str.isspace b = false).
  { apply Ascii.eqb_eq in Hab.
    rewrite <- isspace_lower_char, <- Hab, isspace_lower_char.
    by apply negb_true_iff. }
  destruct g as [|a' g].
  - destruct (rstrip_by_keeps_head Str.isspace b s Hb) as [r ->].
    simpl. by rewrite Hab.
  - specialize (IH s ltac:(done) Hsp H).
    simpl. destruct (Str.rstrip_by Str.isspace s) as [|d r] eqn:E.
    + simpl in IH. done.
    + simpl. rewrite Hab. simpl in IH. by rewrite IH.
Qed.

Lemma prefix_ci_strip (g s : string) :
  g ≠ "" → Urllib.all_chars (fun c => negb (Str.isspace c)) g = true →
  prefix_ci g s = true → prefix_ci g (Str.strip s) = true.
Proof.
  intros Hg Hsp H. unfold Str.strip.
  rewrite (prefix_ci_lstrip g s); [by apply prefix_ci_rstrip | done | | done].
  destruct g as [|a g]; [done |]. simpl in *.
  apply andb_true_iff in Hsp as [Ha _]. by apply negb_true_iff.
Qed.

(** ** The matcher *)

Lemma flat_map_singleton {A} (l : list A) : flat_map (fun x => [x]) l = l.
Proof. induction l as [|x l IH]; simpl; [done | by rewrite IH]. Qed.

Lemma m_str (fl : flags) (g : string) (p : pos) : m fl (str g) p = consume fl g p.
Proof.
  revert p. induction g as [|c g IH]; intros p; simpl; [done |].
  apply flat_map_ext. intros q. apply IH.
Qed.

Lemma consume_ci (g : string) (b : option ascii) (s : string) (gs : list (nat * string)) :
  if prefix_ci g s
  then ∃ q, consume flags_I g (Pos b s gs) = [q]
  else consume flags_I g (Pos b s gs) = [].
Proof.
  revert b s. induction g as [|a g IH]; intros b s; simpl.
  - by eexists.
  - destruct s as [|t s]; simpl; [done |].
    unfold step, chr_eq. simpl.
    destruct (Ascii.eqb (Str.lower_char a) (Str.lower_char t)); simpl; [|done].
    specialize (IH (Some t) s).
    destruct (prefix_ci g s).
    + destruct IH as [q ->]. by exists q.
    + by rewrite IH.
Qed.

Lemma m_alts (fl : flags) (rs : list regex) (p : pos) :
  rs ≠ [] → m fl (alts rs) p = flat_map (fun r => m fl r p) rs.
Proof.
  destruct rs as [|r rs]; [done |]. intros _.
  simpl. revert r. induction rs as [|r' rs IH]; intros r; simpl.
  - by rewrite app_nil_r.
  - rewrite IH. simpl. by rewrite app_assoc.
Qed.

Lemma m_cat_cons (fl : flags) (r : regex) (rs : list regex) (p : pos) :
  m fl (cat (r :: rs)) p = flat_map (m fl (cat rs)) (m fl r p).
Proof. done. Qed.

Lemma m_cat_one (fl : flags) (r : regex) (p : pos) : m fl (cat [r]) p = m fl r p.
Proof. rewrite m_cat_cons. apply flat_map_singleton. Qed.

Lemma alts_str_ci (l : list string) (b : option ascii) (s : string) :
  flat_map (fun r => m flags_I r (Pos b s [])) (map str l) = []
  ↔ existsb (fun g => prefix_ci g s) l = false.
Proof.
  induction l as [|g l IH]; simpl; [done |].
  rewrite m_str. pose proof (consume_ci g b s []) as H.
  destruct (prefix_ci g s); simpl.
  - destruct H as [q ->]. done.
  - by rewrite H.
Qed.

(** [RE_SKIP_SCHEMES] matches [v] exactly when the lower case of [v]
    starts with one of the schemes. *)
Lemma skip_match_spec (v : string) :
  bool_decide (is_Some (match_ RE_SKIP_SCHEMES v))
  = existsb (fun g => Str.startswith (Str.lower v) g) skip_schemes.
Proof.
  assert (E : existsb (fun g => Str.startswith (Str.lower v) g) skip_schemes
              = existsb (fun g => prefix_ci g v) skip_schemes).
  { unfold skip_schemes. cbn [existsb]. by rewrite !startswith_lower. }
  rewrite E. clear E.
  unfold match_, run, start, RE_SKIP_SCHEMES. cbn [flags_of regex_of].
  rewrite m_cat_cons.
  change (m flags_I Bol (Pos None v [])) with [Pos None v []].
  cbn [flat_map]. rewrite app_nil_r, m_cat_one, m_alts by done.
  pose proof (alts_str_ci skip_schemes None v) as H.
  destruct (existsb (fun g => prefix_ci g v) skip_schemes).
  - destruct (flat_map _ _) as [|q l]; [by specialize (proj1 H eq_refl) | done].
  - by rewrite (proj2 H eq_refl).
Qed.

(** Where the pattern matches nowhere, [sub] returns the text. *)
Lemma sub_loop_no_match (pt : pattern) (repl : pos → pos → string) (fuel : nat)
    (b : option ascii) (s : string) :
  search_at pt b s = None → sub_loop pt repl fuel b s = s.
Proof.
  revert b s. induction fuel as [|fuel IH]; intros b s H; simpl; [done |].
  destruct s as [|c s]; simpl in H.
  - destruct (run pt (Pos b "" [])); done.
  - destruct (run pt (Pos b (String c s) [])); [done |].
    by rewrite IH.
Qed.

Lemma sub_no_match (pt : pattern) (repl : pos → pos → string) (s : string) :
  search pt s = None → sub pt repl s = s.
Proof. apply sub_loop_no_match. Qed.

(** ** [urlsplit] *)

Lemma split_scheme_not_alpha (c : ascii) (s : string) :
  Str.is_ascii_alpha c = false → split_scheme (String c s) = ("", String c s).
Proof.
  intros Hc. unfold split_scheme. simpl.
  destruct (Ascii.eqb c ":"); [done |].
  destruct (Str.split1 ":" s) as [|x [|y [|z l]]]; simpl; try done.
  by rewrite Hc.
Qed.

Lemma lstrip_by_head (p : ascii → bool) (c : ascii) (s : string) :
  p c = false → Str.lstrip_by p (String c s) = String c s.
Proof. intros H. simpl. by rewrite H. Qed.

Lemma remove_char_head (ch c : ascii) (s : string) :
  Ascii.eqb c ch = false →
  Str.remove_char ch (String c s) = String c (Str.remove_char ch s).
Proof. intros H. simpl. by rewrite H. Qed.

Lemma startswith_head_neq (a c : ascii) (s p : string) :
  Ascii.eqb a c = false → Str.startswith (String c s) (String a p) = false.
Proof. intros H. simpl. by rewrite H. Qed.

(** A text whose first character is neither a control character or
    space, nor an ASCII letter, nor a slash has no netloc. *)
Lemma urlsplit_no_netloc (ok : string → bool) (c : ascii) (s : string) :
  c0_or_space c = false → Str.is_ascii_alpha c = false → c ≠ "/"%char →
  ∃ u, urlsplit ok (String c s) = Ok u ∧ netloc u = "".
Proof.
  intros H0 Ha Hs. unfold urlsplit.
  assert (Ht : Ascii.eqb c tab = false).
  { apply Ascii.eqb_neq. by intros ->. }
  assert (Hr : Ascii.eqb c cr = false).
  { apply Ascii.eqb_neq. by intros ->. }
  assert (Hn : Ascii.eqb c newline = false).
  { apply Ascii.eqb_neq. by intros ->. }
  assert (Hsl : Ascii.eqb "/" c = false).
  { apply Ascii.eqb_neq. by intros <-. }
  rewrite lstrip_by_head, !remove_char_head, split_scheme_not_alpha by done.
  rewrite startswith_head_neq by done.
  cbn [mbind result_bind rbind].
  destruct (cut "#" _) as [url fragment]. destruct (cut "?" url) as [url' query].
  by eexists.
Qed.

Lemma urlsplit_empty (ok : string → bool) :
  urlsplit ok "" = Ok (Split "" "" "" "" "").
Proof. done. Qed.

(** A text with a netloc is not empty and does not start with [#]. *)
Lemma netloc_not_fragment (ok : string → bool) (v : string) (u : SplitResult) :
  urlsplit ok v = Ok u → netloc u ≠ "" →
  Str.is_empty v || Str.startswith v "#" = false.
Proof.
  intros Hu Hn. destruct v as [|c v].
  - rewrite urlsplit_empty in Hu. by injection Hu as <-.
  - cbn [Str.is_empty orb Str.startswith].
    destruct (Ascii.eqb "#" c) eqn:E; [|done].
    apply Ascii.eqb_eq in E as <-.
    destruct (urlsplit_no_netloc ok "#" v) as (u' & Hu' & Hn'); [done.. |].
    congruence.
Qed.

(** ** [posixpath] *)

Lemma commonprefix_refl (l : list string) : Posixpath.commonprefix l l = l.
Proof.
  induction l as [|x l IH]; simpl; [done |].
  by rewrite String.eqb_refl, IH.
Qed.

(** From a directory to itself the relative prefix is empty. *)
Lemma posix_relpath_same (cwd d : string) : d ≠ "" → _posix_relpath cwd d d = Ok "".
Proof.
  intros Hd. unfold _posix_relpath, Posixpath.relpath.
  destruct d as [|c d]; [done |]. cbn [Str.is_empty].
  rewrite commonprefix_refl, Nat.sub_diag, drop_all. done.
Qed.

(** ** The URL rewriter *)

(** A value that starts with [http://] or [https://] is neither empty,
    nor a fragment, nor a skip scheme, nor protocol-relative. *)
Lemma absolute_first_char (v : string) :
  Str.startswith v "http://" || Str.startswith v "https://" = true →
  ∃ r, v = String "h" r.
Proof.
  intros H. apply orb_true_iff in H as [H|H];
    apply startswith_split in H as [r ->]; by eexists.
Qed.

Lemma prefix_ci_take1 (g : string) (c : ascii) (r : string) :
  prefix_ci g (String c r) = true → prefix_ci (Str.take 1 g) (String c "") = true.
Proof.
  destruct g as [|a g]; [done |]. simpl.
  intros H. apply andb_true_iff in H as [-> _]. by destruct g.
Qed.

(** No skip scheme matches a value whose first character starts none of
    them. *)
Lemma skip_match_first_char (c : ascii) (r : string) :
  existsb (fun g => prefix_ci (Str.take 1 g) (String c "")) skip_schemes = false →
  bool_decide (is_Some (match_ RE_SKIP_SCHEMES (String c r))) = false.
Proof.
  intros H. rewrite skip_match_spec.
  apply not_true_is_false. intros E.
  apply existsb_exists in E as (g & Hg & E).
  rewrite startswith_lower in E.
  - apply prefix_ci_take1 in E.
    assert (existsb (fun g => prefix_ci (Str.take 1 g) (String c "")) skip_schemes = true).
    { apply existsb_exists. by exists g. }
    congruence.
  - unfold skip_schemes in Hg. simpl in Hg.
    repeat (destruct Hg as [<-|Hg]; [done |]). done.
Qed.

(** The extraction of an embedded URL, in terms of [urlsplit] *)
Lemma extract_spec (ok : string → bool) (v : string) (u : SplitResult) :
  urlsplit ok v = Ok u →
  _extract_original_from_wayback ok v =
    if bool_decide (Str.lower (netloc u) ∈ wayback_hosts)
    then match match_ wayback_path_re (path u) with
         | None => None
         | Some q => Some (group 1 q)
         end
    else None.
Proof. intros H. unfold _extract_original_from_wayback. by rewrite H. Qed.

(** A value with a skip scheme keeps it when the white space around it
    is removed; so does a value that is empty or starts with [#]. *)
Lemma has_skip_scheme_strip (value : string) :
  has_skip_scheme value = true → has_skip_scheme (Str.strip value) = true.
Proof.
  unfold has_skip_scheme. intros H.
  apply existsb_exists in H as (g & Hg & H). apply existsb_exists.
  exists g. split; [done |].
  unfold skip_schemes in Hg. simpl in Hg.
  repeat (destruct Hg as [<-|Hg];
          [rewrite startswith_lower in * by done; by apply prefix_ci_strip |]).
  done.
Qed.

Lemma fragment_strip (value : string) :
  Str.startswith value "#" = true → Str.startswith (Str.strip value) "#" = true.
Proof.
  intros H. apply startswith_split in H as [r ->].
  destruct (strip_keeps_head "#" r eq_refl) as [r' E].
  change ("#" +:+ r) with (String "#" r). by rewrite E.
Qed.

(** ** Runs of one character and [sub] *)

Lemma head_app_nil {A} (l1 l2 : list A) :
  head (l1 ++ l2) = match head l1 with Some x => Some x | None => head l2 end.
Proof. by destruct l1. Qed.

Lemma length_drop_run (c : ascii) (s : string) :
  String.length (Str.drop (run_length c s) s) + run_length c s = String.length s.
Proof.
  induction s as [|t s IH]; simpl; [done |].
  destruct (Ascii.eqb c t); simpl; lia.
Qed.

Lemma rep_greedy_unbounded (body : pos → list pos) (lo fuel k : nat) (p : pos) :
  rep body lo None true (S fuel) k p
  = (flat_map (fun q => if shorter q p then rep body lo None true fuel (S k) q else [])
              (body p)
     ++ (if Nat.leb lo k then [p] else []))%list.
Proof. done. Qed.

Lemma m_lit (c t : ascii) (b : option ascii) (s : string) (gs : list (nat * string)) :
  m no_flags (Lit c) (Pos b (String t s) gs)
  = if Ascii.eqb c t then [Pos (Some t) s gs] else [].
Proof. done. Qed.

(** The greedy repetition of [c] takes the whole run, when the run is
    long enough. *)
Lemma rep_lit_run (c : ascii) (lo : nat) (s : string) :
  ∀ (fuel j : nat) (b : option ascii) (gs : list (nat * string)),
    run_length c s < fuel →
    head (rep (m no_flags (Lit c)) lo None true fuel j (Pos b s gs))
    = if Nat.leb lo (j + run_length c s)
      then Some (Pos (match run_length c s with 0 => b | _ => Some c end)
                     (Str.drop (run_length c s) s) gs)
      else None.
Proof.
  induction s as [|t s IH]; intros fuel j b gs Hfuel.
  - destruct fuel as [|fuel]; [simpl in Hfuel; lia |].
    simpl. rewrite Nat.add_0_r. by destruct (Nat.leb lo j).
  - destruct fuel as [|fuel]; [simpl in Hfuel; lia |].
    rewrite rep_greedy_unbounded, m_lit. cbn [run_length].
    destruct (Ascii.eqb c t) eqn:E.
    + apply Ascii.eqb_eq in E as <-.
      cbn [flat_map]. unfold shorter. cbn [rest String.length].
      assert (Nat.ltb (String.length s) (S (String.length s)) = true) as ->
        by (apply Nat.ltb_lt; lia).
      rewrite app_nil_r, head_app_nil.
      simpl in Hfuel. rewrite Ascii.eqb_refl in Hfuel.
      rewrite IH by lia.
      replace (j + S (run_length c s)) with (S j + run_length c s) by lia.
      destruct (Nat.leb lo (S j + run_length c s)) eqn:L.
      * cbn [Str.drop]. by destruct (run_length c s).
      * apply Nat.leb_gt in L.
        assert (Nat.leb lo j = false) as -> by (apply Nat.leb_gt; lia). done.
    + cbn [flat_map app]. rewrite Nat.add_0_r. cbn [Str.drop].
      by destruct (Nat.leb lo j).
Qed.

Lemma run_long_run (c : ascii) (n : nat) (b : option ascii) (s : string) :
  run (long_run_re c n) (Pos b s [])
  = if Nat.ltb n (run_length c s)
    then Some (Pos (Some c) (Str.drop (run_length c s) s) [])
    else None.
Proof.
  change (run (long_run_re c n) (Pos b s []))
    with (head (rep (m no_flags (Lit c)) (S n) None true (S (String.length s)) 0
                    (Pos b s []))).
  rewrite rep_lit_run.
  - cbn [Nat.add]. change (Nat.leb (S n) (run_length c s)) with (Nat.ltb n (run_length c s)).
    destruct (Nat.ltb n (run_length c s)) eqn:L; [|done].
    apply Nat.ltb_lt in L. by destruct (run_length c s); [lia |].
  - pose proof (length_drop_run c s). lia.
Qed.

Lemma cap_runs_after_run (c : ascii) (n seen : nat) (s : string) :
  run_length c s = 0 → cap_runs c n seen s = cap_runs c n 0 s.
Proof.
  destruct s as [|t s]; simpl; [done |].
  by destruct (Ascii.eqb c t).
Qed.

Lemma run_length_drop (c : ascii) (s : string) :
  run_length c (Str.drop (run_length c s) s) = 0.
Proof.
  induction s as [|t s IH]; simpl; [done |].
  destruct (Ascii.eqb c t) eqn:E; simpl; [done | by rewrite E].
Qed.

Lemma cap_runs_run (c : ascii) (n : nat) (s : string) :
  ∀ seen,
    cap_runs c n seen s
    = repeat_char c (Nat.min (run_length c s) (n - seen))
      +:+ cap_runs c n 0 (Str.drop (run_length c s) s).
Proof.
  induction s as [|t s IH]; intros seen; simpl; [done |].
  destruct (Ascii.eqb c t) eqn:E; simpl.
  - apply Ascii.eqb_eq in E as <-.
    destruct (Nat.ltb seen n) eqn:L.
    + apply Nat.ltb_lt in L. rewrite IH.
      replace (n - seen) with (S (n - S seen)) by lia. done.
    + apply Nat.ltb_ge in L. rewrite IH.
      replace (n - seen) with 0 by lia. rewrite Nat.min_0_r. done.
  - by rewrite E.
Qed.

(** Replacing every run of more than [n] by [n] of the character cuts
    every run down to at most [n]. *)
Lemma sub_long_run (c : ascii) (n : nat) :
  ∀ (fuel : nat) (b : option ascii) (s : string),
    String.length s < fuel →
    sub_loop (long_run_re c n) (fun _ _ => repeat_char c n) fuel b s
    = cap_runs c n 0 s.
Proof.
  induction fuel as [|fuel IH]; intros b s Hfuel; [lia |].
  cbn [sub_loop]. rewrite run_long_run.
  pose proof (length_drop_run c s) as Hlen.
  destruct (Nat.ltb n (run_length c s)) eqn:L.
  - apply Nat.ltb_lt in L. unfold shorter. cbn [rest before].
    assert (Nat.ltb (String.length (Str.drop (run_length c s) s)) (String.length s)
            = true) as -> by (apply Nat.ltb_lt; lia).
    rewrite IH by lia. rewrite (cap_runs_run c n s 0).
    rewrite Nat.sub_0_r, Nat.min_r by lia. done.
  - apply Nat.ltb_ge in L.
    destruct s as [|t s]; [done |].
    rewrite IH by (simpl in Hfuel; lia).
    simpl. simpl in L. destruct (Ascii.eqb c t) eqn:E; [|done].
    assert (Nat.ltb 0 n = true) as -> by (apply Nat.ltb_lt; lia).
    f_equal. rewrite (cap_runs_run c n s 1), (cap_runs_run c n s 0).
    rewrite !Nat.min_l by lia. done.
Qed.

Lemma sub_text_long_run (c : ascii) (n : nat) (s : string) :
  sub_text (long_run_re c n) (repeat_char c n) s = cap_runs c n 0 s.
Proof. apply sub_long_run. lia. Qed.

Lemma cap_runs_app_char (c t : ascii) (n : nat) (a s : string) :
  Ascii.eqb c t = false →
  ∀ seen, cap_runs c n seen (a +:+ String t s)
          = cap_runs c n seen (a +:+ String t "") +:+ cap_runs c n 0 s.
Proof.
  intros Ht. induction a as [|x a IH]; intros seen; simpl.
  - by rewrite Ht.
  - destruct (Ascii.eqb c x); [destruct (Nat.ltb seen n) |]; simpl;
      by rewrite IH.
Qed.

Lemma run_length_repeat (c : ascii) (k : nat) (s : string) :
  run_length c s = 0 → run_length c (repeat_char c k +:+ s) = k.
Proof.
  intros Hs. induction k as [|k IH]; simpl; [done |].
  by rewrite Ascii.eqb_refl, IH.
Qed.

Lemma drop_repeat (c : ascii) (k : nat) (s : string) :
  Str.drop k (repeat_char c k +:+ s) = s.
Proof. induction k as [|k IH]; simpl; [by destruct s | done]. Qed.

Lemma search_none_of (pt : pattern) (s : string) :
  bool_decide (is_Some (search pt s)) = false → search pt s = None.
Proof.
  intros H. apply bool_decide_eq_false in H.
  destruct (search pt s); [|done]. destruct H. by eexists.
Qed.

(** ** The path mapper *)




Lemma lstrip_char_one (c : ascii) (x : string) :
  Str.startswith x (String c "") = false → Str.lstrip_char c (String c x) = x.
Proof.
  intros H. unfold Str.lstrip_char. cbn [Str.lstrip_by]. rewrite Ascii.eqb_refl.
  destruct x as [|t x]; [done |].
  cbn [Str.startswith] in H. rewrite andb_true_r in H.
  cbn [Str.lstrip_by]. by rewrite H.
Qed.


(** ** Splitting at white space *)

Lemma split_ws_cons2 (c d : ascii) (x : string) :
  Str.split_ws (String c (String d x))
  = if Str.isspace c then Str.split_ws (String d x)
    else if Str.isspace d then String c "" :: Str.split_ws (String d x)
    else match Str.split_ws (String d x) with
         | w :: ws => String c w :: ws
         | [] => [String c ""]
         end.
Proof. done. Qed.









(** ** Idempotence of the URL rewriter *)

Lemma rebuild_shape (pre : string) (u : SplitResult) : ∃ x, rebuild pre u = pre +:+ x.
Proof.
  unfold rebuild.
  destruct (Str.is_empty (query u)), (Str.is_empty (fragment u));
    rewrite ?app_assoc_str; by eexists.
Qed.

(** The rewriter returns the value, or a text that starts with the
    relative prefix. *)
Lemma rewrite_shape (ok : string → bool) (value : string) (ds : gset string)
    (pre : string) :
  _rewrite_one_url_value ok value ds pre = value
  ∨ ∃ x, _rewrite_one_url_value ok value ds pre = pre +:+ x.
Proof.
  unfold _rewrite_one_url_value.
  destruct (Str.is_empty (Str.strip value) || Str.startswith (Str.strip value) "#");
    [by left |].
  destruct (bool_decide (is_Some (match_ RE_SKIP_SCHEMES (Str.strip value))));
    [by left |].
  cbv zeta.
  set (v1 := match _extract_original_from_wayback ok (Str.strip value) with
             | Some embedded => if Str.is_empty embedded then Str.strip value else embedded
             | None => Str.strip value
             end).
  set (v2 := if Str.startswith v1 "//" then "https:" +:+ v1 else v1).
  clearbody v2.
  destruct (Str.startswith v2 "http://" || Str.startswith v2 "https://").
  - unfold rewrite_absolute. destruct (urlsplit ok v2) as [u|e]; [|by left].
    destruct (bool_decide (Str.lower (netloc u) ∈ ds)); [|by left].
    right. apply rebuild_shape.
  - destruct (Str.startswith v2 "/"); [right; by eexists |].
    destruct (existsb (Str.startswith v2) maybe_roots); [right; by eexists | by left].
Qed.

(** A value that starts with a dot is returned as it is. *)
Lemma rewrite_dot (ok : string → bool) (r : string) (ds : gset string) (pre : string) :
  _rewrite_one_url_value ok (String "." r) ds pre = String "." r.
Proof.
  unfold _rewrite_one_url_value.
  destruct (strip_keeps_head "." r eq_refl) as [r' ->].
  cbn [Str.is_empty orb]. rewrite startswith_head_neq by done.
  rewrite skip_match_first_char by done.
  destruct (urlsplit_no_netloc ok "." r') as (u & Hu & Hn); [done.. |].
  rewrite (extract_spec ok _ u Hu), Hn.
  rewrite bool_decide_eq_false_2 by (by vm_compute).
  cbv zeta. rewrite (startswith_head_neq "/" ".") by done.
  rewrite !(startswith_head_neq "h" ".") by done.
  rewrite (startswith_head_neq "/" ".") by done.
  unfold maybe_roots. cbn [existsb orb].
  rewrite !(startswith_head_neq "w" "."), (startswith_head_neq "c" ".") by done.
  done.
Qed.

(** ** Relative prefixes *)

Lemma commonprefix_app (r d : list string) :
  Posixpath.commonprefix (r ++ d) r = r.
Proof.
  induction r as [|x r IH]; [by destruct d |].
  cbn. by rewrite String.eqb_refl, IH.
Qed.

Lemma rstrip_by_cons (p : ascii → bool) (c d : ascii) (s r : string) :
  Str.rstrip_by p s = String d r → Str.rstrip_by p (String c s) = String c (String d r).
Proof. intros H. cbn [Str.rstrip_by]. by rewrite H. Qed.

Lemma join_dotdot_S (d : nat) :
  Str.join "/" (replicate (S (S d)) "..")
  = "../" +:+ Str.join "/" (replicate (S d) "..").
Proof. done. Qed.

Lemma join_dotdot (d : nat) :
  ∃ r, Str.join "/" (replicate (S d) "..") = String "." r
       ∧ Str.rstrip_char "/" (String "." r) = String "." r
       ∧ String "." r +:+ "/" = up (S d).
Proof.
  induction d as [|d (r & E & Hr & Hu)].
  - by exists ".".
  - exists (String "." (String "/" (String "." r))).
    rewrite join_dotdot_S, E. split; [done |]. split.
    + unfold Str.rstrip_char in *.
      by do 3 apply rstrip_by_cons.
    + change (up (S (S d))) with ("../" +:+ up (S d)). by rewrite <- Hu.
Qed.

(** The relative prefix of a page whose directory lies in the output
    root or below it, by the components [dir] *)
Lemma posix_relpath_below (cwd page_dir site_root : string) (dir : list string) :
  site_root ≠ "" →
  Posixpath.nonempty_parts (Posixpath.abspath cwd page_dir)
  = (Posixpath.nonempty_parts (Posixpath.abspath cwd site_root) ++ dir)%list →
  _posix_relpath cwd page_dir site_root = Ok (up (List.length dir)).
Proof.
  intros Hroot Hparts. unfold _posix_relpath, Posixpath.relpath.
  destruct site_root as [|c root]; [done |]. cbn [Str.is_empty].
  rewrite Hparts, commonprefix_app, length_app, drop_all.
  replace (List.length (Posixpath.nonempty_parts (Posixpath.abspath cwd (String c root)))
           + List.length dir
           - List.length (Posixpath.nonempty_parts (Posixpath.abspath cwd (String c root))))
    with (List.length dir) by lia.
  destruct dir as [|x dir]; [done |]. cbn [List.length].
  destruct (join_dotdot (List.length dir)) as (r & E & Hr & Hu).
  assert (Hne : r ≠ "").
  { intros ->. destruct (List.length dir); [done |]. by rewrite join_dotdot_S in E. }
  change (replicate (S (List.length dir)) ".." ++ [])%list
    with (".." :: (replicate (List.length dir) ".." ++ []))%list.
  rewrite app_nil_r.
  change (".." :: replicate (List.length dir) "..")
    with (replicate (S (List.length dir)) "..").
  cbn [mbind result_bind rbind]. rewrite E.
  assert (String.eqb (String "." r) "." = false) as -> by by destruct r.
  by rewrite Hr, Hu.
Qed.

(** ** Agreement of the rewriter and the path mapper *)

Lemma contains_intro (a s sub : string) :
  Str.startswith s sub = true → Str.contains (a +:+ s) sub = true.
Proof.
  intros H. induction a as [|x a IH].
  - destruct s; cbn; by rewrite H.
  - change (String x a +:+ s) with (String x (a +:+ s)).
    cbn [Str.contains]. rewrite IH. apply orb_true_r.
Qed.








(** * Claims *)

(** C1, the pass leaves a file that is also a directory: the records for
    [/a], [/a/b] and [/a.bin/c] come out as [a.bin], [a/b] and [a.bin/c],
    and [a.bin] is a directory of [a.bin/c].  The pass also leaves two
    records on one path: with [/a], [/a/b], [/a.bin] and
    [/a__f1dd8018.bin], where [f1dd8018] starts the SHA-1 of the first
    URL, the first and the last record both get [a__f1dd8018.bin]. *)
Theorem conflict_pass_leaves_conflicts (ok : string -> bool) :
  let a := Cdx "20200101000000" "http://h/a" octet "200" in
  let ab := Cdx "20200101000000" "http://h/a/b" octet "200" in
  let abin_c := Cdx "20200101000000" "http://h/a.bin/c" octet "200" in
  let abin := Cdx "20200101000000" "http://h/a.bin" octet "200" in
  let ahash := Cdx "20200101000000" "http://h/a__f1dd8018.bin" octet "200" in
  (selection_set ok 0 false [a; ab; abin_c]
     = Ok [(a, "a.bin"); (ab, "a/b"); (abin_c, "a.bin/c")]
   ∧ is_directory_of "a.bin" "a.bin/c"
   ∧ ¬ conflict_free [(a, "a.bin"); (ab, "a/b"); (abin_c, "a.bin/c")])
  ∧ (selection_set ok 0 false [a; ab; abin; ahash]
       = Ok [(a, "a__f1dd8018.bin"); (ab, "a/b"); (abin, "a.bin");
             (ahash, "a__f1dd8018.bin")]
     ∧ ¬ conflict_free [(a, "a__f1dd8018.bin"); (ab, "a/b"); (abin, "a.bin");
                         (ahash, "a__f1dd8018.bin")]).
Proof.
  intros a ab abin_c abin ahash.
  assert (Hdir : is_directory_of "a.bin" "a.bin/c").
  { unfold is_directory_of. vm_compute. left. }
  split; [split; [|split] |split].
  - vm_compute. reflexivity.
  - exact Hdir.
  - intros [_ H]. apply (H "a.bin" "a.bin/c"); [| |exact Hdir].
    + vm_compute. left.
    + vm_compute. do 2 right. left.
  - vm_compute. reflexivity.
  - intros [H _]. unfold paths in H. simpl in H.
    apply NoDup_cons in H as [H _]. apply H.
    do 2 right. left.
Qed.

(** C10: an absolute URL whose host is in the domain scope, whose path is
    empty or [/] and which has no query and no fragment is rewritten to
    exactly the relative prefix; and the relative prefix of a page whose
    directory is the output root is the empty string. *)
Theorem site_root_url_rewrites_to_prefix (ok : string → bool) (cwd : string) :
  (∀ (value : string) (ds : gset string) (pre : string) (u : SplitResult),
     Str.startswith (Str.strip value) "http://"
       || Str.startswith (Str.strip value) "https://" = true →
     urlsplit ok (Str.strip value) = Ok u →
     Str.lower (netloc u) ∈ ds →
     path u = "" ∨ path u = "/" →
     query u = "" →
     fragment u = "" →
     _rewrite_one_url_value ok value ds pre = pre)
  ∧ (∀ root : string, root ≠ "" → _posix_relpath cwd root root = Ok "")
  ∧ _rewrite_one_url_value ok "https://example.org" {[ "example.org" ]} "" = "".
Proof.
  split; [|split].
  - intros value ds pre u Habs Hu Hhost Hpath Hq Hf.
    unfold _rewrite_one_url_value.
    set (v := Str.strip value) in *. clearbody v.
    destruct (absolute_first_char v Habs) as [r ->].
    cbn [Str.is_empty orb]. rewrite startswith_head_neq by done.
    rewrite skip_match_first_char by done.
    rewrite (extract_spec ok _ u Hu).
    assert (Hno : match_ wayback_path_re (path u) = None).
    { destruct Hpath as [-> | ->]; by vm_compute. }
    rewrite Hno.
    assert ((if bool_decide (Str.lower (netloc u) ∈ wayback_hosts)
             then None else None) = (None : option string)) as ->.
    { by destruct (bool_decide _). }
    cbv zeta. rewrite (startswith_head_neq "/" "h") by done.
    rewrite Habs. unfold rewrite_absolute. rewrite Hu.
    rewrite bool_decide_eq_true_2 by done.
    unfold rebuild. rewrite Hq, Hf. cbn [Str.is_empty].
    destruct Hpath as [-> | ->]; cbn; apply app_empty_r.
  - intros root. apply posix_relpath_same.
  - by vm_compute.
Qed.

Lemma site_root_url_rewrites_to_prefix_witness :
  _rewrite_one_url_value accept_all " https://www.example.org/ "
    {[ "example.org"; "www.example.org" ]} "../../" = "../../".
Proof.
  apply (proj1 (site_root_url_rewrites_to_prefix accept_all "/") _ _ _
           (Split "https" "www.example.org" "/" "" "")).
  - vm_compute. reflexivity.
  - vm_compute. reflexivity.
  - vm_compute. set_solver.
  - right. reflexivity.
  - reflexivity.
  - reflexivity.
Defined.

(** C6, as stated, fails on an archive wrapper: its host
    [web.archive.org] is outside the domain scope, and yet the value is
    rewritten, to the path of the embedded URL. *)
Lemma wrapper_url_is_rewritten :
  let value := "https://web.archive.org/web/2020/https://example.org/a" in
  let ds : gset string := {[ "example.org" ]} in
  is_absolute value = true
  ∧ (∃ u, urlsplit accept_all value = Ok u ∧ Str.lower (netloc u) ∉ ds)
  ∧ _rewrite_one_url_value accept_all value ds "" = "a"
  ∧ _rewrite_one_url_value accept_all value ds "" ≠ value.
Proof.
  cbv zeta. split; [by vm_compute |]. split.
  - eexists. split; [by vm_compute |]. vm_compute. set_solver.
  - split; by vm_compute.
Qed.

(** C6, amended: a value that, with the white space around it removed,
    is empty, starts with [#], has a skip scheme in any letter case, or
    is an absolute URL that is not an archive wrapper and whose host is
    outside the domain scope, is returned unchanged, for every domain
    scope and relative prefix. *)
Theorem out_of_scope_values_pass_through (ok : string → bool) (value : string)
    (ds : gset string) (pre : string) :
  Str.strip value = ""
  ∨ Str.startswith (Str.strip value) "#" = true
  ∨ has_skip_scheme (Str.strip value) = true
  ∨ (is_absolute (Str.strip value) = true
     ∧ _extract_original_from_wayback ok (Str.strip value) = None
     ∧ ∀ u, urlsplit ok (Str.strip value) = Ok u → Str.lower (netloc u) ∉ ds) →
  _rewrite_one_url_value ok value ds pre = value.
Proof.
  unfold _rewrite_one_url_value.
  set (v := Str.strip value) in *. clearbody v.
  intros [-> | [H | [H | (Habs & Hex & Hhost)]]].
  - done.
  - rewrite H. by rewrite orb_true_r.
  - destruct (Str.is_empty v || Str.startswith v "#"); [done |].
    rewrite skip_match_spec. unfold has_skip_scheme in H. by rewrite H.
  - rewrite Hex. unfold is_absolute in Habs.
    destruct (absolute_first_char v Habs) as [r ->].
    cbn [Str.is_empty orb]. rewrite startswith_head_neq by done.
    rewrite skip_match_first_char by done.
    cbv zeta. rewrite (startswith_head_neq "/" "h") by done.
    rewrite Habs. unfold rewrite_absolute.
    destruct (urlsplit ok (String "h" r)) as [u|e] eqn:Hu; [|done].
    rewrite bool_decide_eq_false_2; [done |].
    by apply Hhost.
Qed.

Lemma out_of_scope_values_pass_through_witness :
  _rewrite_one_url_value accept_all " MailTo:someone@example.org "
    {[ "example.org" ]} "../" = " MailTo:someone@example.org "
  ∧ _rewrite_one_url_value accept_all "https://cdn.example.net/lib.js"
      {[ "example.org" ]} "../" = "https://cdn.example.net/lib.js".
Proof.
  split.
  - apply out_of_scope_values_pass_through.
    right. right. left. vm_compute. reflexivity.
  - apply out_of_scope_values_pass_through.
    right. right. right. split; [|split].
    + vm_compute. reflexivity.
    + vm_compute. reflexivity.
    + intros u Hu. vm_compute in Hu. injection Hu as <-.
      vm_compute. set_solver.
Defined.

(** C5, as stated, fails on a value that matches the wrapper pattern but
    has no archive host: the root-relative [/web/2020/https://example.org/a]
    embeds a URL of the domain scope, and is rewritten as a root-relative
    path, not to the path [a] of the embedded URL. *)
Lemma root_relative_wrapper_is_not_unwrapped :
  let value := "/web/2020/https://example.org/a" in
  let ds : gset string := {[ "example.org" ]} in
  (∃ q, match_ wayback_path_re value = Some q ∧ group 1 q = "https://example.org/a")
  ∧ _extract_original_from_wayback accept_all value = None
  ∧ rewrite_absolute accept_all value "https://example.org/a" ds "" = "a"
  ∧ _rewrite_one_url_value accept_all value ds "" = "web/2020/https://example.org/a".
Proof.
  cbv zeta. split; [eexists; split; by vm_compute |].
  repeat split; by vm_compute.
Qed.

(** C5, amended: for a value whose host is [web.archive.org] or
    [www.web.archive.org], whose path matches
    [/web/<digits><optional flags>/<http(s) URL>], that has no skip scheme
    and whose embedded URL starts with a lower-case [http://] or
    [https://], the embedded URL is extracted first and the domain-scope
    test is made on the host of the embedded URL. *)
Theorem wrapper_is_unwrapped_first (ok : string → bool) (value : string)
    (ds : gset string) (pre : string) (u : SplitResult) (q : pos) :
  urlsplit ok (Str.strip value) = Ok u →
  Str.lower (netloc u) ∈ wayback_hosts →
  match_ wayback_path_re (path u) = Some q →
  has_skip_scheme (Str.strip value) = false →
  is_absolute (group 1 q) = true →
  _extract_original_from_wayback ok (Str.strip value) = Some (group 1 q)
  ∧ _rewrite_one_url_value ok value ds pre
    = match urlsplit ok (group 1 q) with
      | Raise _ => value
      | Ok embedded =>
          if bool_decide (Str.lower (netloc embedded) ∈ ds)
          then rebuild pre embedded else value
      end.
Proof.
  intros Hu Hhost Hq Hskip Habs.
  assert (Hex : _extract_original_from_wayback ok (Str.strip value) = Some (group 1 q)).
  { rewrite (extract_spec ok _ u Hu), bool_decide_eq_true_2, Hq; done. }
  split; [done |].
  unfold _rewrite_one_url_value.
  set (v := Str.strip value) in *. clearbody v.
  rewrite (netloc_not_fragment ok v u Hu).
  - rewrite skip_match_spec. unfold has_skip_scheme in Hskip. rewrite Hskip, Hex.
    unfold is_absolute in Habs.
    destruct (absolute_first_char _ Habs) as [r Hr]. rewrite Hr in *.
    cbn [Str.is_empty]. cbv zeta. rewrite (startswith_head_neq "/" "h") by done.
    by rewrite Habs.
  - intros E. rewrite E in Hhost. vm_compute in Hhost. set_solver.
Qed.

Lemma wrapper_is_unwrapped_first_witness :
  _extract_original_from_wayback accept_all
    " https://web.archive.org/web/20200101000000im_/https://example.org/a.png?v=2"
  = Some "https://example.org/a.png"
  ∧ _rewrite_one_url_value accept_all
      " https://web.archive.org/web/20200101000000im_/https://example.org/a.png?v=2"
      {[ "example.org" ]} "../" = "../a.png".
Proof.
  assert (Hq : ∃ q, match_ wayback_path_re
                      "/web/20200101000000im_/https://example.org/a.png" = Some q
                    ∧ group 1 q = "https://example.org/a.png").
  { eexists. split; by vm_compute. }
  destruct Hq as (q & Hq & Hg).
  pose proof (wrapper_is_unwrapped_first accept_all
    " https://web.archive.org/web/20200101000000im_/https://example.org/a.png?v=2"
    {[ "example.org" ]} "../"
    (Split "https" "web.archive.org"
       "/web/20200101000000im_/https://example.org/a.png" "v=2" "") q) as H.
  rewrite Hg in H. apply H.
  - vm_compute. reflexivity.
  - vm_compute. set_solver.
  - exact Hq.
  - vm_compute. reflexivity.
  - vm_compute. reflexivity.
Defined.

(** C8, as stated, fails on a text without overlay signatures that has
    three blank lines between two lines, fewer than four: the run is
    collapsed all the same, and what is left is three newline
    characters, more than two. *)
Lemma three_blank_lines_are_collapsed :
  let html := "a" +:+ NL +:+ NL +:+ NL +:+ NL +:+ "b" in
  has_overlay_signature html = false
  ∧ Str.split newline html = ["a"; ""; ""; ""; "b"]
  ∧ strip_age_gate_html html = "a" +:+ NL +:+ NL +:+ NL +:+ "b"
  ∧ strip_age_gate_html html ≠ html.
Proof. cbv zeta. repeat split; by vm_compute. Qed.

(** C8, amended: on a text in which none of the overlay patterns matches,
    [strip_age_gate_html] only collapses runs of newlines: a run of four
    or more newline characters (three or more blank lines) becomes three
    newline characters (two blank lines), and everything else, shorter
    runs included, stays as it is. *)
Theorem strip_without_signature_collapses_newlines :
  (∀ html : string,
     has_overlay_signature html = false →
     strip_age_gate_html html = collapse_blank_lines html)
  ∧ (∀ (text rest : string) (t : ascii) (k : nat),
       t ≠ newline → run_length newline rest = 0 →
       collapse_blank_lines (text +:+ String t (repeat_char newline k +:+ rest))
       = collapse_blank_lines (text +:+ String t "")
         +:+ repeat_char newline (Nat.min k 3) +:+ collapse_blank_lines rest).
Proof.
  split.
  - intros html H. unfold has_overlay_signature, overlay_patterns in H.
    cbn [existsb] in H. rewrite !orb_false_iff in H.
    destruct H as (H1 & H2 & H3 & H4 & H5 & H6 & H7 & _).
    apply search_none_of in H1, H2, H3, H4, H5, H6, H7.
    unfold strip_age_gate_html, sub_text.
    rewrite (sub_no_match _ _ _ H1), (sub_no_match _ _ _ H2), (sub_no_match _ _ _ H3),
      (sub_no_match _ _ _ H4), (sub_no_match _ _ _ H5), (sub_no_match _ _ _ H6),
      (sub_no_match _ _ _ H7).
    apply (sub_text_long_run newline 3).
  - intros text rest t k Ht Hrest. unfold collapse_blank_lines.
    rewrite cap_runs_app_char by (apply Ascii.eqb_neq; congruence).
    f_equal. rewrite cap_runs_run, run_length_repeat, drop_repeat by done.
    done.
Qed.

Lemma strip_without_signature_collapses_newlines_witness :
  strip_age_gate_html ("<p>a</p>" +:+ NL +:+ NL +:+ NL +:+ NL +:+ NL +:+ NL +:+ "<p>b</p>")
  = "<p>a</p>" +:+ NL +:+ NL +:+ NL +:+ "<p>b</p>".
Proof.
  rewrite (proj1 strip_without_signature_collapses_newlines).
  - vm_compute. reflexivity.
  - vm_compute. reflexivity.
Defined.








(** C3, as stated, fails, both for a page in the output root and for a
    page below it.  In the root the relative prefix is empty and what the
    first pass writes can be a value that the second pass rewrites again:
    in CSS the in-scope URL
    [https://example.org/https://example.org/a.png] becomes
    [https://example.org/a.png] and then [a.png]; in HTML the in-scope URL
    [https://example.org//x.png] becomes [/x.png] and then [x.png].
    Below the root, unwrapping an archive URL drops the query of the
    wrapper, which can bring the rest of the path next to the closing
    quote: the first pass leaves [url(] or [srcset=] in front of a quote,
    and the second pass finds there a match that the first one did not
    have, and normalises its spacing. *)
Lemma rewrite_twice_differs :
  let ds : gset string := {[ "example.org" ]} in
  let root := "/site/docs" in
  let blog := "/site/docs/blog" in
  let css := "a{background:url(https://example.org/https://example.org/a.png)}" in
  let html := "<a href=" +:+ DQ +:+ "https://example.org//x.png" +:+ DQ +:+ ">" in
  let css' := "@import " +:+ DQ
              +:+ "https://web.archive.org/web/2020/https://example.org/url(?v"
              +:+ DQ +:+ "; a" +:+ DQ +:+ " )" in
  let html' := "<a href=" +:+ DQ
               +:+ "https://web.archive.org/web/2020/https://example.org/srcset=?v"
               +:+ DQ +:+ ">a,b" +:+ DQ +:+ ">" in
  rewrite_css_urls_in_text accept_all "/" css root root ds
    = Ok "a{background:url(https://example.org/a.png)}"
  ∧ rewrite_css_urls_in_text accept_all "/"
      "a{background:url(https://example.org/a.png)}" root root ds
    = Ok "a{background:url(a.png)}"
  ∧ rewrite_html accept_all "/" html root root ds
    = Ok ("<a href=" +:+ DQ +:+ "/x.png" +:+ DQ +:+ ">")
  ∧ rewrite_html accept_all "/" ("<a href=" +:+ DQ +:+ "/x.png" +:+ DQ +:+ ">") root root ds
    = Ok ("<a href=" +:+ DQ +:+ "x.png" +:+ DQ +:+ ">")
  ∧ _posix_relpath "/" blog root = Ok "../"
  ∧ rewrite_css_urls_in_text accept_all "/" css' blog root ds
    = Ok ("@import " +:+ DQ +:+ "../url(" +:+ DQ +:+ "; a" +:+ DQ +:+ " )")
  ∧ rewrite_css_urls_in_text accept_all "/"
      ("@import " +:+ DQ +:+ "../url(" +:+ DQ +:+ "; a" +:+ DQ +:+ " )") blog root ds
    = Ok ("@import " +:+ DQ +:+ "../url(" +:+ DQ +:+ "; a" +:+ DQ +:+ ")")
  ∧ rewrite_html accept_all "/" html' blog root ds
    = Ok ("<a href=" +:+ DQ +:+ "../srcset=" +:+ DQ +:+ ">a,b" +:+ DQ +:+ ">")
  ∧ rewrite_html accept_all "/"
      ("<a href=" +:+ DQ +:+ "../srcset=" +:+ DQ +:+ ">a,b" +:+ DQ +:+ ">") blog root ds
    = Ok ("<a href=" +:+ DQ +:+ "../srcset=" +:+ DQ +:+ ">a, b" +:+ DQ +:+ ">").
Proof. cbv zeta. repeat split; by vm_compute. Qed.

(** C3, amended: what is idempotent is the rewriting of one value, for a
    page below the output root.  There the relative prefix starts with
    [../], and with such a prefix rewriting a value twice gives the same
    as rewriting it once: what the rewriter returns is the value itself
    or starts with the prefix, and a value that starts with a dot is
    returned as it is. *)
Theorem rewrite_url_idempotent_below_root (ok : string → bool) (cwd : string) :
  (∀ (value : string) (ds : gset string) (pre : string),
     Str.startswith pre "../" = true →
     _rewrite_one_url_value ok (_rewrite_one_url_value ok value ds pre) ds pre
     = _rewrite_one_url_value ok value ds pre)
  ∧ (∀ (page_dir site_root : string) (dir : list string),
       site_root ≠ "" → dir ≠ [] →
       Posixpath.nonempty_parts (Posixpath.abspath cwd page_dir)
       = (Posixpath.nonempty_parts (Posixpath.abspath cwd site_root) ++ dir)%list →
       ∃ pre, _posix_relpath cwd page_dir site_root = Ok pre
              ∧ Str.startswith pre "../" = true).
Proof.
  split.
  - intros value ds pre Hpre.
    destruct (rewrite_shape ok value ds pre) as [E | [x E]]; [by rewrite !E |].
    rewrite E. apply startswith_split in Hpre as [r ->].
    apply rewrite_dot.
  - intros page_dir site_root dir Hroot Hdir Hparts.
    exists (up (List.length dir)). split; [by apply posix_relpath_below |].
    destruct dir as [|x dir]; [done |]. apply startswith_app.
Qed.

Lemma rewrite_url_idempotent_below_root_witness :
  _rewrite_one_url_value accept_all
    (_rewrite_one_url_value accept_all "https://example.org//x.png"
       {[ "example.org" ]} "../")
    {[ "example.org" ]} "../"
  = _rewrite_one_url_value accept_all "https://example.org//x.png"
      {[ "example.org" ]} "../"
  ∧ ∃ pre, _posix_relpath "/" "/site/docs/blog/2020" "/site/docs" = Ok pre
           ∧ Str.startswith pre "../" = true.
Proof.
  split.
  - apply (proj1 (rewrite_url_idempotent_below_root accept_all "/")).
    vm_compute. reflexivity.
  - apply (proj2 (rewrite_url_idempotent_below_root accept_all "/")
             "/site/docs/blog/2020" "/site/docs" ["blog"; "2020"]).
    + discriminate.
    + discriminate.
    + vm_compute. reflexivity.
Defined.




(** * More properties of the program *)

(** ** Strings, continued *)

Lemma has_char_app (c : ascii) (a b : string) :
  Str.has_char c (a +:+ b) = Str.has_char c a || Str.has_char c b.
Proof.
  induction a as [|x a IH]; simpl; [done |]. rewrite IH. by rewrite orb_assoc.
Qed.

Lemma split1_no_sep (sep : ascii) (s : string) :
  Str.has_char sep s = false → Str.split1 sep s = [s].
Proof.
  induction s as [|c s IH]; simpl; [done |].
  rewrite (Ascii.eqb_sym c sep). intros [H1 H2]%orb_false_elim.
  rewrite H1, (IH H2). done.
Qed.

Lemma split1_head_no_sep (sep : ascii) (s : string) :
  Str.has_char sep (default "" (head (Str.split1 sep s))) = false.
Proof.
  induction s as [|c s IH]; simpl; [done |].
  destruct (Ascii.eqb c sep) eqn:E; simpl; [done |].
  destruct (Str.split1 sep s) as [|x xs]; simpl in *.
  - by rewrite (Ascii.eqb_sym sep c), E.
  - by rewrite (Ascii.eqb_sym sep c), E, IH.
Qed.

Lemma has_char_lstrip_by (p : ascii → bool) (c : ascii) (s : string) :
  Str.has_char c s = false → Str.has_char c (Str.lstrip_by p s) = false.
Proof.
  induction s as [|x s IH]; simpl; [done |].
  intros [H1 H2]%orb_false_elim. destruct (p x); simpl; [by apply IH |].
  by rewrite H1, H2.
Qed.

Lemma has_char_rstrip_by (p : ascii → bool) (c : ascii) (s : string) :
  Str.has_char c s = false → Str.has_char c (Str.rstrip_by p s) = false.
Proof.
  induction s as [|x s IH]; simpl; [done |].
  intros [H1 H2]%orb_false_elim. specialize (IH H2).
  destruct (Str.rstrip_by p s) as [|y r]; simpl in *.
  - destruct (p x); simpl; [done | by rewrite H1].
  - by rewrite H1, IH.
Qed.

Lemma has_char_strip (c : ascii) (s : string) :
  Str.has_char c s = false → Str.has_char c (Str.strip s) = false.
Proof. intros H. by apply has_char_rstrip_by, has_char_lstrip_by. Qed.

Lemma has_char_lower (c : ascii) (s : string) :
  (∀ x, Str.lower_char x = c → x = c) →
  Str.has_char c s = false → Str.has_char c (Str.lower s) = false.
Proof.
  intros Hc. induction s as [|x s IH]; simpl; [done |].
  intros [H1 H2]%orb_false_elim. rewrite (IH H2), orb_false_r.
  apply Ascii.eqb_neq. intros E. apply Ascii.eqb_neq in H1.
  symmetry in E. apply Hc in E. congruence.
Qed.

Lemma lower_char_semicolon (x : ascii) : Str.lower_char x = ";"%char → x = ";"%char.
Proof.
  destruct x as [[] [] [] [] [] [] [] []]; vm_compute; intros H;
    first [reflexivity | discriminate H].
Qed.

Lemma lstrip_by_lower (s : string) :
  Str.lstrip_by Str.isspace (Str.lower s) = Str.lower (Str.lstrip_by Str.isspace s).
Proof.
  induction s as [|c s IH]; simpl; [done |].
  rewrite isspace_lower_char. by destruct (Str.isspace c).
Qed.

Lemma rstrip_by_lower (s : string) :
  Str.rstrip_by Str.isspace (Str.lower s) = Str.lower (Str.rstrip_by Str.isspace s).
Proof.
  induction s as [|c s IH]; simpl; [done |].
  rewrite IH, isspace_lower_char.
  destruct (Str.rstrip_by Str.isspace s); simpl; [by destruct (Str.isspace c) | done].
Qed.

Lemma strip_lower (s : string) : Str.strip (Str.lower s) = Str.lower (Str.strip s).
Proof. unfold Str.strip. by rewrite lstrip_by_lower, rstrip_by_lower. Qed.

Lemma lstrip_by_idem (p : ascii → bool) (s : string) :
  Str.lstrip_by p (Str.lstrip_by p s) = Str.lstrip_by p s.
Proof.
  induction s as [|c s IH]; simpl; [done |].
  destruct (p c) eqn:E; [done |]. simpl. by rewrite E.
Qed.

Lemma rstrip_by_idem (p : ascii → bool) (s : string) :
  Str.rstrip_by p (Str.rstrip_by p s) = Str.rstrip_by p s.
Proof.
  induction s as [|c s IH]; simpl; [done |].
  destruct (Str.rstrip_by p s) as [|d r] eqn:E.
  - destruct (p c) eqn:Ec; simpl; [done | by rewrite Ec].
  - change (Str.rstrip_by p (String c (String d r))) with
      (match Str.rstrip_by p (String d r) with
       | "" => if p c then "" else String c ""
       | r' => String c r'
       end).
    by rewrite IH.
Qed.

(** What [lstrip] left stays when [rstrip] follows. *)
Lemma lstrip_rstrip_by (p : ascii → bool) (s : string) :
  Str.lstrip_by p (Str.rstrip_by p (Str.lstrip_by p s))
  = Str.rstrip_by p (Str.lstrip_by p s).
Proof.
  induction s as [|c s IH]; simpl; [done |].
  destruct (p c) eqn:E; [done |].
  destruct (rstrip_by_keeps_head p c s E) as [r ->]. simpl. by rewrite E.
Qed.

Lemma strip_idem (s : string) : Str.strip (Str.strip s) = Str.strip s.
Proof.
  unfold Str.strip. by rewrite lstrip_rstrip_by, rstrip_by_idem.
Qed.

Lemma norm_mime_no_semicolon (m : string) : Str.has_char ";" (_norm_mime m) = false.
Proof.
  unfold _norm_mime. apply has_char_lower; [apply lower_char_semicolon |].
  apply has_char_strip, split1_head_no_sep.
Qed.

(** X1.  Normalising a content type twice gives the same as normalising
    it once; so [_ext_for_mime] and [_local_path_for_original], which
    normalise the content type they get, give the same for a content
    type and for its normal form. *)
Theorem norm_mime_idempotent (ok : string → bool) (url m : string) :
  _norm_mime (_norm_mime m) = _norm_mime m
  ∧ _ext_for_mime (_norm_mime m) = _ext_for_mime m
  ∧ _local_path_for_original ok url (_norm_mime m) = _local_path_for_original ok url m.
Proof.
  assert (H : _norm_mime (_norm_mime m) = _norm_mime m).
  { unfold _norm_mime at 1.
    rewrite (split1_no_sep _ _ (norm_mime_no_semicolon m)). simpl.
    unfold _norm_mime. by rewrite strip_lower, strip_idem, lower_idem. }
  split; [done |]. unfold _ext_for_mime, _local_path_for_original.
  by rewrite !H.
Qed.

(** ** The path mapper *)

Lemma search_at_eq (pt : pattern) (b : option ascii) (s : string) :
  search_at pt b s
  = match run pt (Pos b s []) with
    | Some q => Some q
    | None =>
        match s with
        | "" => None
        | String c s' => search_at pt (Some c) s'
        end
    end.
Proof. by destruct s. Qed.











(** ** [urlsplit] on a URL with a query or a fragment added *)

Lemma lstrip_by_app_stop (p : ascii → bool) (a : string) (c : ascii) (s : string) :
  p c = false → Str.lstrip_by p (a +:+ String c s) = Str.lstrip_by p a +:+ String c s.
Proof.
  intros Hc. induction a as [|x a IH]; simpl; [by rewrite Hc |].
  by destruct (p x).
Qed.

Lemma remove_char_app (ch : ascii) (a b : string) :
  Str.remove_char ch (a +:+ b) = Str.remove_char ch a +:+ Str.remove_char ch b.
Proof.
  induction a as [|x a IH]; simpl; [done |].
  destruct (Ascii.eqb x ch); simpl; by rewrite IH.
Qed.

Lemma has_char_remove_char (ch c : ascii) (s : string) :
  Str.has_char c s = false → Str.has_char c (Str.remove_char ch s) = false.
Proof.
  induction s as [|x s IH]; simpl; [done |].
  intros [H1 H2]%orb_false_elim. destruct (Ascii.eqb x ch); simpl; [by apply IH |].
  by rewrite H1, IH.
Qed.

Lemma all_chars_app (p : ascii → bool) (a b : string) :
  all_chars p (a +:+ b) = all_chars p a && all_chars p b.
Proof.
  induction a as [|x a IH]; simpl; [done |]. by rewrite IH, andb_assoc.
Qed.

(** The two shapes of [s.split(sep, 1)] *)
Lemma split1_shape (sep : ascii) (s : string) :
  (Str.has_char sep s = false ∧ Str.split1 sep s = [s])
  ∨ ∃ x y, Str.split1 sep s = [x; y] ∧ s = x +:+ String sep y
           ∧ Str.has_char sep x = false.
Proof.
  induction s as [|c s IH]; [by left |]. simpl.
  rewrite (Ascii.eqb_sym sep c).
  destruct (Ascii.eqb c sep) eqn:E.
  - right. exists "", s. apply Ascii.eqb_eq in E as ->. done.
  - destruct IH as [[H1 H2] | (x & y & H1 & H2 & H3)].
    + left. by rewrite H1, H2.
    + right. exists (String c x), y. rewrite H1, H2. simpl.
      by rewrite (Ascii.eqb_sym sep c), E, H3.
Qed.

Lemma split1_app_no_sep (sep : ascii) (a b : string) :
  Str.has_char sep a = false →
  Str.split1 sep (a +:+ b)
  = match Str.split1 sep b with
    | x :: xs => (a +:+ x) :: xs
    | [] => [a]
    end.
Proof.
  induction a as [|c a IH]; simpl.
  - intros _. destruct (split1_shape sep b) as [[_ ->] | (x & y & -> & _)]; done.
  - rewrite (Ascii.eqb_sym sep c). intros [H1 H2]%orb_false_elim.
    rewrite H1, (IH H2).
    destruct (split1_shape sep b) as [[_ ->] | (x & y & -> & _)]; done.
Qed.

Lemma split1_app_sep (sep : ascii) (x y b : string) :
  Str.has_char sep x = false →
  Str.split1 sep ((x +:+ String sep y) +:+ b) = [x; y +:+ b].
Proof.
  intros Hx. rewrite app_assoc_str, split1_app_no_sep by done.
  simpl. rewrite Ascii.eqb_refl. by rewrite app_empty_r.
Qed.

Lemma cut_app_no (ch : ascii) (a b : string) :
  Str.has_char ch a = false →
  cut ch (a +:+ b) = (a +:+ fst (cut ch b), snd (cut ch b)).
Proof.
  intros Ha. unfold cut. rewrite split1_app_no_sep by done.
  destruct (split1_shape ch b) as [[_ ->] | (x & y & -> & _)]; done.
Qed.

Lemma cut_no (ch : ascii) (a : string) :
  Str.has_char ch a = false → cut ch a = (a, "").
Proof. intros Ha. unfold cut. by rewrite split1_no_sep. Qed.

Lemma cut_head (ch : ascii) (q : string) : cut ch (String ch q) = ("", q).
Proof. unfold cut. simpl. by rewrite Ascii.eqb_refl. Qed.

(** The scheme step sees nothing of what follows a [?] or a [#]. *)
Lemma split_scheme_tail (a : string) (c : ascii) (q : string) :
  scheme_char c = false → c ≠ ":"%char →
  split_scheme (a +:+ String c q)
  = (fst (split_scheme a), snd (split_scheme a) +:+ String c q).
Proof.
  intros Hc Hcolon. unfold split_scheme.
  destruct (split1_shape ":" a) as [[H1 H2] | (x & y & H1 & H2 & H3)].
  - rewrite H2, split1_app_no_sep by done. simpl fst. simpl snd.
    destruct (split1_shape ":" (String c q)) as [[_ ->] | (x & y & E & Hs & Hx)];
      [done |].
    rewrite E. destruct x as [|d x].
    { simpl in Hs. congruence. }
    simpl in Hs. injection Hs as <- _.
    rewrite all_chars_app. cbn [all_chars]. rewrite Hc.
    by rewrite andb_false_r, !andb_false_r.
  - rewrite H1. subst a. rewrite split1_app_sep by done.
    by case_match.
Qed.

Lemma has_char_split_scheme (c : ascii) (a : string) :
  Str.has_char c a = false → Str.has_char c (snd (split_scheme a)) = false.
Proof.
  intros Ha. unfold split_scheme.
  destruct (split1_shape ":" a) as [[H1 H2] | (x & y & H1 & H2 & H3)].
  - by rewrite H2.
  - rewrite H1. subst a. pose proof Ha as Hy. rewrite has_char_app in Hy.
    apply orb_false_elim in Hy as [_ Hy]. simpl in Hy.
    apply orb_false_elim in Hy as [_ Hy].
    by case_match.
Qed.

Lemma splitnetloc_tail (a : string) (c : ascii) (q : string) :
  netloc_delim c = true →
  splitnetloc (a +:+ String c q)
  = (fst (splitnetloc a), snd (splitnetloc a) +:+ String c q).
Proof.
  intros Hc. induction a as [|d a IH]; simpl; [by rewrite Hc |].
  destruct (netloc_delim d); [done |].
  rewrite IH. by destruct (splitnetloc a).
Qed.

Lemma has_char_splitnetloc (c : ascii) (a : string) :
  Str.has_char c a = false → Str.has_char c (snd (splitnetloc a)) = false.
Proof.
  induction a as [|d a IH]; simpl; [done |].
  intros [H1 H2]%orb_false_elim. destruct (netloc_delim d); simpl.
  - by rewrite H1, H2.
  - specialize (IH H2). by destruct (splitnetloc a).
Qed.

Lemma has_char_drop (c : ascii) (n : nat) (a : string) :
  Str.has_char c a = false → Str.has_char c (Str.drop n a) = false.
Proof.
  revert a. induction n as [|n IH]; intros [|d a]; simpl; try done.
  intros [_ H]%orb_false_elim. by apply IH.
Qed.

Lemma startswith_two_tail (r : string) (c : ascii) (q : string) :
  c ≠ "/"%char →
  Str.startswith (r +:+ String c q) "//" = Str.startswith r "//"
  ∧ (Str.startswith r "//" = true →
     Str.drop 2 (r +:+ String c q) = Str.drop 2 r +:+ String c q).
Proof.
  intros Hc. apply Ascii.eqb_neq in Hc. rewrite Ascii.eqb_sym in Hc.
  destruct r as [|d [|e r]]; cbn [String.append Str.startswith Str.drop].
  - rewrite Hc. split; [done | discriminate].
  - rewrite Hc, !andb_false_r. split; [done | discriminate].
  - done.
Qed.

(** What [urlsplit] reads before the query and the fragment does not
    depend on them. *)
Lemma urlsplit_tail (ok : string → bool) (url : string) (c : ascii) (q : string) :
  Str.has_char "?" url = false → Str.has_char "#" url = false →
  c = "?"%char ∨ c = "#"%char →
  ∃ q' f', urlsplit ok (url +:+ String c q)
           = (u ← urlsplit ok url; Ok (Split (scheme u) (netloc u) (path u) q' f')).
Proof.
  intros Hq Hf Hc. unfold urlsplit.
  assert (Hc0 : c0_or_space c = false) by by destruct Hc as [-> | ->].
  assert (Hsc : scheme_char c = false) by by destruct Hc as [-> | ->].
  assert (Hcol : c ≠ ":"%char) by by destruct Hc as [-> | ->].
  assert (Hsl : c ≠ "/"%char) by by destruct Hc as [-> | ->].
  assert (Hdl : netloc_delim c = true) by by destruct Hc as [-> | ->].
  rewrite lstrip_by_app_stop by done.
  rewrite !remove_char_app.
  set (a := Str.remove_char newline (Str.remove_char cr
              (Str.remove_char tab (Str.lstrip_by c0_or_space url)))).
  assert (Ha : ∀ d, Str.has_char d url = false → Str.has_char d a = false).
  { intros d Hd. subst a. by do 3 apply has_char_remove_char; apply has_char_lstrip_by. }
  assert (∃ q1, Str.remove_char newline (Str.remove_char cr
                  (Str.remove_char tab (String c q))) = String c q1) as [q1 ->].
  { exists (Str.remove_char newline (Str.remove_char cr (Str.remove_char tab q))).
    by destruct Hc as [-> | ->]. }
  rewrite split_scheme_tail by done.
  pose proof (has_char_split_scheme "?" a (Ha _ Hq)) as Hq2.
  pose proof (has_char_split_scheme "#" a (Ha _ Hf)) as Hf2.
  destruct (split_scheme a) as [sch r]. cbn [fst snd] in *.
  destruct (startswith_two_tail r c q1 Hsl) as [-> Hdrop].
  assert (Hcut : ∀ rr, Str.has_char "?" rr = false → Str.has_char "#" rr = false →
            ∃ q' f', (let '(url0, fragment) := cut "#" (rr +:+ String c q1) in
                      let '(url1, query) := cut "?" url0 in (url1, query, fragment))
                     = (rr, q', f')
                     ∧ (let '(url0, fragment) := cut "#" rr in
                        let '(url1, query) := cut "?" url0 in (url1, query, fragment))
                       = (rr, "", "")).
  { intros rr Hrq Hrf. rewrite (cut_no "#" rr), (cut_no "?" rr) by done.
    destruct Hc as [-> | ->].
    - rewrite cut_app_no by done. cbn [fst snd].
      destruct (cut "#" (String "?" q1)) as [x f] eqn:E. cbn [fst snd].
      assert (∃ x', x = String "?" x') as [x' ->].
      { unfold cut in E. simpl in E.
        destruct (split1_shape "#" q1) as [[_ H] | (x1 & y1 & H & _)];
          rewrite H in E; injection E as <- <-; by eexists. }
      rewrite cut_app_no, cut_head by done. cbn [fst snd]. rewrite app_empty_r.
      by exists x', f.
    - rewrite cut_app_no, cut_head by done. cbn [fst snd]. rewrite app_empty_r.
      rewrite cut_no by done. by exists "", q1. }
  destruct (Str.startswith r "//") eqn:E.
  - rewrite Hdrop by done. rewrite splitnetloc_tail by done.
    pose proof (has_char_splitnetloc "?" _ (has_char_drop "?" 2 r Hq2)) as Hq3.
    pose proof (has_char_splitnetloc "#" _ (has_char_drop "#" 2 r Hf2)) as Hf3.
    destruct (splitnetloc (Str.drop 2 r)) as [n rr]. cbn [fst snd] in *.
    destruct (Hcut rr Hq3 Hf3) as (q' & f' & H1 & H2). exists q', f'.
    destruct ((Str.has_char "[" n && negb (Str.has_char "]" n))
              || (Str.has_char "]" n && negb (Str.has_char "[" n))); [done |].
    destruct (Str.has_char "[" n && Str.has_char "]" n && negb (ok n)); [done |].
    cbn [mbind result_bind rbind].
    destruct (cut "#" (rr +:+ String c q1)) as [u0 fr].
    destruct (cut "?" u0) as [u1 qu].
    destruct (cut "#" rr) as [v0 fr'].
    destruct (cut "?" v0) as [v1 qu'].
    cbn [mbind result_bind rbind scheme netloc path].
    cbv beta iota in H1, H2. congruence.
  - destruct (Hcut r Hq2 Hf2) as (q' & f' & H1 & H2). exists q', f'.
    cbn [mbind result_bind rbind].
    destruct (cut "#" (r +:+ String c q1)) as [u0 fr].
    destruct (cut "?" u0) as [u1 qu].
    destruct (cut "#" r) as [v0 fr'].
    destruct (cut "?" v0) as [v1 qu'].
    cbn [mbind result_bind rbind scheme netloc path].
    cbv beta iota in H1, H2. congruence.
Qed.

(** X4.  A query string and a fragment never change the local path. *)
Theorem local_path_ignores_query_and_fragment (ok : string → bool)
    (url : string) (c : ascii) (q mimetype : string) :
  Str.has_char "?" url = false → Str.has_char "#" url = false →
  c = "?"%char ∨ c = "#"%char →
  _local_path_for_original ok (url +:+ String c q) mimetype
  = _local_path_for_original ok url mimetype.
Proof.
  intros Hq Hf Hc. unfold _local_path_for_original.
  destruct (urlsplit_tail ok url c q Hq Hf Hc) as (q' & f' & ->).
  by destruct (urlsplit ok url).
Qed.

Lemma local_path_ignores_query_and_fragment_witness :
  _local_path_for_original accept_all "https://example.org/shop/item?id=7#top" "text/html"
  = _local_path_for_original accept_all "https://example.org/shop/item" "text/html".
Proof.
  apply (local_path_ignores_query_and_fragment accept_all
           "https://example.org/shop/item" "?" "id=7#top" "text/html").
  - reflexivity.
  - reflexivity.
  - by left.
Defined.

(** X5.  Only the path of a URL decides whether it is an Age Gate
    resource: a query string or a fragment changes nothing. *)
Theorem age_gate_check_ignores_query_and_fragment (ok : string → bool)
    (url : string) (c : ascii) (q : string) :
  Str.has_char "?" url = false → Str.has_char "#" url = false →
  c = "?"%char ∨ c = "#"%char →
  is_age_gate_resource ok (url +:+ String c q) = is_age_gate_resource ok url.
Proof.
  intros Hq Hf Hc. unfold is_age_gate_resource.
  destruct (urlsplit_tail ok url c q Hq Hf Hc) as (q' & f' & ->).
  by destruct (urlsplit ok url).
Qed.

Lemma age_gate_check_ignores_query_and_fragment_witness :
  is_age_gate_resource accept_all
    "https://example.org/page?next=/wp-content/plugins/age-gate/a.js"
  = is_age_gate_resource accept_all "https://example.org/page".
Proof.
  apply (age_gate_check_ignores_query_and_fragment accept_all
           "https://example.org/page" "?" "next=/wp-content/plugins/age-gate/a.js").
  - reflexivity.
  - reflexivity.
  - by left.
Defined.

(** ** The Selection Set *)

Section Selection.

Variable ok : string → bool.

Local Abbreviation local_path r :=
  (_local_path_for_original ok (original r) (mimetype r)).






End Selection.


(** ** The conflict-resolution pass *)

Lemma elem_of_dir_prefixes (lp : string) (chosen : chosen_t) :
  lp ∈ dir_prefixes_of chosen ↔ ∃ q, q ∈ paths chosen ∧ is_directory_of lp q.
Proof.
  unfold dir_prefixes_of, is_directory_of, paths.
  rewrite elem_of_list_to_set, list_elem_of_In, in_flat_map. split.
  - intros (c & Hc & Hlp). exists (snd c). split.
    + apply list_elem_of_fmap. exists c. split; [done |]. by apply list_elem_of_In.
    + by apply list_elem_of_In.
  - intros (q & (c & -> & Hc)%list_elem_of_fmap & Hlp). exists c.
    split; by apply list_elem_of_In.
Qed.

Lemma fix_loop_spec (dp : gset string) (chosen : chosen_t) :
  ∀ (f0 : chosen_t) (t0 : gset string),
    ∃ fixed t1, foldl (fix_step dp) (f0, t0) chosen = ((f0 ++ fixed)%list, t1)
                ∧ Forall2 (renamed dp) chosen fixed.
Proof.
  induction chosen as [|[rec lp] chosen IH]; intros f0 t0.
  - exists [], t0. by rewrite app_nil_r.
  - cbn [foldl].
    set (ext := _ext_for_mime (mimetype rec)).
    set (new_lp := if bool_decide (lp +:+ ext ∈ t0)
                   then lp +:+ "__" +:+ Str.take 8 (_sha1 (original rec)) +:+ ext
                   else lp +:+ ext).
    assert (fix_step dp (f0, t0) (rec, lp)
            = if bool_decide (lp ∈ dp)
              then ((f0 ++ [(rec, new_lp)])%list, {[new_lp]} ∪ t0 ∖ {[lp]})
              else ((f0 ++ [(rec, lp)])%list, t0)) as -> by done.
    destruct (bool_decide (lp ∈ dp)) eqn:E; cbv iota.
    + destruct (IH (f0 ++ [(rec, new_lp)])%list ({[new_lp]} ∪ t0 ∖ {[lp]}))
        as (fixed & t1 & Heq & HF).
      exists ((rec, new_lp) :: fixed), t1. rewrite <- app_assoc in Heq.
      split; [exact Heq |].
      constructor; [|done]. split; [done |]. cbn [fst snd]. rewrite E.
      subst new_lp. destruct (bool_decide (lp +:+ ext ∈ t0)); [by right | by left].
    + destruct (IH (f0 ++ [(rec, lp)])%list t0) as (fixed & t1 & Heq & HF).
      exists ((rec, lp) :: fixed), t1. rewrite <- app_assoc in Heq.
      split; [exact Heq |].
      constructor; [|done]. split; [done |]. cbn [fst snd]. by rewrite E.
Qed.

Lemma resolve_conflicts_renamed (chosen : chosen_t) :
  Forall2 (renamed (dir_prefixes_of chosen)) chosen (resolve_conflicts chosen).
Proof.
  unfold resolve_conflicts. cbv zeta.
  destruct (bool_decide (dir_prefixes_of chosen = ∅)) eqn:E; cbv iota.
  - apply bool_decide_eq_true in E. rewrite E.
    apply Forall2_same_length_lookup. split; [done |].
    intros i c c' H1 H2. assert (c' = c) as -> by congruence.
    split; [done |]. rewrite bool_decide_eq_false_2; [done | set_solver].
  - destruct (fix_loop_spec (dir_prefixes_of chosen) chosen []
                (list_to_set (map snd chosen))) as (fixed & t1 & Heq & HF).
    cbn [app] in Heq.
    replace (foldl (fix_step (dir_prefixes_of chosen))
               ([], list_to_set (map snd chosen)) chosen) with (fixed, t1).
    done.
Qed.

(** X8.  The conflict-resolution pass keeps every record, in its place,
    and only ever appends to a path: a path that is not a directory of a
    chosen path stays, and one that is gets the extension of its content
    type, or two underscores, eight characters of the SHA-1 of its URL
    and the extension. *)
Theorem conflict_pass_only_appends (chosen : chosen_t) :
  Forall2 (fun c c' =>
             fst c' = fst c
             ∧ if bool_decide (snd c ∈ dir_prefixes_of chosen) then
                 snd c' = snd c +:+ _ext_for_mime (mimetype (fst c))
                 ∨ snd c' = snd c +:+ "__" +:+ Str.take 8 (_sha1 (original (fst c)))
                            +:+ _ext_for_mime (mimetype (fst c))
               else snd c' = snd c)
          chosen (resolve_conflicts chosen).
Proof. apply resolve_conflicts_renamed. Qed.

Lemma ext_for_mime_nonempty (mimetype : string) : _ext_for_mime mimetype ≠ "".
Proof. unfold _ext_for_mime. repeat case_match; done. Qed.

Lemma length_app_str (a b : string) :
  String.length (a +:+ b) = String.length a + String.length b.
Proof. induction a as [|c a IH]; simpl; [done | by rewrite IH]. Qed.

Lemma app_nonempty_neq (s t : string) : t ≠ "" → s +:+ t ≠ s.
Proof.
  intros Ht H. assert (String.length (s +:+ t) = String.length s) as Hl by by rewrite H.
  rewrite length_app_str in Hl. destruct t; [done |]. simpl in Hl. lia.
Qed.

(** X9.  The pass changes the selection exactly when some chosen path is
    a directory of a chosen path. *)
Theorem conflict_pass_identity_iff (chosen : chosen_t) :
  resolve_conflicts chosen = chosen
  ↔ ∀ p q, p ∈ paths chosen → q ∈ paths chosen → ¬ is_directory_of p q.
Proof.
  pose proof (resolve_conflicts_renamed chosen) as HF. split.
  - intros Heq p q Hp Hq Hdir. rewrite Heq in HF.
    apply list_elem_of_fmap in Hp as (c & -> & Hc).
    apply list_elem_of_lookup in Hc as [i Hi].
    destruct (Forall2_lookup_lr _ _ _ i c c HF Hi Hi) as [_ H].
    rewrite bool_decide_eq_true_2 in H by (apply elem_of_dir_prefixes; eauto).
    destruct H as [H | H]; symmetry in H; revert H.
    + apply app_nonempty_neq, ext_for_mime_nonempty.
    + apply app_nonempty_neq. intros E. simpl in E. discriminate E.
  - intros Hno. symmetry. apply list_eq_same_length with (List.length chosen).
    + symmetry. by eapply Forall2_length.
    + done.
    + intros i [r lp] [r' lp'] _ Hi Hi'.
      destruct (Forall2_lookup_lr _ _ _ i _ _ HF Hi Hi') as [H1 H2].
      cbn [fst snd] in *. rewrite bool_decide_eq_false_2 in H2; [congruence |].
      intros (q & Hq & Hdir)%elem_of_dir_prefixes.
      apply (Hno lp q); [|done | done].
      apply list_elem_of_fmap. exists (r, lp). split; [done |].
      by eapply list_elem_of_lookup_2.
Qed.

(** ** [main]: the records it downloads *)




(** ** The URL rewriter *)

Lemma urlsplit_root_relative (ok : string → bool) (r : string) :
  first_is (fun c => Ascii.eqb c "/" || Ascii.eqb c tab || Ascii.eqb c cr
                     || Ascii.eqb c newline) r = false →
  ∃ u, urlsplit ok (String "/" r) = Ok u ∧ netloc u = "".
Proof.
  intros Hr. unfold urlsplit.
  rewrite lstrip_by_head, !remove_char_head, split_scheme_not_alpha by done.
  assert (Str.startswith
            (String "/" (Str.remove_char newline (Str.remove_char cr
                           (Str.remove_char tab r)))) "//" = false) as ->.
  { destruct r as [|c r]; [done |]. cbn [first_is] in Hr.
    apply orb_false_elim in Hr as [[[H1 H2]%orb_false_elim H3]%orb_false_elim H4].
    rewrite !remove_char_head by done.
    cbn [Str.startswith]. by rewrite (Ascii.eqb_sym "/" c), H1, andb_false_r. }
  cbn [mbind result_bind rbind].
  destruct (cut "#" _) as [url fragment]. destruct (cut "?" url) as [url' query].
  by eexists.
Qed.

(** X11.  A root-relative value is made relative to the page: the
    relative prefix takes the place of its leading slash, and the rest,
    query and fragment included, stays as it is. *)
Theorem root_relative_value_gets_prefix (ok : string → bool) (value : string)
    (ds : gset string) (pre r : string) :
  Str.strip value = String "/" r →
  first_is (fun c => Ascii.eqb c "/" || Ascii.eqb c tab || Ascii.eqb c cr
                     || Ascii.eqb c newline) r = false →
  _rewrite_one_url_value ok value ds pre = pre +:+ r.
Proof.
  intros Hv Hr. unfold _rewrite_one_url_value. rewrite Hv.
  cbn [Str.is_empty orb]. rewrite startswith_head_neq by done.
  rewrite skip_match_first_char by done.
  destruct (urlsplit_root_relative ok r Hr) as (u & Hu & Hn).
  rewrite (extract_spec ok _ u Hu), Hn.
  rewrite bool_decide_eq_false_2 by (by vm_compute).
  cbv zeta.
  assert (Hs : Str.startswith r "/" = false).
  { destruct r as [|c r]; [done |]. cbn [first_is] in Hr.
    apply orb_false_elim in Hr as [[[H1 H2]%orb_false_elim H3]%orb_false_elim H4].
    cbn [Str.startswith]. by rewrite (Ascii.eqb_sym "/" c), H1. }
  assert (Str.startswith (String "/" r) "//" = false) as ->.
  { cbn [Str.startswith] in *. by rewrite Hs, andb_false_r. }
  rewrite !(startswith_head_neq "h" "/") by done.
  cbn [orb]. assert (Str.startswith (String "/" r) "/" = true) as -> by done.
  by rewrite lstrip_char_one.
Qed.

Lemma root_relative_value_gets_prefix_witness :
  _rewrite_one_url_value accept_all " /img/logo.png?v=2#top" {[ "example.org" ]} "../../"
  = "../../" +:+ "img/logo.png?v=2#top".
Proof.
  apply (root_relative_value_gets_prefix accept_all " /img/logo.png?v=2#top"
           {[ "example.org" ]} "../../" "img/logo.png?v=2#top").
  - vm_compute. reflexivity.
  - reflexivity.
Defined.

(** The scheme step finds no scheme when a slash comes before the first
    colon. *)
Lemma split_scheme_slash_first (a y : string) :
  Str.has_char ":" a = false →
  split_scheme (a +:+ String "/" y) = ("", a +:+ String "/" y).
Proof.
  intros Ha. unfold split_scheme. rewrite split1_app_no_sep by done.
  destruct (split1_shape ":" (String "/" y)) as [[_ ->] | (x & y' & E & Hs & Hx)];
    [done |].
  rewrite E. destruct x as [|d x]; [simpl in Hs; congruence |].
  simpl in Hs. injection Hs as <- _.
  rewrite all_chars_app. cbn [all_chars scheme_char].
  by rewrite !andb_false_r.
Qed.

(** A value that starts with one of the WordPress directories has no
    scheme and no netloc. *)
Lemma urlsplit_maybe_root (ok : string → bool) (v : string) :
  existsb (Str.startswith v) maybe_roots = true →
  (∃ c r, v = String c r ∧ (c = "w" ∨ c = "c")%char)
  ∧ ∃ u, urlsplit ok v = Ok u ∧ netloc u = "".
Proof.
  intros H. unfold maybe_roots in H. cbn [existsb] in H.
  assert (∃ a y, v = a +:+ String "/" y
                 ∧ a ∈ ["wp-content"; "wp-includes"; "wp-json"; "cdn-cgi"])
    as (a & y & -> & Ha).
  { repeat (apply orb_prop in H as [H | H]); try done;
      apply startswith_split in H as [y ->].
    - exists "wp-content", y. split; [done | set_solver].
    - exists "wp-includes", y. split; [done | set_solver].
    - exists "wp-json", y. split; [done | set_solver].
    - exists "cdn-cgi", y. split; [done | set_solver]. }
  assert (Hu : urlsplit ok (a +:+ String "/" y)
               = (let url := a +:+ String "/" (Str.remove_char newline
                                 (Str.remove_char cr (Str.remove_char tab y))) in
                  let '(url0, fragment) := cut "#" url in
                  let '(url1, query) := cut "?" url0 in
                  Ok (Split "" "" url1 query fragment))).
  { unfold urlsplit.
    repeat (apply elem_of_cons in Ha as [-> | Ha]); [| | | |by apply elem_of_nil in Ha];
      cbn [String.append]; rewrite lstrip_by_head, !remove_char_head by done.
    - pose proof (fun y => split_scheme_slash_first "wp-content" y eq_refl) as Hs.
      cbn [String.append] in Hs. by rewrite Hs.
    - pose proof (fun y => split_scheme_slash_first "wp-includes" y eq_refl) as Hs.
      cbn [String.append] in Hs. by rewrite Hs.
    - pose proof (fun y => split_scheme_slash_first "wp-json" y eq_refl) as Hs.
      cbn [String.append] in Hs. by rewrite Hs.
    - pose proof (fun y => split_scheme_slash_first "cdn-cgi" y eq_refl) as Hs.
      cbn [String.append] in Hs. by rewrite Hs. }
  split.
  - repeat (apply elem_of_cons in Ha as [-> | Ha]); [| | | |by apply elem_of_nil in Ha];
      eexists _, _; (split; [reflexivity |]); first [by left | by right].
  - rewrite Hu. cbv zeta.
    destruct (cut "#" _) as [url fragment]. destruct (cut "?" url) as [url' query].
    by eexists.
Qed.

(** X12.  A value that starts with [wp-content/], [wp-includes/],
    [wp-json/] or [cdn-cgi/] is taken as a path from the site root: it
    gets the relative prefix, whatever follows. *)
Theorem wordpress_path_gets_prefix (ok : string → bool) (value : string)
    (ds : gset string) (pre : string) :
  existsb (Str.startswith (Str.strip value)) maybe_roots = true →
  _rewrite_one_url_value ok value ds pre = pre +:+ Str.strip value.
Proof.
  intros H. unfold _rewrite_one_url_value.
  set (v := Str.strip value) in *. clearbody v.
  destruct (urlsplit_maybe_root ok v H) as [(c & r & -> & Hc) (u & Hu & Hn)].
  cbn [Str.is_empty orb].
  rewrite startswith_head_neq by (by destruct Hc as [-> | ->]).
  rewrite skip_match_first_char by (by destruct Hc as [-> | ->]).
  rewrite (extract_spec ok _ u Hu), Hn.
  rewrite bool_decide_eq_false_2 by (by vm_compute).
  cbv zeta.
  rewrite !(startswith_head_neq "/" c) by (by destruct Hc as [-> | ->]).
  rewrite !(startswith_head_neq "h" c) by (by destruct Hc as [-> | ->]).
  cbn [orb]. by rewrite H.
Qed.

Lemma wordpress_path_gets_prefix_witness :
  _rewrite_one_url_value accept_all "wp-content/uploads/a.png" {[ "example.org" ]} "../"
  = "../" +:+ Str.strip "wp-content/uploads/a.png".
Proof.
  apply (wordpress_path_gets_prefix accept_all "wp-content/uploads/a.png"
           {[ "example.org" ]} "../").
  vm_compute. reflexivity.
Defined.

(** ** The matcher, continued *)

Lemma head_flat_map_head {A B} (f : A → list B) (l : list A) (q : A) :
  head l = Some q → is_Some (head (f q)) → head (flat_map f l) = head (f q).
Proof.
  destruct l as [|x l]; [done |]. intros [= ->] [y Hy]. cbn [flat_map].
  by rewrite head_app_nil, Hy.
Qed.

(** The first match of a sequence goes through the first match of its
    first pattern, when the rest matches from there. *)
Lemma head_cat_cons (fl : flags) (r : regex) (rs : list regex) (p q : pos) :
  head (m fl r p) = Some q → is_Some (head (m fl (cat rs) q)) →
  head (m fl (cat (r :: rs)) p) = head (m fl (cat rs) q).
Proof. intros H1 H2. rewrite m_cat_cons. by apply head_flat_map_head. Qed.

Lemma span_le_length (p : ascii → bool) (s : string) :
  (span p s ≤ String.length s)%nat.
Proof. induction s as [|t s IH]; simpl; [done |]. destruct (p t); lia. Qed.

Lemma step_cons (okp : ascii → bool) (b : option ascii) (t : ascii) (s : string)
    (gs : list (nat * string)) :
  step okp (Pos b (String t s) gs) = if okp t then [Pos (Some t) s gs] else [].
Proof. done. Qed.

(** The greedy repetition of one character of a kind takes the whole
    run of such characters, when the run is long enough. *)
Lemma rep_step_span (okp : ascii → bool) (lo : nat) (s : string) :
  ∀ (fuel j : nat) (b : option ascii) (gs : list (nat * string)),
    span okp s < fuel →
    head (rep (step okp) lo None true fuel j (Pos b s gs))
    = if Nat.leb lo (j + span okp s)
      then Some (Pos (before_at b s (span okp s)) (Str.drop (span okp s) s) gs)
      else None.
Proof.
  induction s as [|t s IH]; intros fuel j b gs Hfuel.
  - destruct fuel as [|fuel]; [simpl in Hfuel; lia |].
    simpl. rewrite Nat.add_0_r. by destruct (Nat.leb lo j).
  - destruct fuel as [|fuel]; [simpl in Hfuel; lia |].
    rewrite rep_greedy_unbounded, step_cons. cbn [span].
    destruct (okp t) eqn:E.
    + cbn [flat_map]. unfold shorter. cbn [rest String.length].
      assert (Nat.ltb (String.length s) (S (String.length s)) = true) as ->
        by (apply Nat.ltb_lt; lia).
      rewrite app_nil_r, head_app_nil.
      simpl in Hfuel. rewrite E in Hfuel.
      rewrite IH by lia.
      replace (j + S (span okp s)) with (S j + span okp s) by lia.
      destruct (Nat.leb lo (S j + span okp s)) eqn:L.
      * cbn [Str.drop before_at]. by destruct (span okp s).
      * apply Nat.leb_gt in L.
        assert (Nat.leb lo j = false) as -> by (apply Nat.leb_gt; lia). done.
    + cbn [flat_map app]. rewrite Nat.add_0_r. cbn [Str.drop before_at].
      by destruct (Nat.leb lo j).
Qed.

Lemma span_app (p : ascii → bool) (a s : string) :
  all_chars p a = true → first_is p s = false →
  span p (a +:+ s) = String.length a ∧ Str.drop (String.length a) (a +:+ s) = s.
Proof.
  intros Ha Hs. induction a as [|c a IH]; simpl.
  - split; [|done]. destruct s as [|t s]; [done |]. simpl in *. by rewrite Hs.
  - simpl in Ha. apply andb_prop in Ha as [-> Ha]. destruct (IH Ha) as [-> ->]. done.
Qed.

(** [r+] on a run [a] of the characters that [r] takes, with a character
    after it that [r] does not take *)
Lemma head_plus_run (fl : flags) (okp : ascii → bool) (r : regex) (a s : string)
    (b : option ascii) (gs : list (nat * string)) :
  m fl r = step okp →
  all_chars okp a = true → a ≠ "" → first_is okp s = false →
  ∃ b', head (m fl (plus r) (Pos b (a +:+ s) gs)) = Some (Pos b' s gs).
Proof.
  intros Hr Ha Hne Hs. cbn [m plus rest]. rewrite Hr.
  destruct (span_app okp a s Ha Hs) as [H1 H2].
  rewrite rep_step_span by (pose proof (span_le_length okp (a +:+ s)); lia).
  rewrite H1, H2. cbn [Nat.add].
  destruct a as [|c a]; [done |]. cbn [String.length Nat.leb]. by eexists.
Qed.

(** [r?] takes what [r] takes first. *)
Lemma head_opt_some (fl : flags) (r : regex) (p q : pos) :
  head (m fl r p) = Some q → shorter q p = true →
  head (m fl (opt r) p) = Some q.
Proof.
  intros H Hs. cbn [m opt]. cbn [rep below Nat.ltb Nat.leb].
  destruct (m fl r p) as [|x l]; [done |]. injection H as ->.
  cbn [flat_map]. rewrite Hs.
  destruct (String.length (rest p)) as [|n]; cbn [rep below Nat.ltb Nat.leb]; done.
Qed.

Lemma m_opt_none (fl : flags) (r : regex) (p : pos) :
  m fl r p = [] → m fl (opt r) p = [p].
Proof. intros H. cbn [m opt]. cbn [rep below Nat.ltb Nat.leb]. by rewrite H. Qed.

(** A text matches itself in front of anything. *)
Lemma consume_app (fl : flags) (g s : string) (b : option ascii)
    (gs : list (nat * string)) :
  ∃ b', consume fl g (Pos b (g +:+ s) gs) = [Pos b' s gs].
Proof.
  revert b. induction g as [|c g IH]; intros b; simpl; [by eexists |].
  unfold step. cbn [rest groups].
  assert (chr_eq fl c c = true) as ->.
  { unfold chr_eq. destruct (IGNORECASE fl); apply Ascii.eqb_refl. }
  cbn [flat_map]. rewrite app_nil_r. apply IH.
Qed.

Lemma shorter_cons (b b' : option ascii) (c : ascii) (s : string)
    (gs gs' : list (nat * string)) :
  shorter (Pos b' s gs') (Pos b (String c s) gs) = true.
Proof. unfold shorter. cbn [rest String.length]. apply Nat.ltb_lt. lia. Qed.

(** A sequence that starts with a text, on a subject that starts with
    this text *)
Lemma head_cat_str (fl : flags) (g : string) (rs : list regex) (s : string)
    (b : option ascii) (gs : list (nat * string)) :
  (∀ b', is_Some (head (m fl (cat rs) (Pos b' s gs)))) →
  ∃ b', head (m fl (cat (str g :: rs)) (Pos b (g +:+ s) gs))
        = head (m fl (cat rs) (Pos b' s gs)).
Proof.
  intros H. destruct (consume_app fl g s b gs) as [b' Hc]. exists b'.
  apply head_cat_cons; [by rewrite m_str, Hc | apply H].
Qed.

Lemma all_chars_dot (x : string) :
  Str.has_char newline x = false → all_chars (dot_ok flags_I) x = true.
Proof.
  induction x as [|c x IH]; cbn [Str.has_char all_chars]; [done |].
  intros [H1 H2]%orb_false_elim. rewrite (IH H2), andb_true_r.
  unfold dot_ok. cbn [DOTALL flags_I orb]. by rewrite Ascii.eqb_sym, H1.
Qed.

(** [https?://.+] on a URL without a line break: the whole URL *)
Lemma head_http_url (s x : string) (b : option ascii) (gs : list (nat * string)) :
  s = "" ∨ s = "s" → x ≠ "" → Str.has_char newline x = false →
  ∃ b', head (m flags_I (cat [str "http"; opt (Lit "s"); str "://"; plus Dot])
                (Pos b ("http" +:+ s +:+ "://" +:+ x) gs))
        = Some (Pos b' "" gs).
Proof.
  intros Hs Hx Hnl.
  assert (Hplus : ∀ b1, ∃ b', head (m flags_I (cat [plus Dot]) (Pos b1 x gs))
                                = Some (Pos b' "" gs)).
  { intros b1. rewrite m_cat_one.
    destruct (head_plus_run flags_I (dot_ok flags_I) Dot x "" b1 gs) as [b' H];
      [done | by apply all_chars_dot | done | done |].
    rewrite app_empty_r in H. by exists b'. }
  assert (Hsep : ∀ b1, ∃ b', head (m flags_I (cat [str "://"; plus Dot])
                                     (Pos b1 ("://" +:+ x) gs))
                               = Some (Pos b' "" gs)).
  { intros b1.
    destruct (head_cat_str flags_I "://" [plus Dot] x b1 gs) as [b2 ->].
    - intros b'. destruct (Hplus b') as [b3 ->]. by eexists.
    - apply Hplus. }
  assert (Hopt : ∀ b1, ∃ b', head (m flags_I (cat [opt (Lit "s"); str "://"; plus Dot])
                                     (Pos b1 (s +:+ "://" +:+ x) gs))
                               = Some (Pos b' "" gs)).
  { intros b1. destruct Hs as [-> | ->].
    - rewrite m_cat_cons.
      rewrite (m_opt_none flags_I (Lit "s") (Pos b1 ("" +:+ "://" +:+ x) gs)) by done.
      cbn [flat_map]. rewrite app_nil_r. apply Hsep.
    - destruct (Hsep (Some "s"%char)) as [b' H]. exists b'. rewrite <- H.
      apply head_cat_cons; [|rewrite H; by eexists].
      apply head_opt_some; [done | apply shorter_cons]. }
  destruct (head_cat_str flags_I "http" [opt (Lit "s"); str "://"; plus Dot]
              (s +:+ "://" +:+ x) b gs) as [b2 ->].
  - intros b'. destruct (Hopt b') as [b3 ->]. by eexists.
  - apply Hopt.
Qed.

Lemma all_chars_ext (p q : ascii → bool) (s : string) :
  (∀ c, p c = q c) → all_chars p s = all_chars q s.
Proof. intros H. induction s as [|c s IH]; simpl; [done | by rewrite H, IH]. Qed.

Lemma take_length (s : string) : Str.take (String.length s) s = s.
Proof. induction s as [|c s IH]; simpl; [done | by rewrite IH]. Qed.

(** The path of an archive URL matches [wayback_path_re], and the group
    is the URL it wraps. *)
Lemma wayback_path_match (ts s x : string) :
  all_chars Str.isdigit09 ts = true → ts ≠ "" →
  s = "" ∨ s = "s" → x ≠ "" → Str.has_char newline x = false →
  ∃ q, match_ wayback_path_re ("/web/" +:+ ts +:+ "id_/" +:+ "http" +:+ s +:+ "://" +:+ x)
       = Some q
       ∧ group 1 q = "http" +:+ s +:+ "://" +:+ x.
Proof.
  intros Hts Hne Hs Hx Hnl.
  set (orig := "http" +:+ s +:+ "://" +:+ x).
  unfold match_, run, wayback_path_re, start. cbn [flags_of regex_of].
  (* from the group on *)
  assert (Hgrp : ∀ b1, ∃ q,
            head (m flags_I
                    (cat [Grp 1 (cat [str "http"; opt (Lit "s"); str "://"; plus Dot]); Eol])
                    (Pos b1 orig []))
            = Some q ∧ group 1 q = orig).
  { intros b1. destruct (head_http_url s x b1 [] Hs Hx Hnl) as [b' H].
    exists (Pos b' "" [(1, orig)]). split; [|reflexivity].
    rewrite m_cat_cons. cbn [m]. fold orig. fold orig in H.
    destruct (m flags_I (cat [str "http"; opt (Lit "s"); str "://"; plus Dot])
                (Pos b1 orig [])) as [|q l]; [done |].
    injection H as ->. cbn [map flat_map]. rewrite head_app_nil.
    unfold matched. cbn [rest before groups String.length].
    rewrite Nat.sub_0_r, take_length.
    done. }
  assert (Hslash : ∀ b1, ∃ q,
            head (m flags_I
                    (cat [str "/"; Grp 1 (cat [str "http"; opt (Lit "s"); str "://"; plus Dot]);
                          Eol])
                    (Pos b1 ("/" +:+ orig) []))
            = Some q ∧ group 1 q = orig).
  { intros b1.
    destruct (head_cat_str flags_I "/"
                [Grp 1 (cat [str "http"; opt (Lit "s"); str "://"; plus Dot]); Eol]
                orig b1 []) as [b2 ->].
    - intros b'. destruct (Hgrp b') as (q & -> & _). by eexists.
    - apply Hgrp. }
  set (cls := cls_ok flags_I false [Range "a" "z"; One "_"]).
  assert (Hid : ∀ b1, ∃ q,
            head (m flags_I
                    (cat [opt (plus (Cls false [Range "a" "z"; One "_"])); str "/";
                          Grp 1 (cat [str "http"; opt (Lit "s"); str "://"; plus Dot]);
                          Eol])
                    (Pos b1 ("id_" +:+ "/" +:+ orig) []))
            = Some q ∧ group 1 q = orig).
  { intros b1.
    destruct (head_plus_run flags_I cls (Cls false [Range "a" "z"; One "_"])
                "id_" ("/" +:+ orig) b1 []) as [b2 H]; [done.. |].
    destruct (Hslash b2) as (q & Hq & Hg). exists q. split; [|done].
    rewrite <- Hq. apply head_cat_cons; [|rewrite Hq; by eexists].
    apply head_opt_some; [done |].
    unfold shorter. cbn [rest String.append String.length]. apply Nat.ltb_lt. lia. }
  assert (Hdig : ∀ b1, ∃ q,
            head (m flags_I
                    (cat [plus (Cls false [Digit]);
                          opt (plus (Cls false [Range "a" "z"; One "_"])); str "/";
                          Grp 1 (cat [str "http"; opt (Lit "s"); str "://"; plus Dot]);
                          Eol])
                    (Pos b1 (ts +:+ "id_" +:+ "/" +:+ orig) []))
            = Some q ∧ group 1 q = orig).
  { intros b1.
    destruct (head_plus_run flags_I (cls_ok flags_I false [Digit]) (Cls false [Digit])
                ts ("id_" +:+ "/" +:+ orig) b1 []) as [b2 H]; [done | | done.. |].
    { rewrite <- Hts. apply all_chars_ext. intros c. unfold cls_ok.
      cbn [existsb in_item xorb]. by rewrite orb_false_r. }
    destruct (Hid b2) as (q & Hq & Hg). exists q. split; [|done].
    rewrite <- Hq. apply head_cat_cons; [done | rewrite Hq; by eexists]. }
  destruct (head_cat_str flags_I "/web/"
              [plus (Cls false [Digit]);
               opt (plus (Cls false [Range "a" "z"; One "_"])); str "/";
               Grp 1 (cat [str "http"; opt (Lit "s"); str "://"; plus Dot]); Eol]
              (ts +:+ "id_" +:+ "/" +:+ orig) None []) as [b2 H].
  - intros b'. destruct (Hdig b') as (q & -> & _). by eexists.
  - destruct (Hdig b2) as (q & Hq & Hg). exists q. split; [|done].
    rewrite <- Hq, <- H. rewrite (m_cat_cons flags_I Bol).
    cbn [m before flat_map]. by rewrite app_nil_r.
Qed.

(** ** [urlsplit] on a plain URL *)

Lemma remove_char_none (ch : ascii) (s : string) :
  Str.has_char ch s = false → Str.remove_char ch s = s.
Proof.
  induction s as [|c s IH]; simpl; [done |].
  intros [H1 H2]%orb_false_elim. rewrite Ascii.eqb_sym, H1. by rewrite IH.
Qed.

Lemma all_chars_has_char (p : ascii → bool) (ch : ascii) (s : string) :
  p ch = false → all_chars p s = true → Str.has_char ch s = false.
Proof.
  intros Hch. induction s as [|c s IH]; simpl; [done |].
  intros [H1 H2]%andb_prop. rewrite (IH H2), orb_false_r.
  apply Ascii.eqb_neq. intros ->. congruence.
Qed.

Lemma all_chars_impl (p q : ascii → bool) (s : string) :
  (∀ c, p c = true → q c = true) → all_chars p s = true → all_chars q s = true.
Proof.
  intros H. induction s as [|c s IH]; simpl; [done |].
  intros [H1 H2]%andb_prop. by rewrite (H c H1), IH.
Qed.

Lemma split1_sep_first (sep : ascii) (x y : string) :
  Str.has_char sep x = false → Str.split1 sep (x +:+ String sep y) = [x; y].
Proof.
  intros Hx. rewrite split1_app_no_sep by done. simpl.
  by rewrite Ascii.eqb_refl, app_empty_r.
Qed.

Lemma splitnetloc_host (host y : string) :
  all_chars host_char host = true →
  splitnetloc (host +:+ String "/" y) = (host, String "/" y).
Proof.
  induction host as [|c host IH]; simpl; [done |].
  intros [H1 H2]%andb_prop. rewrite (IH H2).
  unfold host_char, plain_char in H1.
  destruct (netloc_delim c) eqn:E; [|done].
  unfold netloc_delim in E.
  destruct (Ascii.eqb c "/"), (Ascii.eqb c "?"), (Ascii.eqb c "#");
    simpl in *; try done; by rewrite ?andb_false_r in H1.
Qed.

Lemma host_char_plain (c : ascii) : host_char c = true → plain_char c = true.
Proof. unfold host_char. by intros [[[? _]%andb_prop _]%andb_prop _]%andb_prop. Qed.

Lemma plain_char_not (c : ascii) :
  Str.isspace c = true ∨ c = "?"%char ∨ c = "#"%char → plain_char c = false.
Proof.
  unfold plain_char. intros [H | [-> | ->]]; [|done..]. by rewrite H.
Qed.

(** A URL of [http] or [https] with a plain host and a plain path has no
    query and no fragment, and [urlsplit] reads it as it stands. *)
Lemma urlsplit_plain (ok : string → bool) (s host p : string) :
  s = "" ∨ s = "s" →
  all_chars host_char host = true → all_chars plain_char p = true →
  urlsplit ok ("http" +:+ s +:+ "://" +:+ host +:+ "/" +:+ p)
  = Ok (Split ("http" +:+ s) host ("/" +:+ p) "" "").
Proof.
  intros Hs Hhost Hp.
  assert (Hall : all_chars plain_char ("http" +:+ s +:+ "://" +:+ host +:+ "/" +:+ p)
                 = true).
  { rewrite !all_chars_app, Hp, (all_chars_impl _ _ _ host_char_plain Hhost).
    by destruct Hs as [-> | ->]. }
  assert (Hno : ∀ ch, plain_char ch = false →
            Str.has_char ch ("http" +:+ s +:+ "://" +:+ host +:+ "/" +:+ p) = false).
  { intros ch Hch. by apply (all_chars_has_char plain_char). }
  unfold urlsplit.
  assert (Str.lstrip_by c0_or_space ("http" +:+ s +:+ "://" +:+ host +:+ "/" +:+ p)
          = "http" +:+ s +:+ "://" +:+ host +:+ "/" +:+ p) as -> by done.
  rewrite (remove_char_none tab), (remove_char_none cr), (remove_char_none newline)
    by (apply Hno; done).
  assert (split_scheme ("http" +:+ s +:+ "://" +:+ host +:+ "/" +:+ p)
          = ("http" +:+ s, "//" +:+ host +:+ "/" +:+ p)) as ->.
  { unfold split_scheme.
    replace ("http" +:+ s +:+ "://" +:+ host +:+ "/" +:+ p)
      with (("http" +:+ s) +:+ String ":" ("//" +:+ host +:+ "/" +:+ p))
      by (by destruct Hs as [-> | ->]).
    rewrite split1_sep_first by (by destruct Hs as [-> | ->]).
    by destruct Hs as [-> | ->]. }
  assert (Str.startswith ("//" +:+ host +:+ "/" +:+ p) "//" = true) as -> by done.
  assert (Str.drop 2 ("//" +:+ host +:+ "/" +:+ p) = host +:+ String "/" p) as -> by done.
  rewrite splitnetloc_host by done.
  assert (Hb : ∀ ch, host_char ch = false → Str.has_char ch host = false).
  { intros ch Hch. by apply (all_chars_has_char host_char). }
  rewrite !Hb by done. cbn [andb orb negb mbind result_bind rbind].
  rewrite (cut_no "#"), (cut_no "?"); [done | |].
  - cbn [Str.has_char]. apply (all_chars_has_char plain_char); done.
  - cbn [Str.has_char]. apply (all_chars_has_char plain_char); done.
Qed.

Lemma isdigit_plain (c : ascii) : Str.isdigit09 c = true → plain_char c = true.
Proof.
  destruct c as [[] [] [] [] [] [] [] []]; vm_compute; intros H;
    first [reflexivity | discriminate H].
Qed.

Lemma plain_no_newline (x : string) :
  all_chars plain_char x = true → Str.has_char newline x = false.
Proof. by apply all_chars_has_char. Qed.

Lemma archive_url_unwraps (ok : string → bool) (rec : CdxRecord) (s x : string) :
  timestamp rec ≠ "" → all_chars Str.isdigit09 (timestamp rec) = true →
  s = "" ∨ s = "s" → original rec = "http" +:+ s +:+ "://" +:+ x → x ≠ "" →
  all_chars plain_char x = true →
  _extract_original_from_wayback ok (archived_url rec) = Some (original rec).
Proof.
  intros Hne Hts Hs Ho Hx Hp.
  assert (Hu : urlsplit ok (archived_url rec)
               = Ok (Split "https" "web.archive.org"
                       ("/web/" +:+ timestamp rec +:+ "id_/" +:+ original rec) "" "")).
  { apply (urlsplit_plain ok "s" "web.archive.org"
             ("web/" +:+ timestamp rec +:+ "id_/" +:+ original rec));
      [by right | done |].
    rewrite !all_chars_app, (all_chars_impl _ _ _ isdigit_plain Hts), Ho.
    rewrite !all_chars_app, Hp. by destruct Hs as [-> | ->]. }
  rewrite (extract_spec ok _ _ Hu). cbn [netloc path].
  rewrite bool_decide_eq_true_2 by (by vm_compute; set_solver).
  rewrite Ho.
  destruct (wayback_path_match (timestamp rec) s x Hts Hne Hs Hx
              (plain_no_newline x Hp)) as (q & -> & ->).
  done.
Qed.

(** X13.  The archive URL that [main] builds for a record is an archive
    wrapper of the record's URL: [_extract_original_from_wayback] gives
    the URL back. *)
Theorem archive_url_unwraps_to_original (ok : string → bool) (rec : CdxRecord)
    (x : string) :
  timestamp rec ≠ "" → all_chars Str.isdigit09 (timestamp rec) = true →
  original rec = "http://" +:+ x ∨ original rec = "https://" +:+ x →
  x ≠ "" → all_chars plain_char x = true →
  _extract_original_from_wayback ok (archived_url rec) = Some (original rec).
Proof.
  intros Hne Hts [Ho | Ho] Hx Hp.
  - by apply (archive_url_unwraps ok rec "" x); [| | left | | |].
  - by apply (archive_url_unwraps ok rec "s" x); [| | right | | |].
Qed.

Lemma archive_url_unwraps_to_original_witness :
  _extract_original_from_wayback accept_all
    (archived_url (Cdx "20200101120000" "http://example.org:80/a/b.css" "text/css" "200"))
  = Some "http://example.org:80/a/b.css".
Proof.
  apply (archive_url_unwraps_to_original accept_all
           (Cdx "20200101120000" "http://example.org:80/a/b.css" "text/css" "200")
           "example.org:80/a/b.css").
  - discriminate.
  - reflexivity.
  - by left.
  - discriminate.
  - reflexivity.
Defined.

Lemma lstrip_by_none (p : ascii → bool) (s : string) :
  all_chars (fun c => negb (p c)) s = true → Str.lstrip_by p s = s.
Proof.
  destruct s as [|c s]; simpl; [done |]. intros [H _]%andb_prop.
  apply negb_true_iff in H. by rewrite H.
Qed.

Lemma rstrip_by_none (p : ascii → bool) (s : string) :
  all_chars (fun c => negb (p c)) s = true → Str.rstrip_by p s = s.
Proof.
  induction s as [|c s IH]; simpl; [done |]. intros [H1 H2]%andb_prop.
  rewrite (IH H2). apply negb_true_iff in H1. rewrite H1. by destruct s.
Qed.

Lemma strip_visible (s : string) : all_chars visible_char s = true → Str.strip s = s.
Proof.
  intros H. unfold Str.strip. by rewrite lstrip_by_none, rstrip_by_none.
Qed.

Lemma plain_visible (c : ascii) : plain_char c = true → visible_char c = true.
Proof. unfold plain_char. by intros [[? _]%andb_prop _]%andb_prop. Qed.

Lemma query_visible (c : ascii) : query_char c = true → visible_char c = true.
Proof. unfold query_char. by intros [? _]%andb_prop. Qed.

Lemma all_chars_marked (p : ascii → bool) (mark : ascii) (x : string) :
  p mark = true → all_chars p x = true → all_chars p (marked mark x) = true.
Proof. intros Hm Hx. unfold marked. destruct x; [done |]. cbn in *. by rewrite Hm. Qed.

Lemma cut_marked (mark : ascii) (a x : string) :
  Str.has_char mark a = false → cut mark (a +:+ marked mark x) = (a, x).
Proof.
  intros Ha. unfold marked. destruct x as [|c x]; cbn [Str.is_empty].
  - rewrite app_empty_r. by apply cut_no.
  - rewrite cut_app_no, cut_head by done. cbn [fst snd]. by rewrite app_empty_r.
Qed.

(** [urlsplit] on a URL of [http] or [https] that is written without
    white space: the parts are the ones it was put together from. *)
Lemma urlsplit_parts (ok : string → bool) (s host p q f : string) :
  s = "" ∨ s = "s" →
  all_chars host_char host = true → all_chars plain_char p = true →
  all_chars query_char q = true → all_chars visible_char f = true →
  urlsplit ok ("http" +:+ s +:+ "://" +:+ host +:+ "/" +:+ p +:+ marked "?" q
               +:+ marked "#" f)
  = Ok (Split ("http" +:+ s) host ("/" +:+ p) q f).
Proof.
  intros Hs Hhost Hp Hq Hf.
  set (t := p +:+ marked "?" q +:+ marked "#" f).
  assert (Hall : all_chars visible_char ("http" +:+ s +:+ "://" +:+ host +:+ "/" +:+ t)
                 = true).
  { subst t. rewrite !all_chars_app.
    rewrite (all_chars_impl _ _ _ plain_visible Hp).
    rewrite (all_chars_impl _ _ _ (fun c H => plain_visible c (host_char_plain c H)) Hhost).
    rewrite (all_chars_marked visible_char "?" q eq_refl
               (all_chars_impl _ _ _ query_visible Hq)).
    rewrite (all_chars_marked visible_char "#" f eq_refl Hf).
    by destruct Hs as [-> | ->]. }
  assert (Hno : ∀ ch, visible_char ch = false →
            Str.has_char ch ("http" +:+ s +:+ "://" +:+ host +:+ "/" +:+ t) = false).
  { intros ch Hch. by apply (all_chars_has_char visible_char). }
  unfold urlsplit.
  assert (Str.lstrip_by c0_or_space ("http" +:+ s +:+ "://" +:+ host +:+ "/" +:+ t)
          = "http" +:+ s +:+ "://" +:+ host +:+ "/" +:+ t) as -> by done.
  rewrite (remove_char_none tab), (remove_char_none cr), (remove_char_none newline)
    by (apply Hno; done).
  assert (split_scheme ("http" +:+ s +:+ "://" +:+ host +:+ "/" +:+ t)
          = ("http" +:+ s, "//" +:+ host +:+ "/" +:+ t)) as ->.
  { unfold split_scheme.
    replace ("http" +:+ s +:+ "://" +:+ host +:+ "/" +:+ t)
      with (("http" +:+ s) +:+ String ":" ("//" +:+ host +:+ "/" +:+ t))
      by (by destruct Hs as [-> | ->]).
    rewrite split1_sep_first by (by destruct Hs as [-> | ->]).
    by destruct Hs as [-> | ->]. }
  assert (Str.startswith ("//" +:+ host +:+ "/" +:+ t) "//" = true) as -> by done.
  assert (Str.drop 2 ("//" +:+ host +:+ "/" +:+ t) = host +:+ String "/" t) as -> by done.
  rewrite splitnetloc_host by done.
  assert (Hb : ∀ ch, host_char ch = false → Str.has_char ch host = false).
  { intros ch Hch. by apply (all_chars_has_char host_char). }
  rewrite !Hb by done. cbn [andb orb negb mbind result_bind rbind].
  subst t.
  replace (String "/" (p +:+ marked "?" q +:+ marked "#" f))
    with ((("/" +:+ p) +:+ marked "?" q) +:+ marked "#" f)
    by (by rewrite !app_assoc_str).
  rewrite cut_marked.
  - rewrite cut_marked; [done |]. cbn [String.append Str.has_char].
    apply (all_chars_has_char plain_char); done.
  - rewrite has_char_app. cbn [String.append Str.has_char orb].
    rewrite (all_chars_has_char plain_char "#" p eq_refl Hp).
    unfold marked. destruct q as [|c q]; [done |]. cbn [Str.is_empty].
    apply (all_chars_has_char query_char); [done |].
    cbn [all_chars] in *. by rewrite Hq.
Qed.

Lemma rebuild_parts (pre sch host p q f : string) :
  rebuild pre (Split sch host ("/" +:+ p) q f)
  = pre +:+ p +:+ marked "?" q +:+ marked "#" f.
Proof.
  unfold rebuild, marked. cbn [path query fragment Str.or_else String.append
    Str.startswith Ascii.eqb Bool.eqb andb Str.drop].
  destruct q as [|c q], f as [|d f]; cbn [Str.is_empty];
    by rewrite ?app_empty_r, ?app_assoc_str.
Qed.

(** X14.  An absolute URL in the domain scope becomes the relative
    prefix followed by what the URL has after the slash that ends its
    host: the path, the query and the fragment, as they are written. *)
Theorem in_scope_url_keeps_path_query_fragment (ok : string → bool)
    (s host p q f : string) (ds : gset string) (pre : string) :
  s = "" ∨ s = "s" →
  all_chars host_char host = true → all_chars plain_char p = true →
  all_chars query_char q = true → all_chars visible_char f = true →
  Str.lower host ∈ ds → Str.lower host ∉ wayback_hosts →
  _rewrite_one_url_value ok
    ("http" +:+ s +:+ "://" +:+ host +:+ "/" +:+ p +:+ marked "?" q +:+ marked "#" f)
    ds pre
  = pre +:+ p +:+ marked "?" q +:+ marked "#" f.
Proof.
  intros Hs Hhost Hp Hq Hf Hds Hway.
  pose proof (urlsplit_parts ok s host p q f Hs Hhost Hp Hq Hf) as Hu.
  set (value := "http" +:+ s +:+ "://" +:+ host +:+ "/" +:+ p +:+ marked "?" q
                +:+ marked "#" f) in *.
  assert (Hv : Str.strip value = value).
  { apply strip_visible. subst value. rewrite !all_chars_app.
    rewrite (all_chars_impl _ _ _ plain_visible Hp).
    rewrite (all_chars_impl _ _ _ (fun c H => plain_visible c (host_char_plain c H)) Hhost).
    rewrite (all_chars_marked visible_char "?" q eq_refl
               (all_chars_impl _ _ _ query_visible Hq)).
    rewrite (all_chars_marked visible_char "#" f eq_refl Hf).
    by destruct Hs as [-> | ->]. }
  assert (Habs : Str.startswith value "http://" || Str.startswith value "https://" = true).
  { subst value. by destruct Hs as [-> | ->]. }
  unfold _rewrite_one_url_value. rewrite Hv.
  destruct (absolute_first_char value Habs) as [r Hr].
  rewrite Hr. cbn [Str.is_empty orb]. rewrite startswith_head_neq by done.
  rewrite skip_match_first_char by done. rewrite <- Hr.
  rewrite (extract_spec ok _ _ Hu). cbn [netloc].
  rewrite bool_decide_eq_false_2 by done. cbv zeta.
  assert (Str.startswith value "//" = false) as -> by (by rewrite Hr).
  rewrite Habs. unfold rewrite_absolute. rewrite Hu. cbn [netloc].
  rewrite bool_decide_eq_true_2 by done. apply rebuild_parts.
Qed.

Lemma in_scope_url_keeps_path_query_fragment_witness :
  _rewrite_one_url_value accept_all
    ("http" +:+ "s" +:+ "://" +:+ "Example.org" +:+ "/" +:+ "shop/item" +:+ marked "?" "id=7&x=?"
     +:+ marked "#" "top")
    {[ "example.org" ]} "../"
  = "../" +:+ "shop/item" +:+ marked "?" "id=7&x=?" +:+ marked "#" "top".
Proof.
  apply (in_scope_url_keeps_path_query_fragment accept_all "s" "Example.org" "shop/item"
           "id=7&x=?" "top" {[ "example.org" ]} "../").
  - by right.
  - reflexivity.
  - reflexivity.
  - reflexivity.
  - reflexivity.
  - vm_compute. set_solver.
  - vm_compute. set_solver.
Defined.

Lemma archived_url_visible (rec : CdxRecord) :
  all_chars Str.isdigit09 (timestamp rec) = true →
  all_chars plain_char (original rec) = true →
  all_chars visible_char (archived_url rec) = true.
Proof.
  intros Hts Ho. unfold archived_url, WAYBACK_BASE. rewrite !all_chars_app.
  rewrite (all_chars_impl _ _ _ plain_visible Ho).
  rewrite (all_chars_impl _ _ _ (fun c H => plain_visible c (isdigit_plain c H)) Hts).
  done.
Qed.

(** X15.  A link to the archive copy of a page in the domain scope is
    rewritten like a link to the page itself, when the URL of the page
    has no query and no fragment. *)
Theorem archive_link_rewrites_like_original (ok : string → bool) (rec : CdxRecord)
    (x : string) (u : SplitResult) (ds : gset string) (pre : string) :
  timestamp rec ≠ "" → all_chars Str.isdigit09 (timestamp rec) = true →
  original rec = "http://" +:+ x ∨ original rec = "https://" +:+ x →
  x ≠ "" → all_chars plain_char x = true →
  urlsplit ok (original rec) = Ok u →
  Str.lower (netloc u) ∈ ds → Str.lower (netloc u) ∉ wayback_hosts →
  _rewrite_one_url_value ok (archived_url rec) ds pre
  = _rewrite_one_url_value ok (original rec) ds pre.
Proof.
  intros Hne Hts Ho Hx Hp Hu Hds Hway.
  assert (Hplain : all_chars plain_char (original rec) = true).
  { destruct Ho as [-> | ->]; rewrite all_chars_app, Hp; done. }
  assert (Habs : Str.startswith (original rec) "http://"
                 || Str.startswith (original rec) "https://" = true).
  { destruct Ho as [-> | ->]; [by rewrite startswith_app |].
    by rewrite (startswith_app "https://"), orb_true_r. }
  assert (Hext : _extract_original_from_wayback ok (archived_url rec)
                 = Some (original rec)).
  { destruct Ho as [Ho | Ho].
    - by apply (archive_url_unwraps ok rec "" x); [| | left | | |].
    - by apply (archive_url_unwraps ok rec "s" x); [| | right | | |]. }
  destruct (absolute_first_char _ Habs) as [r Hr].
  assert (Hright : _rewrite_one_url_value ok (original rec) ds pre = rebuild pre u).
  { unfold _rewrite_one_url_value.
    rewrite (strip_visible _ (all_chars_impl _ _ _ plain_visible Hplain)).
    rewrite Hr. cbn [Str.is_empty orb]. rewrite startswith_head_neq by done.
    rewrite skip_match_first_char by done. rewrite <- Hr.
    rewrite (extract_spec ok _ _ Hu).
    rewrite bool_decide_eq_false_2 by done. cbv zeta.
    assert (Str.startswith (original rec) "//" = false) as -> by (by rewrite Hr).
    rewrite Habs. unfold rewrite_absolute. rewrite Hu.
    by rewrite bool_decide_eq_true_2. }
  rewrite Hright. unfold _rewrite_one_url_value.
  rewrite (strip_visible _ (archived_url_visible rec Hts Hplain)).
  rewrite Hext.
  assert (∃ r', archived_url rec = String "h" r') as [r' Hr'] by by eexists.
  rewrite Hr'. cbn [Str.is_empty orb]. rewrite startswith_head_neq by done.
  rewrite skip_match_first_char by done.
  assert (Str.is_empty (original rec) = false) as -> by (by rewrite Hr).
  cbv zeta.
  assert (Str.startswith (original rec) "//" = false) as -> by (by rewrite Hr).
  rewrite Habs. unfold rewrite_absolute. rewrite Hu.
  by rewrite bool_decide_eq_true_2.
Qed.

Lemma archive_link_rewrites_like_original_witness :
  let rec := Cdx "20200101120000" "http://example.org/a/b.css" "text/css" "200" in
  _rewrite_one_url_value accept_all (archived_url rec) {[ "example.org" ]} "../"
  = _rewrite_one_url_value accept_all (original rec) {[ "example.org" ]} "../".
Proof.
  intros rec.
  apply (archive_link_rewrites_like_original accept_all rec "example.org/a/b.css"
           (Split "http" "example.org" "/a/b.css" "" "") {[ "example.org" ]} "../").
  - discriminate.
  - reflexivity.
  - by left.
  - discriminate.
  - reflexivity.
  - vm_compute. reflexivity.
  - vm_compute. set_solver.
  - vm_compute. set_solver.
Defined.

(** ** What a match needs in the subject *)

(** A match never goes backwards: where it ends is a suffix of where it
    started. *)
Lemma step_rest (okp : ascii → bool) (p q : pos) :
  In q (step okp p) → ∃ a, rest p = a +:+ rest q.
Proof.
  unfold step. destruct (rest p) as [|t s] eqn:E; [done |].
  destruct (okp t); [|done]. intros [<- | []]. by exists (String t "").
Qed.

Lemma consume_rest (fl : flags) (g : string) :
  ∀ p q, In q (consume fl g p) → ∃ a, rest p = a +:+ rest q.
Proof.
  induction g as [|c g IH]; intros p q; cbn [consume].
  - intros [<- | []]. by exists "".
  - intros (q1 & H1 & H2)%in_flat_map.
    apply step_rest in H1 as [a1 ->]. apply IH in H2 as [a2 ->].
    exists (a1 +:+ a2). by rewrite app_assoc_str.
Qed.

Lemma rep_rest (body : pos → list pos) (lo : nat) (hi : option nat) (greedy : bool) :
  (∀ p q, In q (body p) → ∃ a, rest p = a +:+ rest q) →
  ∀ fuel k p q, In q (rep body lo hi greedy fuel k p) → ∃ a, rest p = a +:+ rest q.
Proof.
  intros Hbody. induction fuel as [|fuel IH]; intros k p q; cbn [rep].
  - destruct (Nat.leb lo k); [|done]. intros [<- | []]. by exists "".
  - intros H.
    assert (In q (if Nat.leb lo k then [p] else [])
            ∨ In q (if below hi k
                    then flat_map (fun q0 => if shorter q0 p
                                             then rep body lo hi greedy fuel (S k) q0
                                             else []) (body p)
                    else [])) as [H1 | H1].
    { destruct greedy; apply in_app_iff in H; tauto. }
    + destruct (Nat.leb lo k); [|done]. destruct H1 as [<- | []]. by exists "".
    + destruct (below hi k); [|done].
      apply in_flat_map in H1 as (q1 & H1 & H2).
      destruct (shorter q1 p); [|done].
      apply Hbody in H1 as [a1 ->]. apply IH in H2 as [a2 ->].
      exists (a1 +:+ a2). by rewrite app_assoc_str.
Qed.

Lemma m_rest (fl : flags) (r : regex) :
  ∀ p q, In q (m fl r p) → ∃ a, rest p = a +:+ rest q.
Proof.
  induction r as [| c | | neg items | r1 IH1 r2 IH2 | r1 IH1 r2 IH2
                 | r IH lo hi greedy | n r IH | n | | |]; intros p q; cbn [m].
  - intros [<- | []]. by exists "".
  - apply step_rest.
  - apply step_rest.
  - apply step_rest.
  - intros (q1 & H1 & H2)%in_flat_map.
    apply IH1 in H1 as [a1 ->]. apply IH2 in H2 as [a2 ->].
    exists (a1 +:+ a2). by rewrite app_assoc_str.
  - intros [H | H]%in_app_iff; [by apply IH1 | by apply IH2].
  - by apply rep_rest.
  - intros (q1 & <- & H)%in_map_iff. cbn [rest]. by apply IH.
  - destruct (lookup_group n (groups p)); [apply consume_rest | done].
  - destruct (before p); [done |]. intros [<- | []]. by exists "".
  - destruct (_ || _); [|done]. intros [<- | []]. by exists "".
  - destruct (xorb _ _); [|done]. intros [<- | []]. by exists "".
Qed.

(** [s] holds [g] somewhere, up to letter case. *)
Lemma contains_lower_app (g a b : string) :
  Str.lower g = g → prefix_ci g b = true → Str.contains (Str.lower (a +:+ b)) g = true.
Proof.
  intros Hg Hb. rewrite lower_app. apply contains_intro.
  by rewrite startswith_lower.
Qed.

Lemma consume_flags (fl : flags) (g : string) :
  IGNORECASE fl = true → ∀ p, consume fl g p = consume flags_I g p.
Proof.
  intros Hfl. induction g as [|c g IH]; intros p; cbn [consume]; [done |].
  assert (chr_eq fl c = chr_eq flags_I c) as ->.
  { unfold chr_eq. by rewrite Hfl. }
  apply flat_map_ext. intros q. apply IH.
Qed.

Lemma consume_nonempty (fl : flags) (g : string) (p : pos) :
  IGNORECASE fl = true → consume fl g p ≠ [] → prefix_ci g (rest p) = true.
Proof.
  intros Hfl H. rewrite consume_flags in H by done.
  destruct p as [b s gs]. pose proof (consume_ci g b s gs) as Hc.
  cbn [rest]. by destruct (prefix_ci g s).
Qed.

Lemma flat_map_nonempty {A B} (f : A → list B) (l : list A) :
  flat_map f l ≠ [] → ∃ x, In x l ∧ f x ≠ [].
Proof.
  induction l as [|x l IH]; cbn [flat_map]; [done |].
  destruct (f x) as [|y ys] eqn:E.
  - intros H. destruct (IH H) as (x' & ? & ?). exists x'. split; [by right | done].
  - intros _. exists x. split; [by left | by rewrite E].
Qed.

(** A sequence that holds the text [g] matches only where [g] is found,
    up to letter case. *)
Lemma cat_needs (fl : flags) (g : string) (rs1 rs2 : list regex) :
  IGNORECASE fl = true → Str.lower g = g →
  ∀ p, m fl (cat (rs1 ++ str g :: rs2)) p ≠ [] →
       Str.contains (Str.lower (rest p)) g = true.
Proof.
  intros Hfl Hg. induction rs1 as [|r rs1 IH]; intros p; cbn [app];
    rewrite m_cat_cons; intros (q & H1 & H2)%flat_map_nonempty.
  - rewrite m_str in H1.
    assert (consume fl g p ≠ []) as Hc by (by destruct (consume fl g p)).
    apply consume_nonempty in Hc; [|done].
    exact (contains_lower_app g "" (rest p) Hg Hc).
  - apply m_rest in H1 as [a ->]. apply IH in H2.
    rewrite lower_app. clear -H2.
    induction (Str.lower a) as [|c a' IHa]; [done |].
    cbn [String.append Str.contains]. by rewrite IHa, orb_true_r.
Qed.

Lemma contains_tail (c : ascii) (s g : string) :
  Str.contains (String c s) g = false → Str.contains s g = false.
Proof. cbn [Str.contains]. by intros [_ ?]%orb_false_elim. Qed.

Lemma search_needs (pt : pattern) (g : string) (rs1 rs2 : list regex) :
  IGNORECASE (flags_of pt) = true → Str.lower g = g →
  regex_of pt = cat (rs1 ++ str g :: rs2) →
  ∀ s b, Str.contains (Str.lower s) g = false → search_at pt b s = None.
Proof.
  intros Hfl Hg Hr. induction s as [|c s IH]; intros b Hs; rewrite search_at_eq.
  - unfold run. rewrite Hr.
    destruct (m (flags_of pt) (cat (rs1 ++ str g :: rs2)) (Pos b "" [])) eqn:E; [done |].
    assert (Str.contains (Str.lower "") g = true) as Hc.
    { apply (cat_needs _ g rs1 rs2 Hfl Hg (Pos b "" [])). by rewrite E. }
    congruence.
  - unfold run. rewrite Hr.
    destruct (m (flags_of pt) (cat (rs1 ++ str g :: rs2)) (Pos b (String c s) []))
      eqn:E.
    + cbn [head]. apply IH. cbn [Str.lower] in Hs. by apply contains_tail in Hs.
    + assert (Str.contains (Str.lower (String c s)) g = true) as Hc.
      { apply (cat_needs _ g rs1 rs2 Hfl Hg (Pos b (String c s) [])). by rewrite E. }
      congruence.
Qed.

(** If [s] does not hold a part of [g], it does not hold [g]. *)
Lemma startswith_app_l (s a b : string) :
  Str.startswith s (a +:+ b) = true → Str.startswith s a = true.
Proof.
  revert s. induction a as [|c a IH]; intros s; [done |].
  destruct s as [|t s]; cbn [String.append Str.startswith]; [done |].
  intros [-> H]%andb_prop. by rewrite (IH s H).
Qed.

Lemma contains_app_l (s a b : string) :
  Str.contains s a = false → Str.contains s (a +:+ b) = false.
Proof.
  induction s as [|t s IH]; cbn [Str.contains].
  - rewrite !orb_false_r. intros H. apply not_true_is_false. intros E.
    apply startswith_app_l in E. congruence.
  - intros [H1 H2]%orb_false_elim. rewrite (IH H2), orb_false_r.
    apply not_true_is_false. intros E. apply startswith_app_l in E. congruence.
Qed.

Lemma startswith_drop (s a b : string) :
  Str.startswith s (a +:+ b) = true → Str.startswith (Str.drop (String.length a) s) b = true.
Proof.
  revert s. induction a as [|c a IH]; intros s; [by destruct s |].
  destruct s as [|t s]; cbn [String.append Str.startswith]; [done |].
  intros [_ H]%andb_prop. by apply IH.
Qed.

Lemma contains_drop (n : nat) (s g : string) :
  Str.contains s g = false → Str.contains (Str.drop n s) g = false.
Proof.
  revert s. induction n as [|n IH]; intros s; [by destruct s |].
  destruct s as [|t s]; [done |]. cbn [Str.drop]. intros H.
  apply IH. by apply contains_tail in H.
Qed.

Lemma contains_app_r (s a b : string) :
  Str.contains s b = false → Str.contains s (a +:+ b) = false.
Proof.
  intros Hb.
  assert (Hs : ∀ s', Str.contains s' b = false → Str.startswith s' (a +:+ b) = false).
  { intros s' H. apply not_true_is_false. intros E. apply startswith_drop in E.
    apply (contains_drop (String.length a)) in H.
    destruct (Str.drop (String.length a) s'); cbn [Str.contains] in H;
      apply orb_false_elim in H as [H _]; congruence. }
  induction s as [|t s IH]; cbn [Str.contains].
  - by rewrite (Hs "" Hb).
  - rewrite (Hs _ Hb). apply IH. by apply contains_tail in Hb.
Qed.

(** X16.  A page that does not hold the text [age-gate], in any letter
    case, loses nothing: [strip_age_gate_html] only cuts every run of
    newlines down to three of them. *)
Theorem page_without_age_gate_is_kept (html : string) :
  Str.contains (Str.lower html) "age-gate" = false →
  strip_age_gate_html html = collapse_blank_lines html.
Proof.
  intros H. unfold strip_age_gate_html, sub_text.
  rewrite (sub_no_match _AG_RE_TEMPLATE).
  2:{ apply (search_needs _ "tmpl-age-gate"
               [str "<template"; plus ws; str "id="; Lit dquote]
               [Lit dquote; star ws; str ">"; lazy_star Dot; str "</template>"; star ws]);
        [done.. |]. by apply (contains_app_r _ "tmpl-" "age-gate"). }
  rewrite (sub_no_match _AG_RE_STYLE_ID).
  2:{ apply (search_needs _ "age-gate-"
               [str "<style"; WordB; star not_gt; WordB; str "id="; _AG_QUOTE]
               [lazy_star not_gt; _AG_QUOTE; star not_gt; str ">";
                lazy_star Dot; str "</style>"; star ws]); [done.. |].
      by apply (contains_app_l _ "age-gate" "-"). }
  rewrite (sub_no_match _AG_RE_LINK_ID).
  2:{ apply (search_needs _ "age-gate-css"
               [str "<link"; WordB; star not_gt; WordB; str "id="; _AG_QUOTE]
               [_AG_QUOTE; star not_gt; str ">"; star ws]); [done.. |].
      by apply (contains_app_l _ "age-gate" "-css"). }
  rewrite (sub_no_match _AG_RE_SCRIPT_ID).
  2:{ apply (search_needs _ "age-gate-"
               [str "<script"; WordB; star not_gt; WordB; str "id="; _AG_QUOTE]
               [lazy_star not_gt; _AG_QUOTE; star not_gt; str ">";
                lazy_star Dot; str "</script>"; star ws]); [done.. |].
      by apply (contains_app_l _ "age-gate" "-"). }
  rewrite (sub_no_match _AG_RE_ANY_SCRIPT_ASSET).
  2:{ apply (search_needs _ "wp-content/plugins/age-gate/"
               [str "<script"; WordB; star not_gt; WordB; str "src="; dq_class;
                star not_dq]
               [star not_dq; dq_class; star not_gt; str ">"; lazy_star Dot;
                str "</script>"; star ws]); [done.. |].
      apply (contains_app_r _ "wp-content/plugins/" "age-gate/").
      by apply (contains_app_l _ "age-gate" "/"). }
  rewrite (sub_no_match _AG_RE_ANY_LINK_ASSET).
  2:{ apply (search_needs _ "wp-content/plugins/age-gate/"
               [str "<link"; WordB; star not_gt; WordB; str "href="; dq_class;
                star not_dq]
               [star not_dq; dq_class; star not_gt; str ">"; star ws]); [done.. |].
      apply (contains_app_r _ "wp-content/plugins/" "age-gate/").
      by apply (contains_app_l _ "age-gate" "/"). }
  rewrite (sub_no_match _AG_RE_CUSTOM_CSS_BLOCK).
  2:{ apply (search_needs _ ".age-gate-submit-no" [star ws]
               [star ws; str ","; star ws; str ".age-gate-submit-yes"; star ws;
                str "{"; lazy_star Dot; str "}"; star ws]); [done.. |].
      apply (contains_app_r _ "." "age-gate-submit-no").
      by apply (contains_app_l _ "age-gate" "-submit-no"). }
  apply (sub_text_long_run newline 3).
Qed.

Lemma page_without_age_gate_is_kept_witness :
  strip_age_gate_html ("<p>Gate</p>" +:+ NL +:+ NL +:+ NL +:+ NL +:+ NL +:+ "<p>age</p>")
  = collapse_blank_lines
      ("<p>Gate</p>" +:+ NL +:+ NL +:+ NL +:+ NL +:+ NL +:+ "<p>age</p>").
Proof.
  apply (page_without_age_gate_is_kept
           ("<p>Gate</p>" +:+ NL +:+ NL +:+ NL +:+ NL +:+ NL +:+ "<p>age</p>")).
  vm_compute. reflexivity.
Defined.

(** ** The markup rewriter *)










(** ** The CDX listing *)

Lemma split_ws_fields (s : string) : Forall is_field (Str.split_ws s).
Proof.
  induction s as [|c s IH]; [constructor |].
  destruct s as [|d s].
  - cbn [Str.split_ws]. destruct (Str.isspace c) eqn:E; [constructor |].
    constructor; [|constructor]. split; [done |].
    cbn [all_chars]. unfold visible_char. by rewrite E.
  - rewrite split_ws_cons2.
    destruct (Str.isspace c) eqn:E; [done |].
    assert (Hc : visible_char c = true) by (unfold visible_char; by rewrite E).
    destruct (Str.isspace d) eqn:E2.
    + constructor; [|done]. split; [done |]. cbn [all_chars]. by rewrite Hc.
    + destruct (Str.split_ws (String d s)) as [|w ws].
      * constructor; [|constructor]. split; [done |]. cbn [all_chars]. by rewrite Hc.
      * inversion IH as [|?? [Hw1 Hw2] Hws]; subst.
        constructor; [|done]. split; [done |]. cbn [all_chars]. by rewrite Hc, Hw2.
Qed.

Lemma cdx_line_fields (line : string) (r : CdxRecord) :
  cdx_line line = Some r → has_fields r.
Proof.
  unfold cdx_line. cbv zeta. destruct (Str.is_empty (Str.strip line)); [done |].
  pose proof (split_ws_fields (Str.strip line)) as H.
  destruct (Str.split_ws (Str.strip line)) as [|ts [|o [|mt [|st rest]]]]; try done.
  intros [= <-]. unfold has_fields. cbn [timestamp original mimetype statuscode].
  inversion H as [|?? H1 H']; subst. inversion H' as [|?? H2 H'']; subst.
  inversion H'' as [|?? H3 H''']; subst. inversion H''' as [|?? H4 _]; subst.
  done.
Qed.

(** X19.  Every record that [fetch_cdx] returns has its four fields:
    a timestamp, a URL, a content type and a status code, none of them
    empty and none with white space in it. *)
Theorem cdx_records_have_fields (urlopen_read : string → option string)
    (domain : string) (records : list CdxRecord) :
  fetch_cdx urlopen_read domain = Some records → Forall has_fields records.
Proof.
  unfold fetch_cdx. destruct (urlopen_read (cdx_query_url domain)) as [body|]; [|done].
  cbn. intros [= <-]. unfold cdx_records. apply Forall_forall.
  intros r (line & _ & Hr)%list_elem_of_omap. by apply cdx_line_fields in Hr.
Qed.

Lemma cdx_records_have_fields_witness :
  Forall has_fields [Cdx "2020" "http://example.org/a" "text/html" "200"].
Proof.
  apply (cdx_records_have_fields
           (fun _ => Some ("  2020 http://example.org/a text/html 200 extra" +:+ NL
                           +:+ "short line" +:+ NL +:+ NL))
           "example.org").
  vm_compute. reflexivity.
Defined.

Lemma visible_not_linebreak (c : ascii) :
  visible_char c = true → StrMore.is_linebreak c = false.
Proof.
  destruct c as [[] [] [] [] [] [] [] []]; vm_compute; intros H;
    first [reflexivity | discriminate H].
Qed.

Lemma splitlines_line (x rest : string) :
  all_chars (fun c => negb (StrMore.is_linebreak c)) x = true →
  StrMore.splitlines (x +:+ String newline rest) = x :: StrMore.splitlines rest.
Proof.
  induction x as [|c x IH]; cbn [String.append all_chars].
  - intros _. cbn [StrMore.splitlines].
    assert (StrMore.is_linebreak newline = true) as -> by done.
    assert (Ascii.eqb newline cr = false) as -> by done.
    by destruct rest.
  - intros [H1 H2]%andb_prop. cbn [StrMore.splitlines].
    apply negb_true_iff in H1. by rewrite H1, (IH H2).
Qed.

Lemma splitlines_last (x : string) :
  x ≠ "" → all_chars (fun c => negb (StrMore.is_linebreak c)) x = true →
  StrMore.splitlines x = [x].
Proof.
  induction x as [|c x IH]; [done |]. intros _. cbn [all_chars].
  intros [H1 H2]%andb_prop. cbn [StrMore.splitlines].
  apply negb_true_iff in H1. rewrite H1.
  destruct x as [|d x]; [done |]. by rewrite IH.
Qed.

Lemma splitlines_join (lines : list string) :
  Forall (fun x => x ≠ ""
                   ∧ all_chars (fun c => negb (StrMore.is_linebreak c)) x = true) lines →
  StrMore.splitlines (Str.join NL lines) = lines.
Proof.
  induction lines as [|x [|y lines] IH]; [done | |].
  - intros [[H1 H2] _]%Forall_cons. by apply splitlines_last.
  - intros [[H1 H2] H]%Forall_cons.
    change (Str.join NL (x :: y :: lines))
      with (x +:+ NL +:+ Str.join NL (y :: lines)).
    change (x +:+ NL +:+ Str.join NL (y :: lines))
      with (x +:+ String newline (Str.join NL (y :: lines))).
    rewrite splitlines_line by done. by rewrite IH.
Qed.

Lemma rstrip_by_app_keep (p : ascii → bool) (a b : string) :
  b ≠ "" → all_chars (fun c => negb (p c)) b = true →
  Str.rstrip_by p (a +:+ b) = a +:+ b.
Proof.
  intros Hb Hall. induction a as [|c a IH]; cbn [String.append].
  - by apply rstrip_by_none.
  - cbn [Str.rstrip_by]. rewrite IH. destruct (a +:+ b) eqn:E; [|done].
    destruct a; [|done]. simpl in E. congruence.
Qed.

Lemma split_ws_field (a rest : string) :
  is_field a → Str.split_ws (a +:+ String " " rest) = a :: Str.split_ws rest.
Proof.
  intros [Hne Hall]. induction a as [|c a IH]; [done |].
  cbn [all_chars] in Hall. apply andb_prop in Hall as [Hc Ha].
  unfold visible_char in Hc. apply negb_true_iff in Hc.
  destruct a as [|d a].
  - assert (Hsp : Str.isspace " " = true) by done.
    cbn [String.append]. rewrite split_ws_cons2, Hc, Hsp. reflexivity.
  - cbn [String.append]. rewrite split_ws_cons2, Hc.
    pose proof Ha as Ha'. cbn [all_chars] in Ha'. apply andb_prop in Ha' as [Hd _].
    unfold visible_char in Hd. apply negb_true_iff in Hd. rewrite Hd.
    change (String d (a +:+ String " " rest)) with (String d a +:+ String " " rest).
    by rewrite IH.
Qed.

Lemma split_ws_one (a : string) : is_field a → Str.split_ws a = [a].
Proof.
  intros [Hne Hall]. induction a as [|c a IH]; [done |].
  cbn [all_chars] in Hall. apply andb_prop in Hall as [Hc Ha].
  unfold visible_char in Hc. apply negb_true_iff in Hc.
  destruct a as [|d a].
  - cbn [Str.split_ws]. by rewrite Hc.
  - rewrite split_ws_cons2, Hc.
    pose proof Ha as Ha'. cbn [all_chars] in Ha'. apply andb_prop in Ha' as [Hd _].
    unfold visible_char in Hd. apply negb_true_iff in Hd. rewrite Hd.
    by rewrite IH.
Qed.

Lemma cdx_line_text_parses (r : CdxRecord) :
  has_fields r → cdx_line (cdx_line_text r) = Some r.
Proof.
  intros (H1 & H2 & H3 & H4). destruct r as [ts o mt st].
  cbn [timestamp original mimetype statuscode] in *.
  unfold cdx_line, cdx_line_text. cbn [timestamp original mimetype statuscode].
  assert (Hs : Str.strip (ts +:+ " " +:+ o +:+ " " +:+ mt +:+ " " +:+ st)
               = ts +:+ " " +:+ o +:+ " " +:+ mt +:+ " " +:+ st).
  { unfold Str.strip. destruct H1 as [Hne Hall]. destruct ts as [|c ts]; [done |].
    cbn [String.append]. cbn [all_chars] in Hall. apply andb_prop in Hall as [Hc _].
    unfold visible_char in Hc. apply negb_true_iff in Hc.
    rewrite lstrip_by_head by done.
    assert (String c (ts +:+ String " " (o +:+ String " " (mt +:+ String " " st)))
            = (String c ts +:+ " " +:+ o +:+ " " +:+ mt +:+ " ") +:+ st) as ->.
    { by rewrite !app_assoc_str. }
    apply rstrip_by_app_keep; by destruct H4. }
  cbv zeta. rewrite Hs.
  assert (Str.is_empty (ts +:+ " " +:+ o +:+ " " +:+ mt +:+ " " +:+ st) = false) as ->.
  { destruct H1 as [Hne _]. by destruct ts. }
  change (ts +:+ " " +:+ o +:+ " " +:+ mt +:+ " " +:+ st)
    with (ts +:+ String " " (o +:+ String " " (mt +:+ String " " st))).
  by rewrite !split_ws_field, split_ws_one.
Qed.

Lemma cdx_line_text_one_line (r : CdxRecord) :
  has_fields r →
  cdx_line_text r ≠ ""
  ∧ all_chars (fun c => negb (StrMore.is_linebreak c)) (cdx_line_text r) = true.
Proof.
  intros (H1 & H2 & H3 & H4). unfold cdx_line_text. split.
  - destruct H1 as [Hne _]. by destruct (timestamp r).
  - assert (Hv : ∀ f, is_field f →
              all_chars (fun c => negb (StrMore.is_linebreak c)) f = true).
    { intros f [_ Hf]. eapply all_chars_impl; [|exact Hf].
      intros c Hc. by rewrite visible_not_linebreak. }
    rewrite !all_chars_app, (Hv _ H1), (Hv _ H2), (Hv _ H3), (Hv _ H4). reflexivity.
Qed.

(** X20.  Reading a CDX listing gives back the records it lists: from
    the lines of records that have their four fields, one record on a
    line with spaces between the fields, [fetch_cdx] reads these
    records. *)
Theorem cdx_listing_round_trip (urlopen_read : string → option string)
    (domain : string) (records : list CdxRecord) :
  Forall has_fields records →
  urlopen_read (cdx_query_url domain) = Some (Str.join NL (map cdx_line_text records)) →
  fetch_cdx urlopen_read domain = Some records.
Proof.
  intros Hf Hbody. unfold fetch_cdx. rewrite Hbody. clear Hbody. cbn. f_equal.
  unfold cdx_records. rewrite splitlines_join.
  - induction Hf as [|r records Hr _ IH]; [done |].
    cbn [map omap list_omap]. csimpl. by rewrite (cdx_line_text_parses r Hr), IH.
  - apply Forall_forall. intros x (r & -> & Hr)%list_elem_of_fmap.
    apply cdx_line_text_one_line. by eapply Forall_forall in Hf.
Qed.

Lemma cdx_listing_round_trip_witness :
  let records := [Cdx "20200101" "http://example.org/" "text/html" "200";
                  Cdx "20210101" "http://example.org/a.css" "text/css" "200"] in
  fetch_cdx (fun _ => Some (Str.join NL (map cdx_line_text records))) "example.org"
  = Some records.
Proof.
  intros records.
  apply (cdx_listing_round_trip
           (fun _ => Some (Str.join NL (map cdx_line_text records))) "example.org" records).
  - repeat constructor; discriminate.
  - reflexivity.
Defined.

(** ** The CDX request *)

Lemma foldr_append_app (l1 l2 : list string) :
  foldr String.append "" (l1 ++ l2)%list
  = foldr String.append "" l1 +:+ foldr String.append "" l2.
Proof.
  induction l1 as [|x l1 IH]; cbn [foldr app]; [done |].
  by rewrite IH, app_assoc_str.
Qed.

Lemma utf8_app (a b : string) :
  Hashlib.utf8 (a +:+ b) = (Hashlib.utf8 a ++ Hashlib.utf8 b)%list.
Proof.
  induction a as [|c a IH]; cbn [String.append Hashlib.utf8 app]; [done |].
  rewrite IH. by destruct (_ <? _)%Z.
Qed.

Lemma quote_plus_app (a b : string) :
  UrllibQuote.quote_plus (a +:+ b)
  = UrllibQuote.quote_plus a +:+ UrllibQuote.quote_plus b.
Proof.
  unfold UrllibQuote.quote_plus. by rewrite utf8_app, map_app, foldr_append_app.
Qed.

Lemma quote_plus_char (c : ascii) :
  all_chars quoted_char (UrllibQuote.quote_plus (String c "")) = true.
Proof. destruct c as [[] [] [] [] [] [] [] []]; vm_compute; reflexivity. Qed.

Lemma quote_plus_chars (s : string) :
  all_chars quoted_char (UrllibQuote.quote_plus s) = true.
Proof.
  induction s as [|c s IH]; [done |].
  change (String c s) with (String c "" +:+ s).
  by rewrite quote_plus_app, all_chars_app, quote_plus_char, IH.
Qed.

(** X21.  Whatever the domain, the CDX request has the same six
    parameters, and the domain is in it with letters, digits, [_.-~],
    plus signs and percent signs only: no domain adds a parameter or
    ends the query. *)
Theorem cdx_request_is_well_formed (domain : string) :
  cdx_query_url domain
  = CDX_ENDPOINT +:+ "?url=" +:+ UrllibQuote.quote_plus domain
    +:+ "%2F%2A&output=txt&fl=timestamp%2Coriginal%2Cmimetype%2Cstatuscode"
    +:+ "&filter=statuscode%3A200&collapse=urlkey&sort=reverse"
  ∧ all_chars quoted_char (UrllibQuote.quote_plus domain) = true.
Proof.
  split; [|apply quote_plus_chars].
  unfold cdx_query_url, UrllibQuote.urlencode. cbv zeta.
  cbn [map fst snd Str.join]. rewrite quote_plus_app.
  assert (UrllibQuote.quote_plus "/*" = "%2F%2A") as -> by by vm_compute.
  assert (UrllibQuote.quote_plus "url" = "url") as -> by by vm_compute.
  assert (UrllibQuote.quote_plus "output" = "output") as -> by by vm_compute.
  assert (UrllibQuote.quote_plus "txt" = "txt") as -> by by vm_compute.
  assert (UrllibQuote.quote_plus "fl" = "fl") as -> by by vm_compute.
  assert (UrllibQuote.quote_plus "timestamp,original,mimetype,statuscode"
          = "timestamp%2Coriginal%2Cmimetype%2Cstatuscode") as -> by by vm_compute.
  assert (UrllibQuote.quote_plus "filter" = "filter") as -> by by vm_compute.
  assert (UrllibQuote.quote_plus "statuscode:200" = "statuscode%3A200") as ->
    by by vm_compute.
  assert (UrllibQuote.quote_plus "collapse" = "collapse") as -> by by vm_compute.
  assert (UrllibQuote.quote_plus "urlkey" = "urlkey") as -> by by vm_compute.
  assert (UrllibQuote.quote_plus "sort" = "sort") as -> by by vm_compute.
  assert (UrllibQuote.quote_plus "reverse" = "reverse") as -> by by vm_compute.
  cbn [String.append]. rewrite !app_assoc_str. reflexivity.
Qed.

(** ** The hash of a URL *)

Lemma hexdigit_lower_hex (x : Z) :
  (0 ≤ x < 16)%Z → lower_hex_char (Hashlib.hexdigit x) = true.
Proof.
  intros Hx.
  assert (x = 0 ∨ x = 1 ∨ x = 2 ∨ x = 3 ∨ x = 4 ∨ x = 5 ∨ x = 6 ∨ x = 7 ∨ x = 8
          ∨ x = 9 ∨ x = 10 ∨ x = 11 ∨ x = 12 ∨ x = 13 ∨ x = 14 ∨ x = 15)%Z as H by lia.
  repeat (destruct H as [-> | H]; [by vm_compute |]). subst. by vm_compute.
Qed.

Lemma hex_digits (d : nat) (x : Z) :
  String.length (Hashlib.hex d x) = d
  ∧ all_chars lower_hex_char (Hashlib.hex d x) = true.
Proof.
  induction d as [|d [IH1 IH2]]; [done |]. cbn [Hashlib.hex String.length all_chars].
  rewrite IH1, IH2, hexdigit_lower_hex; [done |].
  apply Z.mod_pos_bound. lia.
Qed.

(** X22.  [_sha1] gives forty digits of [0-9a-f], so the tag that the
    conflict pass puts into a path is eight such digits: it brings no
    slash and no dot into the path. *)
Theorem sha1_is_forty_hex_digits (s : string) :
  String.length (_sha1 s) = 40
  ∧ all_chars lower_hex_char (_sha1 s) = true
  ∧ String.length (Str.take 8 (_sha1 s)) = 8
  ∧ all_chars lower_hex_char (Str.take 8 (_sha1 s)) = true.
Proof.
  unfold _sha1, Hashlib.sha1_hexdigest. cbv zeta.
  destruct (Hashlib.blocks _ _ _) as [[[[h0 h1] h2] h3] h4].
  destruct (hex_digits 8 h0) as [L0 A0]. destruct (hex_digits 8 h1) as [L1 A1].
  destruct (hex_digits 8 h2) as [L2 A2]. destruct (hex_digits 8 h3) as [L3 A3].
  destruct (hex_digits 8 h4) as [L4 A4].
  assert (Hlen : ∀ a b, String.length a = 8 →
            Str.take 8 (a +:+ b) = a).
  { intros a b Ha. do 9 (destruct a as [|? a]; try done). }
  split_and!.
  - rewrite !length_app_str. lia.
  - by rewrite !all_chars_app, A0, A1, A2, A3, A4.
  - by rewrite Hlen.
  - by rewrite Hlen.
Qed.

(** ** The charset of a content type *)

(** What a repetition of one character of a kind takes is made of
    characters of this kind. *)
Lemma rep_step_all (okp : ascii → bool) (lo : nat) (hi : option nat) (greedy : bool) :
  ∀ fuel k p q, In q (rep (step okp) lo hi greedy fuel k p) →
                ∃ a, rest p = a +:+ rest q ∧ all_chars okp a = true.
Proof.
  induction fuel as [|fuel IH]; intros k p q; cbn [rep].
  - destruct (Nat.leb lo k); [|done]. intros [<- | []]. by exists "".
  - intros H.
    assert (In q (if Nat.leb lo k then [p] else [])
            ∨ In q (if below hi k
                    then flat_map (fun q0 => if shorter q0 p
                                             then rep (step okp) lo hi greedy fuel (S k) q0
                                             else []) (step okp p)
                    else [])) as [H1 | H1].
    { destruct greedy; apply in_app_iff in H; tauto. }
    + destruct (Nat.leb lo k); [|done]. destruct H1 as [<- | []]. by exists "".
    + destruct (below hi k); [|done].
      apply in_flat_map in H1 as (q1 & H1 & H2).
      destruct (shorter q1 p); [|done].
      apply IH in H2 as (a2 & E2 & A2).
      unfold step in H1. destruct (rest p) as [|t s] eqn:E; [done |].
      destruct (okp t) eqn:Et; [|done]. destruct H1 as [<- | []].
      cbn [rest] in E2. exists (String t a2). cbn [String.append all_chars].
      by rewrite E2, Et, A2.
Qed.

Lemma take_app_length (a b : string) : Str.take (String.length a) (a +:+ b) = a.
Proof. induction a as [|c a IH]; simpl; [by destruct b | by rewrite IH]. Qed.

Lemma all_chars_lstrip_by (p f : ascii → bool) (s : string) :
  all_chars p s = true → all_chars p (Str.lstrip_by f s) = true.
Proof.
  induction s as [|c s IH]; cbn [all_chars Str.lstrip_by]; [done |].
  intros [H1 H2]%andb_prop. destruct (f c); [by apply IH |].
  cbn [all_chars]. by rewrite H1, H2.
Qed.

Lemma all_chars_rstrip_by (p f : ascii → bool) (s : string) :
  all_chars p s = true → all_chars p (Str.rstrip_by f s) = true.
Proof.
  induction s as [|c s IH]; cbn [all_chars Str.rstrip_by]; [done |].
  intros [H1 H2]%andb_prop. specialize (IH H2).
  destruct (Str.rstrip_by f s); [destruct (f c) |]; cbn [all_chars] in *;
    by rewrite ?H1, ?IH.
Qed.

Lemma charset_class (c : ascii) :
  cls_ok flags_I true [One ";"; Space] c = true → charset_char c = true.
Proof.
  destruct c as [[] [] [] [] [] [] [] []]; vm_compute; intros H;
    first [reflexivity | discriminate H].
Qed.

(** What [charset_re] finds: a text of the class after [charset=] *)
Lemma charset_match (p q : pos) :
  In q (m flags_I (regex_of charset_re) p) → all_chars charset_char (group 1 q) = true.
Proof.
  cbn [regex_of charset_re]. rewrite m_cat_cons.
  intros (q1 & _ & H)%in_flat_map.
  rewrite m_cat_one in H. cbn [m] in H.
  apply in_map_iff in H as (q2 & <- & H).
  unfold group. cbn [groups lookup_group Nat.eqb default].
  apply rep_step_all in H as (a & E & Ha).
  unfold matched. rewrite E, length_app_str.
  replace (String.length a + String.length (rest q2) - String.length (rest q2))
    with (String.length a) by lia.
  rewrite take_app_length. eapply all_chars_impl; [apply charset_class | done].
Qed.

Lemma search_at_found_in (pt : pattern) (s : string) :
  ∀ b q, search_at pt b s = Some q →
         ∃ p, In q (m (flags_of pt) (regex_of pt) p).
Proof.
  induction s as [|c s IH]; intros b q; rewrite search_at_eq; unfold run.
  - destruct (m (flags_of pt) (regex_of pt) (Pos b "" [])) as [|x l] eqn:E; [done |].
    intros [= <-]. exists (Pos b "" []). rewrite E. by left.
  - destruct (m (flags_of pt) (regex_of pt) (Pos b (String c s) [])) as [|x l] eqn:E.
    + apply IH.
    + intros [= <-]. exists (Pos b (String c s) []). rewrite E. by left.
Qed.

(** X23.  A charset that [_detect_charset_from_headers] returns is not
    empty and has no white space and no semicolon in it, and the content
    type holds [charset=], in some letter case: a content type without
    it has no charset. *)
Theorem detected_charset_is_a_name (content_type charset : string) :
  _detect_charset_from_headers content_type = Some charset →
  charset ≠ ""
  ∧ all_chars charset_char charset = true
  ∧ Str.contains (Str.lower content_type) "charset=" = true.
Proof.
  unfold _detect_charset_from_headers.
  destruct (Str.is_empty content_type); [done |].
  destruct (search charset_re content_type) as [q|] eqn:E; [|done].
  cbv zeta.
  destruct (Str.is_empty _) eqn:Ee; [done |]. intros [= <-]. split_and!.
  - intros H. by rewrite H in Ee.
  - apply search_at_found_in in E as [p Hq]. apply charset_match in Hq.
    unfold StrMore.strip_char, Str.rstrip_char, Str.lstrip_char, Str.strip.
    by do 6 (first [apply all_chars_rstrip_by | apply all_chars_lstrip_by]).
  - apply not_false_is_true. intros Hc. unfold search in E.
    rewrite (search_needs charset_re "charset=" []
               [Grp 1 (plus (Cls true [One ";"; Space]))] eq_refl eq_refl eq_refl
               content_type None Hc) in E.
    done.
Qed.

Lemma detected_charset_is_a_name_witness :
  "utf-8" ≠ ""
  ∧ all_chars charset_char "utf-8" = true
  ∧ Str.contains (Str.lower ("text/html; Charset=" +:+ DQ +:+ "utf-8" +:+ DQ +:+ "; x"))
      "charset=" = true.
Proof.
  apply (detected_charset_is_a_name
           ("text/html; Charset=" +:+ DQ +:+ "utf-8" +:+ DQ +:+ "; x") "utf-8").
  vm_compute. reflexivity.
Defined.

(** ** The retries of a download *)

Lemma fetch_loop_S (response : Type) (fetch_wayback : nat → outcome response)
    (fuel k : nat) :
  fetch_loop response fetch_wayback (S fuel) k
  = if Nat.ltb (S k) 4 && tries_again (fetch_wayback (S k)) then
      match fetch_loop response fetch_wayback fuel (S k) with
      | Some (o, t) => Some (o, Fetch :: Sleep (S k) :: t)
      | None => None
      end
    else Some (fetch_wayback (S k), [Fetch]).
Proof.
  cbn [fetch_loop]. cbv zeta.
  destruct (fetch_wayback (S k)) as [r | code | |], (Nat.ltb (S k) 4);
    cbn [tries_again andb]; reflexivity.
Qed.

Lemma fetch_loop_spec (response : Type) (fetch_wayback : nat → outcome response) :
  ∀ fuel k, (4 ≤ fuel + k)%nat → (k < 4)%nat →
    ∃ n, (1 ≤ n)%nat ∧ (k + n ≤ 4)%nat
         ∧ fetch_loop response fetch_wayback fuel k
           = Some (fetch_wayback (k + n)%nat, attempts k n)
         ∧ (∀ j, (k < j < k + n)%nat → tries_again (fetch_wayback j) = true)
         ∧ ((k + n < 4)%nat → tries_again (fetch_wayback (k + n)%nat) = false).
Proof.
  induction fuel as [|fuel IH]; intros k Hfuel Hk; [lia |].
  rewrite fetch_loop_S.
  destruct (Nat.ltb (S k) 4 && tries_again (fetch_wayback (S k))) eqn:E.
  - apply andb_prop in E as [Elt Et]. apply Nat.ltb_lt in Elt.
    destruct (IH (S k)) as (n & Hn1 & Hn2 & Heq & Hall & Hlast); [lia | lia |].
    exists (S n). replace (k + S n)%nat with (S k + n)%nat by lia.
    split_and!; [lia | lia | | |done].
    + rewrite Heq. destruct n as [|n]; [lia |]. done.
    + intros j Hj. destruct (decide (j = S k)) as [-> | Hne]; [done |].
      apply Hall. lia.
  - exists 1%nat. replace (k + 1)%nat with (S k) by lia.
    split_and!; [lia | lia | done | intros j Hj; lia |].
    intros Hlt. apply andb_false_iff in E as [E | E]; [|done].
    apply Nat.ltb_ge in E. lia.
Qed.

(** X24.  A download is tried four times at most.  The loop comes to an
    end, on the first attempt that returns or raises something it does
    not try again after, or on the fourth; between two attempts it
    sleeps as many seconds as the attempt that failed, so six seconds
    in all at most; and what it gives is what this last attempt gave. *)
Theorem download_is_tried_four_times_at_most (response : Type)
    (fetch_wayback : nat → outcome response) (fuel : nat) :
  (4 ≤ fuel)%nat →
  ∃ n, (1 ≤ n ≤ 4)%nat
       ∧ fetch_loop response fetch_wayback fuel 0
         = Some (fetch_wayback n, attempts 0 n)
       ∧ (∀ j, (1 ≤ j < n)%nat → tries_again (fetch_wayback j) = true)
       ∧ ((n < 4)%nat → tries_again (fetch_wayback n) = false).
Proof.
  intros Hfuel.
  destruct (fetch_loop_spec response fetch_wayback fuel 0)
    as (n & H1 & H2 & H3 & H4 & H5); [lia | lia |].
  exists n. cbn [Nat.add] in *. split_and!; [lia | lia | done | |done].
  intros j Hj. apply H4. lia.
Qed.

Lemma download_is_tried_four_times_at_most_witness :
  ∃ n, (1 ≤ n ≤ 4)%nat
       ∧ fetch_loop nat
           (fun k => match k with 1 => HTTPError 503 | 2 => URLError | _ => Returned k end)
           7 0
         = Some ((fun k => match k with 1 => HTTPError 503 | 2 => URLError
                           | _ => Returned k end) n, attempts 0 n)
       ∧ (∀ j, (1 ≤ j < n)%nat →
            tries_again ((fun k => match k with 1 => HTTPError 503 | 2 => URLError
                                   | _ => Returned k end) j) = true)
       ∧ ((n < 4)%nat →
          tries_again ((fun k => match k with 1 => HTTPError 503 | 2 => URLError
                                 | _ => Returned k end) n) = false).
Proof.
  apply (download_is_tried_four_times_at_most nat
           (fun k => match k with 1 => HTTPError 503 | 2 => URLError | _ => Returned k end)
           7).
  lia.
Defined.

(** ** The headers of a response *)

Lemma lower_headers_snoc (items : list (string * string)) (kv : string * string) :
  lower_headers (items ++ [kv])
  = <[Str.lower (fst kv) := snd kv]> (lower_headers items).
Proof. unfold lower_headers. by rewrite foldl_app. Qed.

Lemma lower_headers_lookup (items : list (string * string)) (name : string) :
  lower_headers items !! name = last_header items name.
Proof.
  induction items as [|kv items IH] using rev_ind; [done |].
  rewrite lower_headers_snoc. unfold last_header. rewrite omap_app. cbn [omap list_omap].
  destruct (String.eqb (Str.lower kv.1) name) eqn:E.
  - apply String.eqb_eq in E as <-. rewrite lookup_insert_eq.
    by rewrite last_snoc.
  - apply String.eqb_neq in E. rewrite lookup_insert_ne by done.
    rewrite app_nil_r. apply IH.
Qed.

(** X25.  A header of the response is found under its lower-case name,
    whatever the letter case it came in, and of two headers with one
    name the later one counts; the content type of the response is
    normalised, and the one of the CDX record stands in only when the
    response has none. *)
Theorem response_headers_ignore_case (items : list (string * string))
    (name : string) (rec : CdxRecord) :
  lower_headers items !! name = last_header items name
  ∧ (∀ k v, (k, v) ∈ items → is_Some (lower_headers items !! Str.lower k))
  ∧ response_mime (lower_headers items) rec
    = match last_header items "content-type" with
      | Some ct => if Str.is_empty (_norm_mime ct) then _norm_mime (mimetype rec)
                   else _norm_mime ct
      | None => _norm_mime (mimetype rec)
      end.
Proof.
  split_and!.
  - apply lower_headers_lookup.
  - intros k v Hin. rewrite lower_headers_lookup. unfold last_header.
    apply list_elem_of_split in Hin as (l1 & l2 & ->).
    rewrite omap_app. cbn [omap list_omap fst snd]. rewrite String.eqb_refl.
    destruct (last _) eqn:E; [done |].
    apply last_None in E. symmetry in E. by apply app_cons_not_nil in E.
  - unfold response_mime, get_header. rewrite lower_headers_lookup.
    destruct (last_header items "content-type") as [ct|]; cbn [default].
    + unfold Str.or_else, Str.is_empty, id. by destruct (_norm_mime ct).
    + done.
Qed.

(** ** The overlay stripper only removes *)

Lemma consume_length (fl : flags) (g : string) :
  ∀ p q, In q (consume fl g p) →
         String.length (rest p) = String.length g + String.length (rest q).
Proof.
  induction g as [|c g IH]; intros p q; cbn [consume].
  - by intros [<- | []].
  - intros (q1 & H1 & H2)%in_flat_map. apply IH in H2.
    unfold step in H1. destruct (rest p) as [|t s] eqn:E; [done |].
    destruct (chr_eq fl c t); [|done]. destruct H1 as [<- | []].
    cbn [rest String.length] in *. lia.
Qed.

Lemma m_rest_length (fl : flags) (r : regex) (p q : pos) :
  In q (m fl r p) → (String.length (rest q) ≤ String.length (rest p))%nat.
Proof.
  intros [a ->]%m_rest. rewrite length_app_str. lia.
Qed.

(** A match of a sequence that holds the text [g] takes as many
    characters as [g] has, at least. *)
Lemma cat_takes (fl : flags) (g : string) (rs1 rs2 : list regex) :
  ∀ p q, In q (m fl (cat (rs1 ++ str g :: rs2)) p) →
         (String.length (rest q) + String.length g ≤ String.length (rest p))%nat.
Proof.
  induction rs1 as [|r rs1 IH]; intros p q; cbn [app]; rewrite m_cat_cons;
    intros (q1 & H1 & H2)%in_flat_map.
  - rewrite m_str in H1. apply consume_length in H1.
    apply m_rest_length in H2. lia.
  - apply m_rest_length in H1. apply IH in H2. lia.
Qed.

Lemma head_In {A} (l : list A) (x : A) : head l = Some x → In x l.
Proof. destruct l; [done |]. intros [= ->]. by left. Qed.

(** A substitution that puts a text in the place of matches that are
    not shorter than it does not make the subject longer. *)
Lemma sub_loop_length (pt : pattern) (text : string) :
  (∀ p q, In q (m (flags_of pt) (regex_of pt) p) →
          (String.length (rest q) + String.length text ≤ String.length (rest p))%nat) →
  ∀ fuel b s,
    (String.length (sub_loop pt (fun _ _ => text) fuel b s) ≤ String.length s)%nat.
Proof.
  intros Hm. induction fuel as [|fuel IH]; intros b s; cbn [sub_loop]; [done |].
  assert (Hcopy : (String.length
                     match s with
                     | EmptyString => EmptyString
                     | String c s' =>
                         String c (sub_loop pt (fun _ _ => text) fuel (Some c) s')
                     end ≤ String.length s)%nat).
  { destruct s as [|c s]; [done |]. cbn [String.length]. specialize (IH (Some c) s). lia. }
  destruct (run pt (Pos b s [])) as [q|] eqn:E; [|done].
  apply head_In, Hm in E. cbn [rest] in E.
  unfold shorter. cbn [rest].
  destruct (Nat.ltb (String.length (rest q)) (String.length s)) eqn:L;
    rewrite length_app_str.
  - specialize (IH (before q) (rest q)). lia.
  - apply Nat.ltb_ge in L. lia.
Qed.

Lemma sub_text_length (pt : pattern) (text s : string) :
  (∀ p q, In q (m (flags_of pt) (regex_of pt) p) →
          (String.length (rest q) + String.length text ≤ String.length (rest p))%nat) →
  (String.length (sub_text pt text s) ≤ String.length s)%nat.
Proof. intros H. by apply sub_loop_length. Qed.

Lemma sub_text_empty_length (pt : pattern) (s : string) :
  (String.length (sub_text pt EmptyString s) ≤ String.length s)%nat.
Proof.
  apply sub_text_length. intros p q H%m_rest_length. cbn [String.length]. lia.
Qed.

Lemma cap_runs_length (c : ascii) (n : nat) (s : string) :
  ∀ seen, (String.length (cap_runs c n seen s) ≤ String.length s)%nat.
Proof.
  induction s as [|t s IH]; intros seen; cbn [cap_runs String.length]; [done |].
  destruct (Ascii.eqb c t); [destruct (Nat.ltb seen n) |]; cbn [String.length].
  - specialize (IH (S seen)). lia.
  - specialize (IH seen). lia.
  - specialize (IH 0). lia.
Qed.

(** X26.  [strip_age_gate_html] never makes a page longer: what it puts
    in the place of a match is shorter than the match. *)
Theorem strip_never_lengthens (html : string) :
  (String.length (strip_age_gate_html html) ≤ String.length html)%nat.
Proof.
  unfold strip_age_gate_html. cbv zeta.
  set (s6 := sub_text _AG_RE_ANY_LINK_ASSET _ _).
  assert (H6 : (String.length s6 ≤ String.length html)%nat).
  { subst s6. repeat (etrans; [apply sub_text_empty_length |]). done. }
  set (s7 := sub_text _AG_RE_CUSTOM_CSS_BLOCK NL s6).
  assert (H7 : (String.length s7 ≤ String.length s6)%nat).
  { apply sub_text_length. intros p q H.
    apply (cat_takes _ ".age-gate-submit-no" [star ws]) in H.
    change (String.length NL) with 1. cbn [String.length] in H. lia. }
  etrans; [|exact H6]. etrans; [|exact H7].
  change (sub_text blank_run_re (NL +:+ NL +:+ NL) s7)
    with (sub_text (long_run_re newline 3) (repeat_char newline 3) s7).
  rewrite sub_text_long_run. apply cap_runs_length.
Qed.
(** ** The relative prefix of a stored page *)

Lemma rev_app (a b : string) : Str.rev (a +:+ b) = Str.rev b +:+ Str.rev a.
Proof.
  induction a as [|c a IH]; cbn [String.append Str.rev]; [by rewrite app_empty_r |].
  by rewrite IH, app_assoc_str.
Qed.

Lemma rev_rev (a : string) : Str.rev (Str.rev a) = a.
Proof.
  induction a as [|c a IH]; cbn [Str.rev]; [done |].
  by rewrite rev_app, IH.
Qed.

Lemma has_char_rev (c : ascii) (s : string) : Str.has_char c (Str.rev s) = Str.has_char c s.
Proof.
  induction s as [|x s IH]; cbn [Str.rev]; [done |].
  rewrite has_char_app, IH. cbn [Str.has_char]. by rewrite orb_false_r, orb_comm.
Qed.

Lemma lstrip_by_all (p : ascii → bool) (s : string) :
  all_chars p s = true → Str.lstrip_by p s = "".
Proof.
  induction s as [|c s IH]; simpl; [done |].
  intros [-> H]%andb_prop. by apply IH.
Qed.

Lemma no_char_all (ch : ascii) (s : string) :
  Str.has_char ch s = false → all_chars (fun c => negb (Ascii.eqb c ch)) s = true.
Proof.
  induction s as [|c s IH]; simpl; [done |].
  intros [H1 H2]%orb_false_elim. rewrite (IH H2), andb_true_r.
  by rewrite Ascii.eqb_sym, H1.
Qed.

(** A text that is not empty has a last character. *)
Lemma last_char (s : string) : s ≠ "" → ∃ a c, s = a +:+ String c "".
Proof.
  induction s as [|x s IH]; [done |]. intros _.
  destruct s as [|y s]; [by exists "", x |].
  destruct IH as (a & c & ->); [done |]. by exists (String x a), c.
Qed.

(** *** [str.split] and [str.join] *)

Lemma split_no_sep (sep : ascii) (x : string) :
  Str.has_char sep x = false → Str.split sep x = [x].
Proof.
  induction x as [|c x IH]; simpl; [done |].
  intros [H1 H2]%orb_false_elim. by rewrite Ascii.eqb_sym, H1, (IH H2).
Qed.

Lemma split_app_sep (sep : ascii) (x s : string) :
  Str.has_char sep x = false →
  Str.split sep (x +:+ String sep s) = x :: Str.split sep s.
Proof.
  induction x as [|c x IH]; simpl.
  - by rewrite Ascii.eqb_refl.
  - intros [H1 H2]%orb_false_elim. by rewrite Ascii.eqb_sym, H1, (IH H2).
Qed.

Lemma split_without_sep (sep : ascii) (s : string) :
  Forall (fun x => Str.has_char sep x = false) (Str.split sep s).
Proof.
  induction s as [|c s IH]; cbn [Str.split]; [by repeat constructor |].
  destruct (Ascii.eqb c sep) eqn:E; [by constructor |].
  destruct (Str.split sep s) as [|x xs]; [repeat constructor |].
  - cbn. by rewrite Ascii.eqb_sym, E.
  - apply Forall_cons in IH as [Hx Hxs]. constructor; [|done].
    cbn. by rewrite Ascii.eqb_sym, E.
Qed.

Lemma join_cons2 (sep x y : string) (l : list string) :
  Str.join sep (x :: y :: l) = x +:+ sep +:+ Str.join sep (y :: l).
Proof. done. Qed.

Lemma join_app (sep : string) (l1 l2 : list string) :
  l1 ≠ [] → l2 ≠ [] →
  Str.join sep (l1 ++ l2)%list = Str.join sep l1 +:+ sep +:+ Str.join sep l2.
Proof.
  intros H1 H2. induction l1 as [|x l1 IH]; [done |].
  destruct l1 as [|y l1].
  - destruct l2; [done |]. done.
  - cbn [app] in *. rewrite !join_cons2, IH by done. by rewrite !app_assoc_str.
Qed.

Lemma split_join (l : list string) :
  Forall (fun x => Str.has_char "/" x = false) l → l ≠ [] →
  Str.split "/" (Str.join "/" l) = l.
Proof.
  induction 1 as [|x l Hx Hl IH]; intros Hne; [done |].
  destruct l as [|y l]; [cbn [Str.join]; by apply split_no_sep |].
  rewrite join_cons2. change ("/" +:+ ?s) with (String "/" s).
  by rewrite split_app_sep, IH.
Qed.

(** *** Plain names *)

Lemma plain_name_spec (s : string) :
  plain_name s = true →
  (∃ c r, s = String c r ∧ c ≠ "/"%char)
  ∧ Str.has_char "/" s = false ∧ s ≠ "." ∧ s ≠ "..".
Proof.
  unfold plain_name. intros [[[H1 H2]%andb_prop H3]%andb_prop H4]%andb_prop.
  apply negb_true_iff in H1, H2, H3, H4.
  apply String.eqb_neq in H3, H4. split_and!; try done.
  destruct s as [|c r]; [done |]. exists c, r. split; [done |].
  cbn [Str.has_char] in H2. apply orb_false_elim in H2 as [H2 _].
  apply Ascii.eqb_neq in H2. congruence.
Qed.

Lemma plain_names_no_slash (l : list string) :
  plain_names l → Forall (fun x => Str.has_char "/" x = false) l.
Proof.
  intros H. eapply Forall_impl; [exact H |].
  intros x Hx. by apply plain_name_spec in Hx as (_ & Hx & _).
Qed.

(** The path made of plain names starts with a character that is not a
    slash, when it has a name. *)
Lemma join_plain_head (l : list string) :
  plain_names l → l ≠ [] → ∃ c r, Str.join "/" l = String c r ∧ c ≠ "/"%char.
Proof.
  intros Hl Hne. destruct Hl as [|x l Hx Hl]; [done |].
  apply plain_name_spec in Hx as ((c & r & -> & Hc) & _).
  destruct l; by eexists c, _.
Qed.

(** ... and ends with one. *)
Lemma join_plain_last (l : list string) :
  plain_names l → l ≠ [] → ∃ a c, Str.join "/" l = a +:+ String c "" ∧ c ≠ "/"%char.
Proof.
  induction 1 as [|x l Hx Hl IH]; intros Hne; [done |].
  destruct l as [|y l].
  - apply plain_name_spec in Hx as ((c & r & -> & _) & Hno & _).
    destruct (last_char (String c r)) as (a & d & E); [done |].
    exists a, d. split; [done |]. rewrite E, has_char_app in Hno.
    apply orb_false_elim in Hno as [_ Hno]. cbn [Str.has_char] in Hno.
    apply orb_false_elim in Hno as [Hno _]. apply Ascii.eqb_neq in Hno. congruence.
  - destruct IH as (a & c & E & Hc); [done |].
    exists (x +:+ "/" +:+ a), c. split; [|done].
    by rewrite join_cons2, E, !app_assoc_str.
Qed.

(** *** [normpath] on absolute paths *)

Lemma norm_comps_abs (comps : list string) :
  Forall (fun x => Str.has_char "/" x = false) comps →
  ∀ acc, plain_names acc → plain_names (Posixpath.norm_comps true comps acc).
Proof.
  induction 1 as [|comp comps Hc _ IH]; intros acc Hacc; cbn [Posixpath.norm_comps].
  - by apply Forall_reverse.
  - destruct (String.eqb comp "") eqn:E1; [by apply IH |].
    destruct (String.eqb comp ".") eqn:E2; [by apply IH |].
    cbn [orb negb andb].
    destruct (String.eqb comp "..") eqn:E3; cbn [negb orb].
    + destruct acc as [|last acc]; [by apply IH |].
      apply Forall_cons in Hacc as [Hl Hacc].
      apply plain_name_spec in Hl as (_ & _ & _ & Hl).
      apply String.eqb_neq in Hl. rewrite Hl. by apply IH.
    + apply IH. constructor; [|done].
      unfold plain_name. rewrite Hc, E2, E3. by destruct comp.
Qed.

Lemma norm_comps_plain (l : list string) :
  plain_names l → ∀ acc, Posixpath.norm_comps true l acc = (reverse acc ++ l)%list.
Proof.
  induction 1 as [|x l Hx _ IH]; intros acc; cbn [Posixpath.norm_comps].
  - by rewrite app_nil_r.
  - apply plain_name_spec in Hx as ((c & r & -> & _) & _ & H1 & H2).
    apply String.eqb_neq in H1, H2. rewrite H1, H2.
    cbn [String.eqb orb negb]. rewrite IH, reverse_cons, <- app_assoc. done.
Qed.

Lemma normpath_abs (p : string) :
  Posixpath.isabs p = true →
  ∃ sl r, root_slashes sl ∧ plain_names r
          ∧ Posixpath.normpath p = sl +:+ Str.join "/" r.
Proof.
  intros Hp. unfold Posixpath.normpath. unfold Posixpath.isabs in Hp. rewrite Hp.
  destruct p as [|c p]; [done |]. cbn [Str.is_empty].
  set (two := Str.startswith (String c p) "//" && negb (Str.startswith (String c p) "///")).
  assert (Hr : ∀ b, plain_names (Posixpath.norm_comps b (Str.split "/" (String c p)) [])
                    ∨ b = false).
  { intros [|]; [left | by right]. apply norm_comps_abs; [|constructor].
    apply split_without_sep. }
  destruct two; cbn [Nat.eqb negb]; cbv zeta iota.
  - destruct (Hr true) as [H | ?]; [|done]. eexists "//", _. split_and!; [by right | exact H |].
    done.
  - destruct (Hr true) as [H | ?]; [|done]. eexists "/", _. split_and!; [by left | exact H |].
    done.
Qed.

Lemma split_rooted (sl : string) (r : list string) :
  root_slashes sl → plain_names r →
  ∃ pre, Forall (fun x => x = "") pre
         ∧ Str.split "/" (sl +:+ Str.join "/" r)
           = (pre ++ match r with [] => [""] | _ => r end)%list.
Proof.
  intros Hsl Hr.
  assert (E : Str.split "/" (Str.join "/" r) = match r with [] => [""] | _ => r end).
  { destruct r as [|x r]; [done |]. apply split_join; [|done]. by apply plain_names_no_slash. }
  destruct Hsl as [-> | ->].
  - exists [""]. split; [by repeat constructor |].
    change ("/" +:+ ?s) with (String "/" s). cbn [Str.split Ascii.eqb Bool.eqb].
    by rewrite E.
  - exists [""; ""]. split; [by repeat constructor |].
    change ("//" +:+ ?s) with (String "/" (String "/" s)).
    cbn [Str.split Ascii.eqb Bool.eqb]. by rewrite E.
Qed.

Lemma norm_comps_skip (pre l acc : list string) (b : bool) :
  Forall (fun x => x = "") pre →
  Posixpath.norm_comps b (pre ++ l)%list acc = Posixpath.norm_comps b l acc.
Proof. induction 1 as [|x pre -> _ IH]; [done |]. exact IH. Qed.

Lemma filter_skip (pre l : list string) :
  Forall (fun x => x = "") pre →
  filter (fun x => x ≠ "") (pre ++ l)%list = filter (fun x => x ≠ "") l.
Proof. induction 1 as [|x pre -> _ IH]; [done |]. exact IH. Qed.

Lemma filter_plain (l : list string) : plain_names l → filter (fun x => x ≠ "") l = l.
Proof.
  induction 1 as [|x l Hx _ IH]; [done |].
  apply plain_name_spec in Hx as ((c & r & -> & _) & _).
  rewrite filter_cons_True by done. by rewrite IH.
Qed.

(** The parts of a normal absolute path are its names. *)
Lemma nonempty_parts_rooted (sl : string) (r : list string) :
  root_slashes sl → plain_names r →
  Posixpath.nonempty_parts (sl +:+ Str.join "/" r) = r.
Proof.
  intros Hsl Hr. unfold Posixpath.nonempty_parts.
  destruct (split_rooted sl r Hsl Hr) as (pre & Hpre & ->).
  rewrite filter_skip by done. destruct r; [done |]. by apply filter_plain.
Qed.

Lemma rooted_startswith (sl : string) (r : list string) :
  root_slashes sl → plain_names r →
  Str.startswith (sl +:+ Str.join "/" r) "/" = true
  ∧ (Str.startswith (sl +:+ Str.join "/" r) "//"
     && negb (Str.startswith (sl +:+ Str.join "/" r) "///")
     = bool_decide (sl = "//")).
Proof.
  intros Hsl Hr.
  assert (Hj : Str.join "/" r = "" ∨ ∃ c x, Str.join "/" r = String c x ∧ c ≠ "/"%char).
  { destruct r as [|y r]; [by left | right]. by apply join_plain_head. }
  destruct Hj as [-> | (c & x & -> & Hc)]; destruct Hsl as [-> | ->]; try done.
  all: cbn [String.append Str.startswith].
  all: apply Ascii.eqb_neq in Hc; rewrite Ascii.eqb_sym in Hc; by rewrite !Hc.
Qed.

(** [normpath] keeps a normal absolute path. *)
Lemma normpath_rooted (sl : string) (r : list string) :
  root_slashes sl → plain_names r →
  Posixpath.normpath (sl +:+ Str.join "/" r) = sl +:+ Str.join "/" r.
Proof.
  intros Hsl Hr. unfold Posixpath.normpath.
  destruct (rooted_startswith sl r Hsl Hr) as [H1 H2]. rewrite H1, H2.
  destruct (split_rooted sl r Hsl Hr) as (pre & Hpre & ->).
  assert (Hne : Str.is_empty (sl +:+ Str.join "/" r) = false)
    by by destruct Hsl as [-> | ->].
  rewrite Hne.
  assert (Hc : Posixpath.norm_comps true
                  (pre ++ match r with [] => [""] | _ => r end)%list [] = r).
  { rewrite norm_comps_skip by done.
    destruct r; [done |]. by rewrite norm_comps_plain. }
  destruct Hsl as [-> | ->]; cbn [bool_decide decide_rel]; cbv zeta.
  - rewrite bool_decide_eq_false_2 by done. cbn [Nat.eqb negb]. by rewrite Hc.
  - rewrite bool_decide_eq_true_2 by done. cbn [Nat.eqb negb]. by rewrite Hc.
Qed.

Lemma abspath_rooted (cwd sl : string) (r : list string) :
  root_slashes sl → plain_names r →
  Posixpath.abspath cwd (sl +:+ Str.join "/" r) = sl +:+ Str.join "/" r.
Proof.
  intros Hsl Hr. unfold Posixpath.abspath, Posixpath.isabs.
  rewrite (proj1 (rooted_startswith sl r Hsl Hr)). by apply normpath_rooted.
Qed.

(** [abspath] returns a normal absolute path. *)
Lemma abspath_shape (cwd p : string) :
  Posixpath.isabs cwd = true →
  ∃ sl r, root_slashes sl ∧ plain_names r
          ∧ Posixpath.abspath cwd p = sl +:+ Str.join "/" r.
Proof.
  intros cwd_abs. unfold Posixpath.abspath. apply normpath_abs.
  destruct (Posixpath.isabs p) eqn:E; [done |].
  unfold Posixpath.join, Posixpath.isabs in *. rewrite E.
  destruct cwd as [|c w]; [done |].
  cbn [Str.startswith] in cwd_abs. apply andb_prop in cwd_abs as [Hc _].
  destruct (Str.is_empty (String c w) || Str.endswith (String c w) "/");
    cbn [String.append Str.startswith]; by rewrite Hc.
Qed.

(** *** [join] and [dirname] on normal absolute paths *)

Lemma endswith_last (a : string) (c d : ascii) :
  Str.endswith (a +:+ String c "") (String d "") = Ascii.eqb d c.
Proof.
  unfold Str.endswith. rewrite rev_app. cbn. by rewrite andb_true_r.
Qed.

Lemma posix_join_rooted (sl : string) (r l : list string) :
  root_slashes sl → plain_names r → l ≠ [] →
  Str.startswith (Str.join "/" l) "/" = false →
  Posixpath.join (sl +:+ Str.join "/" r) (Str.join "/" l) = sl +:+ Str.join "/" (r ++ l)%list.
Proof.
  intros Hsl Hr Hl Hst. unfold Posixpath.join. rewrite Hst.
  assert (Hne : Str.is_empty (sl +:+ Str.join "/" r) = false)
    by by destruct Hsl as [-> | ->].
  rewrite Hne. cbn [orb].
  destruct r as [|x r].
  - cbn [Str.join app]. rewrite app_empty_r.
    by destruct Hsl as [-> | ->].
  - destruct (join_plain_last (x :: r)) as (a & c & E & Hc); [done.. |].
    rewrite E, <- app_assoc_str, endswith_last.
    apply Ascii.eqb_neq in Hc. rewrite Ascii.eqb_sym, Hc.
    rewrite join_app by done. by rewrite E, !app_assoc_str.
Qed.

(** [dirname] of a path whose last part is a file name *)
Lemma dirname_file (a : string) (c : ascii) (file : string) :
  c ≠ "/"%char → Str.has_char "/" file = false →
  Posixpath.dirname (a +:+ String c "" +:+ "/" +:+ file) = a +:+ String c "".
Proof.
  intros Hc Hfile. unfold Posixpath.dirname.
  assert (Hhead : Str.rev (Str.lstrip_by (fun c => negb (Ascii.eqb c "/"))
                                         (Str.rev (a +:+ String c "" +:+ "/" +:+ file)))
                  = (a +:+ String c "") +:+ "/").
  { rewrite <- app_assoc_str, rev_app, (rev_app "/" file).
    change (Str.rev "/") with "/". rewrite app_assoc_str.
    change ("/" +:+ ?s) with (String "/" s).
    rewrite lstrip_by_app_stop by done.
    rewrite lstrip_by_all
      by (apply no_char_all; by rewrite has_char_rev).
    cbn [String.append Str.rev]. by rewrite rev_rev. }
  rewrite Hhead.
  assert (Hne : Str.is_empty ((a +:+ String c "") +:+ "/") = false) by by destruct a.
  assert (Hall : all_chars (Ascii.eqb "/") ((a +:+ String c "") +:+ "/") = false).
  { rewrite !all_chars_app. cbn [all_chars].
    apply Ascii.eqb_neq in Hc. rewrite Ascii.eqb_sym in Hc.
    rewrite Hc. cbn [andb]. by rewrite andb_false_r. }
  rewrite Hne, Hall. cbn [negb andb].
  unfold Str.rstrip_char. rewrite app_assoc_str.
  cbn [String.append]. clear Hhead Hne Hall.
  induction a as [|x a IH]; cbn [String.append Str.rstrip_by].
  - apply Ascii.eqb_neq in Hc. rewrite Ascii.eqb_sym in Hc. by rewrite Ascii.eqb_refl, Hc.
  - rewrite IH. by destruct a.
Qed.

Lemma local_rel_head (dirs : list string) (file : string) :
  plain_names dirs → Str.has_char "/" file = false →
  Str.startswith (Str.join "/" (dirs ++ [file])%list) "/" = false.
Proof.
  intros Hd Hf. destruct Hd as [|d dirs Hd _].
  - destruct file as [|c f]; [done |]. cbn [app Str.join Str.startswith Str.has_char] in *.
    apply orb_false_elim in Hf as [-> _]. done.
  - apply plain_name_spec in Hd as ((c & r & -> & Hc) & _).
    apply Ascii.eqb_neq in Hc. rewrite Ascii.eqb_sym in Hc.
    destruct dirs; cbn [app Str.join String.append Str.startswith]; by rewrite Hc.
Qed.

(** [docs_root] and [local_abs] are normal absolute paths, with the parts
    of [out_root] first. *)
Lemma places_rooted (cwd out : string) (names : list string) :
  Posixpath.isabs cwd = true →
  names ≠ [] → Str.startswith (Str.join "/" names) "/" = false →
  ∃ sl r, root_slashes sl ∧ plain_names (r ++ ["docs"])
          ∧ out_root cwd out = sl +:+ Str.join "/" r
          ∧ docs_root cwd out = sl +:+ Str.join "/" (r ++ ["docs"])
          ∧ local_abs cwd out (Str.join "/" names)
            = sl +:+ Str.join "/" ((r ++ ["docs"]) ++ names).
Proof.
  intros Hcwd Hne Hst.
  destruct (abspath_shape cwd out Hcwd) as (sl & r & Hsl & Hr & Eout).
  assert (Hdocs : plain_names (r ++ ["docs"])).
  { apply Forall_app. split; [done |]. by repeat constructor. }
  assert (Edocs : docs_root cwd out = sl +:+ Str.join "/" (r ++ ["docs"])).
  { unfold docs_root, out_root. rewrite Eout.
    by apply (posix_join_rooted sl r ["docs"]). }
  exists sl, r. split_and!; try done.
  unfold local_abs. rewrite Edocs. by apply posix_join_rooted.
Qed.

(** X27.  A page whose local path is made of the directories [dirs] and
    a file name is rewritten with the relative prefix [../] once per
    directory: the prefix leads from the directory of the page back to
    [docs_root], whatever [--out] is. *)
Theorem page_prefix_counts_directories (cwd out : string) (dirs : list string)
    (file : string) :
  Posixpath.isabs cwd = true →
  Forall (fun d => plain_name d = true) dirs →
  Str.has_char "/" file = false →
  _posix_relpath cwd (page_dir_of cwd out (Str.join "/" (dirs ++ [file])))
                 (docs_root cwd out)
  = Ok (up (List.length dirs)).
Proof.
  intros Hcwd Hdirs Hfile.
  destruct (places_rooted cwd out (dirs ++ [file]) Hcwd)
    as (sl & r & Hsl & Hdocs & _ & Edocs & Eabs);
    [by destruct dirs | by apply local_rel_head |].
  assert (Epage : page_dir_of cwd out (Str.join "/" (dirs ++ [file]))
                  = sl +:+ Str.join "/" ((r ++ ["docs"]) ++ dirs)).
  { unfold page_dir_of. rewrite Eabs, (app_assoc _ dirs [file]).
    assert (Hall : plain_names ((r ++ ["docs"]) ++ dirs)) by by apply Forall_app.
    destruct (join_plain_last ((r ++ ["docs"]) ++ dirs)) as (a & c & E & Hc);
      [done | by destruct r |].
    rewrite join_app; [|by destruct r | done]. rewrite E.
    cbn [Str.join].
    replace (sl +:+ (a +:+ String c "") +:+ "/" +:+ file)
      with ((sl +:+ a) +:+ String c "" +:+ "/" +:+ file) by by rewrite !app_assoc_str.
    rewrite <- (app_assoc_str sl a).
    by apply dirname_file. }
  apply posix_relpath_below.
  - rewrite Edocs. by destruct Hsl as [-> | ->].
  - rewrite Epage, Edocs.
    rewrite !abspath_rooted, !nonempty_parts_rooted; try done.
    all: apply Forall_app; by split.
Qed.

Lemma page_prefix_counts_directories_witness :
  _posix_relpath "/home/user" (page_dir_of "/home/user" "site" "blog/2020/post/index.html")
                 (docs_root "/home/user" "site")
  = Ok "../../../".
Proof.
  apply (page_prefix_counts_directories "/home/user" "site" ["blog"; "2020"; "post"]
           "index.html").
  - reflexivity.
  - repeat constructor.
  - reflexivity.
Defined.
(** ** The local path that the index records *)

Lemma commonprefix_app_r (r d : list string) :
  Posixpath.commonprefix r (r ++ d)%list = r.
Proof.
  induction r as [|x r IH]; [done |].
  cbn [app Posixpath.commonprefix]. by rewrite String.eqb_refl, IH.
Qed.

(** X28.  The [local_path] that the index, the error log and the skip
    entries record for a download is [docs/] followed by the local path
    of the record, when that path is made of plain names. *)
Theorem index_local_path_is_below_docs (cwd out : string) (names : list string) :
  Posixpath.isabs cwd = true →
  names ≠ [] →
  Forall (fun d => plain_name d = true) names →
  Posixpath.relpath cwd (local_abs cwd out (Str.join "/" names)) (out_root cwd out)
  = Ok ("docs/" +:+ Str.join "/" names).
Proof.
  intros Hcwd Hne Hnames.
  assert (Hhead : Str.startswith (Str.join "/" names) "/" = false).
  { destruct (join_plain_head names Hnames Hne) as (c & x & -> & Hc).
    apply Ascii.eqb_neq in Hc. rewrite Ascii.eqb_sym in Hc.
    cbn [Str.startswith]. by rewrite Hc. }
  destruct (places_rooted cwd out names Hcwd Hne Hhead)
    as (sl & r & Hsl & Hdocs & Eout & _ & Eabs).
  assert (Hr : plain_names r) by by apply Forall_app in Hdocs as [? _].
  assert (Hall : plain_names ((r ++ ["docs"]) ++ names)) by by apply Forall_app.
  unfold Posixpath.relpath. rewrite Eabs, Eout.
  assert (Str.is_empty (sl +:+ Str.join "/" ((r ++ ["docs"]) ++ names)) = false) as ->
    by by destruct Hsl as [-> | ->].
  rewrite !abspath_rooted, !nonempty_parts_rooted by done.
  cbv zeta. rewrite <- app_assoc, commonprefix_app_r, Nat.sub_diag, drop_app_length.
  cbn [replicate app]. destruct names as [|x names]; [done |].
  by rewrite join_cons2.
Qed.

Lemma index_local_path_is_below_docs_witness :
  Posixpath.relpath "/home/user" (local_abs "/home/user" "site" "wp-content/themes/style.css")
                    (out_root "/home/user" "site")
  = Ok "docs/wp-content/themes/style.css".
Proof.
  apply (index_local_path_is_below_docs "/home/user" "site"
           ["wp-content"; "themes"; "style.css"]).
  - reflexivity.
  - discriminate.
  - repeat constructor.
Defined.
